(** * whatsapp-mcp: persistence and retrieval engine

    A shallow embedding of the message/chat store of the bridge
    (package [db]), of the ingestion loop (package [services]), of the
    history-sync decoder (package [whatsapp]) and of the read-side query
    layer (package [mcp]), together with the properties of these
    functions.

    The SQLite tables are lists of rows in scan order, every SQL statement
    of the source is the list program it denotes (WHERE is [filter], ORDER
    BY a stable sort, LIMIT and OFFSET cut the list), Go's [int] is a
    64-bit two's complement integer and Go errors are values.

    A [time.Time] is its instant, counted in seconds.  A TIMESTAMP cell
    is kept as the time it was written from, but SQLite sees the text the
    driver wrote for it: every comparison and every ORDER BY on a
    timestamp column is the byte order of those texts ([Driver.codec]),
    and a timestamp the query layer passes back as a parameter is the
    RFC 3339 text it scanned.  Scanning a stored timestamp always gives
    the instant back.  The bridge keeps one connection, which works until
    [Close]; every function of package [mcp] opens its own, which either
    runs its statements against the tables or fails them all. *)

From Stdlib Require Import ZArith NArith List String Ascii Bool Lia.
From Stdlib Require Import Sorting.Sorted Sorting.Permutation.
Import ListNotations.

Local Open Scope string_scope.
Local Open Scope list_scope.
Local Open Scope Z_scope.

(* ================================================================== *)
(** ** Go primitives *)
(* ================================================================== *)

Module Go.

(** Go's [int] on the 64-bit targets of the repository: arithmetic wraps
    around modulo 2^64. *)
Definition min_int : Z := - 2 ^ 63.
Definition max_int : Z := 2 ^ 63 - 1.

Definition wrap64 (z : Z) : Z := (z + 2 ^ 63) mod 2 ^ 64 - 2 ^ 63.

Definition is_int (z : Z) : Prop := min_int <= z <= max_int.

(** [a * b] on [int]. *)
Definition mul (a b : Z) : Z := wrap64 (a * b).

(** [int64(u)] for [u : uint64]. *)
Definition int64_of_uint64 (u : N) : Z := wrap64 (Z.of_N u).

(** Go errors.  [ErrNoRows] is [sql.ErrNoRows], [ErrDriver] is any error
    reported by the database driver or by [database/sql] itself, and
    [Errorf prefix e] is [fmt.Errorf(prefix + "%v", e)]. *)
Inductive error : Type :=
| ErrNoRows
| ErrDriver (msg : string)
| Errorf (prefix : string) (cause : error).

(** [time.Time], restricted to whole seconds: the instant is the number of
    seconds since January 1 of year 1, which is what [Time.After]
    compares.  [Time{}] is instant 0. *)
Definition Time : Type := Z.

Definition zeroTime : Time := 0.

Definition unixToInternal : Z := 62135596800.

(** [time.Unix(sec, 0)]. *)
Definition Unix (sec : Z) : Time := wrap64 (sec + unixToInternal).

(** [t.After(u)]. *)
Definition After (t u : Time) : bool := u <? t.

End Go.

(** The errors of the functions that also build an error from a bare
    message ([fmt.Errorf] without a cause): [New msg] is that error,
    [Of e] any other error value. *)
Module Errors.

Inductive t : Type :=
| New (msg : string)
| Of (e : Go.error).

End Errors.

(* ================================================================== *)
(** ** The driver's texts for a timestamp *)
(* ================================================================== *)

Module Driver.

(** The source binds [time.Time] values and go-sqlite3 turns them into
    text; the zone rules of the process decide that text and are not
    fixed by the source, so the renderings are taken as a parameter:
    - [stored t] is the text of the cell written for [t], that is
      [t.Format("2006-01-02 15:04:05.999999999-07:00")]; SQLite compares
      and sorts these texts byte by byte;
    - [scanned t] is what scanning that cell into a Go [string] yields,
      [Format(time.RFC3339Nano)] of the time parsed back from the cell;
    - [formatted t] is [t.Format(time.RFC3339)] for a time of the
      caller. *)
Record codec : Type := {
  stored : Go.Time -> string;
  scanned : Go.Time -> string;
  formatted : Go.Time -> string
}.

(** *** The renderings of a process in a given zone *)

Definition digit (n : Z) : ascii := ascii_of_N (48 + Z.to_N (n mod 10)).

(** [n] on two and on four decimal digits. *)
Definition two (n : Z) : string := String (digit (n / 10)) (String (digit n) "").

Definition four (n : Z) : string := (two (n / 100) ++ two n)%string.

(** The civil date [(year, month, day)] of a day number counted from
    January 1 of year 1, in the proleptic Gregorian calendar: the days
    are counted from March 1 of year 0 in eras of 400 years. *)
Definition civil (day : Z) : Z * Z * Z :=
  let z := day + 306 in
  let era := z / 146097 in
  let doe := z mod 146097 in
  let yoe := (doe - doe / 1460 + doe / 36524 - doe / 146096) / 365 in
  let doy := doe - (365 * yoe + yoe / 4 - yoe / 100) in
  let mp := (5 * doy + 2) / 153 in
  let d := doy - (153 * mp + 2) / 5 + 1 in
  let m := if mp <? 10 then mp + 3 else mp - 9 in
  (yoe + era * 400 + (if m <=? 2 then 1 else 0), m, d).

(** ["2006-01-02"] and ["15:04:05"] of a wall clock in seconds. *)
Definition date (wall : Z) : string :=
  let '(y, m, d) := civil (wall / 86400) in
  (four y ++ "-" ++ two m ++ "-" ++ two d)%string.

Definition clock (wall : Z) : string :=
  let s := wall mod 86400 in
  let hh := two (s / 3600) in
  let mm := two (s / 60 mod 60) in
  let ss := two (s mod 60) in
  (hh ++ ":" ++ mm ++ ":" ++ ss)%string.

(** ["-07:00"] of an offset in seconds east of UTC. *)
Definition zone_text (offset : Z) : string :=
  let minutes := Z.quot offset 60 in
  let sign := if minutes <? 0 then "-" else "+" in
  let hh := two (Z.abs minutes / 60) in
  let mm := two (Z.abs minutes mod 60) in
  (sign ++ hh ++ ":" ++ mm)%string.

(** The codec of a process whose zone puts the instant [t] at [zone t]
    seconds east of UTC, for the years 1 to 9999.  The cell keeps the
    wall clock and the offset; the scanned text has the same wall clock
    behind a [T], and [Z] where the cell says [+00:00]. *)
Definition local (zone : Go.Time -> Z) : codec :=
  {| stored := fun t =>
       let wall := t + zone t in
       (date wall ++ " " ++ clock wall ++ zone_text (zone t))%string;
     scanned := fun t =>
       let wall := t + zone t in
       let z := if Z.quot (zone t) 60 =? 0 then "Z" else zone_text (zone t) in
       (date wall ++ "T" ++ clock wall ++ z)%string;
     formatted := fun t =>
       let wall := t + zone t in
       let z := if zone t =? 0 then "Z" else zone_text (zone t) in
       (date wall ++ "T" ++ clock wall ++ z)%string |}.

(** A process in UTC. *)
Definition utc : codec := local (fun _ => 0).

End Driver.

(* ================================================================== *)
(** ** Strings *)
(* ================================================================== *)

Module Str.

Definition chars (s : string) : list ascii := list_ascii_of_string s.

(** ASCII lower-casing, as done by SQLite's [LOWER] and by [LIKE]. *)
Definition lower_ascii (c : ascii) : ascii :=
  let n := N_of_ascii c in
  if (65 <=? n)%N && (n <=? 90)%N then ascii_of_N (n + 32) else c.

Definition lower_chars (l : list ascii) : list ascii := map lower_ascii l.

Definition LOWER (s : string) : string :=
  string_of_list_ascii (lower_chars (chars s)).

Definition percent : ascii := "%"%char.
Definition underscore : ascii := "_"%char.
Definition at_sign : ascii := "@"%char.

(** SQLite's [LIKE] without an ESCAPE clause, read on bytes: [%] matches
    any run of bytes, [_] matches one byte, every other pattern byte
    matches itself up to ASCII case.  SQLite itself reads both operands as
    NUL-terminated UTF-8, so that [_] stands for one character, and it
    fails the statement on a pattern of more than 50000 bytes; the two
    readings agree on the operands described by [byte_wise] below, within
    [within_like_limit]. *)
Fixpoint like_chars (p : list ascii) : list ascii -> bool :=
  match p with
  | [] => fun s => match s with [] => true | _ :: _ => false end
  | c :: p' =>
      if Ascii.eqb c percent then
        fix star (s : list ascii) : bool :=
          like_chars p' s
          || match s with [] => false | _ :: s' => star s' end
      else if Ascii.eqb c underscore then
        fun s => match s with [] => false | _ :: s' => like_chars p' s' end
      else
        fun s =>
          match s with
          | [] => false
          | d :: s' =>
              Ascii.eqb (lower_ascii c) (lower_ascii d) && like_chars p' s'
          end
  end.

(** [x LIKE pattern]. *)
Definition LIKE (x pattern : string) : bool :=
  like_chars (chars pattern) (chars x).

(** The pattern ["%" + query + "%"] built by the query functions. *)
Definition contains_pattern (query : string) : string :=
  ("%" ++ query ++ "%")%string.

(** [strings.HasSuffix(s, suffix)]. *)
Definition HasSuffix (s suffix : string) : bool :=
  let ls := chars s in
  let lx := chars suffix in
  (List.length lx <=? List.length ls)%nat
  && (if list_eq_dec ascii_dec
           (skipn (List.length ls - List.length lx) ls) lx
      then true else false).

(** [strings.Contains(s, "@")]. *)
Definition contains_at (s : string) : bool :=
  existsb (Ascii.eqb at_sign) (chars s).

Fixpoint before_at_chars (l : list ascii) : list ascii :=
  match l with
  | [] => []
  | c :: l' => if Ascii.eqb c at_sign then [] else c :: before_at_chars l'
  end.

(** [strings.Split(s, "@")[0]]: the part of [s] before its first ["@"],
    all of [s] when it has none. *)
Definition split_at_0 (s : string) : string :=
  string_of_list_ascii (before_at_chars (chars s)).

(** Case-insensitive containment, the property the callers of [LIKE] are
    after. *)
Definition contains_ci_chars (s q : list ascii) : Prop :=
  exists pre mid post,
    s = pre ++ mid ++ post /\ lower_chars mid = lower_chars q.

Definition contains_ci (s q : string) : Prop :=
  contains_ci_chars (chars s) (chars q).

Definition no_wildcard (q : string) : Prop :=
  Forall (fun c => c <> percent /\ c <> underscore) (chars q).

(** ASCII text without NUL. *)
Definition plain (s : string) : bool :=
  forallb (fun c => (0 <? N_of_ascii c)%N && (N_of_ascii c <? 128)%N) (chars s).

Definition nul_free (s : string) : bool :=
  forallb (fun c => (0 <? N_of_ascii c)%N) (chars s).

Definition no_underscore (s : string) : bool :=
  forallb (fun c => negb (Ascii.eqb c underscore)) (chars s).

(** The operands on which [LIKE] above is what SQLite computes: neither
    holds a NUL byte, the pattern is ASCII, and either the pattern has no
    [_] or the text is ASCII too. *)
Definition byte_wise (pattern x : string) : bool :=
  plain pattern && nul_free x && (no_underscore pattern || plain x).

(** SQLITE_MAX_LIKE_PATTERN_LENGTH, and the patterns SQLite accepts. *)
Definition like_limit : Z := 50000.

Definition within_like_limit (pattern : string) : bool :=
  Z.of_nat (String.length pattern) <=? like_limit.

End Str.

(* ================================================================== *)
(** ** The SQL fragment used by the queries *)
(* ================================================================== *)

Module Sql.

Section OrderBy.
Context {A : Type}.
Variable leb : A -> A -> bool.

(** ORDER BY is a stable sort of the rows in scan order: a row goes in
    front of the first row that does not come strictly before it. *)
Fixpoint insert (x : A) (l : list A) : list A :=
  match l with
  | [] => [x]
  | y :: l' => if leb x y then x :: y :: l' else y :: insert x l'
  end.

Definition order_by (l : list A) : list A := fold_right insert [] l.
End OrderBy.

(** The first [n] rows, and the rows after them, for a 64-bit count. *)
Fixpoint take {A : Type} (n : Z) (l : list A) : list A :=
  match l with
  | [] => []
  | x :: l' => if n <=? 0 then [] else x :: take (n - 1) l'
  end.

Fixpoint drop {A : Type} (n : Z) (l : list A) : list A :=
  match l with
  | [] => []
  | x :: l' => if n <=? 0 then l else drop (n - 1) l'
  end.

(** [LIMIT n]: a negative [n] is no limit. *)
Definition limit {A : Type} (n : Z) (l : list A) : list A :=
  if n <? 0 then l else take n l.

(** [OFFSET n]: a negative [n] skips nothing. *)
Definition offset {A : Type} (n : Z) (l : list A) : list A :=
  if n <? 0 then l else drop n l.

(** What [LIMIT n] leaves out. *)
Definition beyond {A : Type} (n : Z) (l : list A) : list A :=
  if n <? 0 then [] else drop n l.

(** The order relation of a boolean comparison. *)
Definition le {A : Type} (leb : A -> A -> bool) (a b : A) : Prop :=
  leb a b = true.

(** [LIMIT n OFFSET o]. *)
Definition limit_offset {A : Type} (n o : Z) (l : list A) : list A :=
  limit n (offset o l).

(** Two TEXT values compare as their bytes do ([memcmp], a proper prefix
    first): [String.ltb] and [String.leb].  [x BETWEEN lo AND hi] on
    TEXT. *)
Definition between (x lo hi : string) : bool :=
  String.leb lo x && String.leb x hi.

(** Ascending order on a nullable column: NULL sorts first. *)
Definition null_leb {A : Type} (leb : A -> A -> bool) (x y : option A) : bool :=
  match x, y with
  | None, _ => true
  | Some _, None => false
  | Some a, Some b => leb a b
  end.

(** Equality of two nullable values in a WHERE or ON clause: NULL is equal
    to nothing. *)
Definition null_eq_time (x : option Z) (y : Z) : bool :=
  match x with
  | None => false
  | Some a => a =? y
  end.

(** The rows that [INSERT OR REPLACE] of [r] leaves in place: those
    that do not share its key. *)
Definition others {A : Type} (same : A -> A -> bool) (r : A) (l : list A)
  : list A :=
  filter (fun x => negb (same x r)) l.

End Sql.

(* ================================================================== *)
(** ** Persisted state: the two tables of messages.db *)
(* ================================================================== *)

Module Schema.

(** [chats(jid TEXT PRIMARY KEY, name TEXT, last_message_time TIMESTAMP)].
    The readers scan [name] and [last_message_time] as nullable. *)
Record chat_row : Type := {
  c_jid : string;
  c_name : option string;
  c_last_message_time : option Go.Time
}.

(** [messages(id, chat_jid, sender, content, timestamp, is_from_me,
    PRIMARY KEY (id, chat_jid), FOREIGN KEY (chat_jid) REFERENCES
    chats(jid))].  Every reader scans these columns into plain Go values. *)
Record message_row : Type := {
  m_id : string;
  m_chat_jid : string;
  m_sender : string;
  m_content : string;
  m_timestamp : Go.Time;
  m_is_from_me : bool
}.

(** Both tables, each in scan order. *)
Record Store : Type := {
  chats : list chat_row;
  messages : list message_row
}.

Definition empty : Store := {| chats := []; messages := [] |}.

Definition has_chat (st : Store) (jid : string) : bool :=
  existsb (fun c => String.eqb (c_jid c) jid) (chats st).

Definition same_message_key (a b : message_row) : bool :=
  String.eqb (m_id a) (m_id b) && String.eqb (m_chat_jid a) (m_chat_jid b).

(** [INSERT OR REPLACE INTO chats]: the row with the same primary key, if
    any, is deleted and the new row is appended. *)
Definition replace_chat (r : chat_row) (st : Store) : Store :=
  {| chats :=
       filter (fun c => negb (String.eqb (c_jid c) (c_jid r))) (chats st)
       ++ [r];
     messages := messages st |}.

(** [INSERT OR REPLACE INTO messages]. *)
Definition replace_message (r : message_row) (st : Store) : Store :=
  {| chats := chats st;
     messages :=
       filter (fun m => negb (same_message_key m r)) (messages st) ++ [r] |}.

(** A row with the primary key [(id, chat_jid)] is stored. *)
Definition has_message (st : Store) (id chat_jid : string) : Prop :=
  exists m, In m (messages st) /\ m_id m = id /\ m_chat_jid m = chat_jid.

(** The foreign key of [messages]: every message row names a chat row. *)
Definition referential_integrity (st : Store) : Prop :=
  forall m, In m (messages st) -> has_chat st (m_chat_jid m) = true.

(** The text invariant of the data model: no stored message is empty. *)
Definition no_empty_content (st : Store) : Prop :=
  forall m, In m (messages st) -> m_content m <> "".

(** The primary keys: [jid] on [chats], [(id, chat_jid)] on [messages]. *)
Definition message_key (m : message_row) : string * string :=
  (m_id m, m_chat_jid m).

Definition primary_keys (st : Store) : Prop :=
  NoDup (map c_jid (chats st)) /\ NoDup (map message_key (messages st)).

(** No chat row has a NULL column. *)
Definition no_null_chats (st : Store) : Prop :=
  forall c, In c (chats st) ->
            c_name c <> None /\ c_last_message_time c <> None.

(** What one ingestion step keeps, whatever the event. *)
Definition kept (st : Store) : Prop :=
  primary_keys st /\ no_empty_content st /\ no_null_chats st.

End Schema.

(* ================================================================== *)
(** ** package models *)
(* ================================================================== *)

Module models.

Record Message : Type := {
  ID : string;
  ChatJID : string;
  Sender : string;
  Content : string;
  Timestamp : Go.Time;
  IsFromMe : bool;
  ChatName : string
}.

Record Chat : Type := {
  JID : string;
  Name : string;
  LastMessageTime : Go.Time;
  LastMessage : string;
  LastSender : string;
  LastIsFromMe : bool;
  Messages : list Message
}.

(** [models.Chat{}]. *)
Definition zeroChat : Chat :=
  {| JID := ""; Name := ""; LastMessageTime := Go.zeroTime;
     LastMessage := ""; LastSender := ""; LastIsFromMe := false;
     Messages := [] |}.

End models.

(* ================================================================== *)
(** ** package db: the store of the bridge *)
(* ================================================================== *)

Module db.
Import Schema.

(** The [db] struct: the open connection, or a closed one after [Close]. *)
Record t : Type := {
  store : Store;
  closed : bool
}.

Definition errClosed : Go.error := Go.ErrDriver "sql: database is closed".
Definition errForeignKey : Go.error :=
  Go.ErrDriver "FOREIGN KEY constraint failed".
Definition errScanNull : Go.error :=
  Go.ErrDriver "sql: Scan error: converting NULL is unsupported".

Definition with_store (d : t) (st : Store) : t :=
  {| store := st; closed := closed d |}.

(** [Close]. *)
Definition Close (d : t) : t := {| store := store d; closed := true |}.

Definition chat_row_of (chat : models.Chat) : chat_row :=
  {| c_jid := models.JID chat;
     c_name := Some (models.Name chat);
     c_last_message_time := Some (models.LastMessageTime chat) |}.

Definition message_row_of (msg : models.Message) : message_row :=
  {| m_id := models.ID msg;
     m_chat_jid := models.ChatJID msg;
     m_sender := models.Sender msg;
     m_content := models.Content msg;
     m_timestamp := models.Timestamp msg;
     m_is_from_me := models.IsFromMe msg |}.

(** [StoreChat]: one INSERT OR REPLACE statement. *)
Definition StoreChat (d : t) (chat : models.Chat) : t * option Go.error :=
  if closed d then (d, Some errClosed)
  else (with_store d (replace_chat (chat_row_of chat) (store d)), None).

(** [StoreMessage]: nothing is executed for an empty content; otherwise one
    INSERT OR REPLACE statement, which the foreign key rejects when the
    chat row is missing. *)
Definition StoreMessage (d : t) (msg : models.Message) : t * option Go.error :=
  if String.eqb (models.Content msg) "" then (d, None)
  else if closed d then (d, Some errClosed)
  else if has_chat (store d) (models.ChatJID msg) then
    (with_store d (replace_message (message_row_of msg) (store d)), None)
  else (d, Some errForeignKey).

(** [GetChat]: [QueryRowContext(...).Scan(&chat.JID, &chat.Name,
    &chat.LastMessageTime)].  The result is the pair [(chat, err)] of the
    source, [None] standing for [nil]. *)
Definition GetChat (d : t) (jid : string) : option models.Chat * option Go.error :=
  if closed d then (None, Some errClosed)
  else
    match filter (fun c => String.eqb (c_jid c) jid) (chats (store d)) with
    | [] => (None, None)
    | c :: _ =>
        match c_name c, c_last_message_time c with
        | Some n, Some t =>
            (Some {| models.JID := c_jid c; models.Name := n;
                     models.LastMessageTime := t;
                     models.LastMessage := ""; models.LastSender := "";
                     models.LastIsFromMe := false; models.Messages := [] |},
             None)
        | _, _ => (None, Some errScanNull)
        end
    end.

(** Scanning a message row; [ChatName] is not a column. *)
Definition message_of_row (m : message_row) : models.Message :=
  {| models.ID := m_id m;
     models.ChatJID := m_chat_jid m;
     models.Sender := m_sender m;
     models.Content := m_content m;
     models.Timestamp := m_timestamp m;
     models.IsFromMe := m_is_from_me m;
     models.ChatName := "" |}.

Section Reads.
Variable drv : Driver.codec.

(** [ORDER BY timestamp DESC] on [messages]: the order of the stored
    texts. *)
Definition message_time_desc (a b : message_row) : bool :=
  String.leb (Driver.stored drv (m_timestamp b))
             (Driver.stored drv (m_timestamp a)).

(** [GetMessages]: [WHERE chat_jid = ? ORDER BY timestamp DESC LIMIT ?]. *)
Definition GetMessages (d : t) (chatJID : string) (limit : Z)
  : list models.Message * option Go.error :=
  if closed d then ([], Some errClosed)
  else
    (map message_of_row
         (Sql.limit limit
            (Sql.order_by message_time_desc
               (filter (fun m => String.eqb (m_chat_jid m) chatJID)
                       (messages (store d))))),
     None).

(** [ORDER BY last_message_time DESC] on [chats]: the order of the stored
    texts, NULL last. *)
Definition chat_time_desc (a b : chat_row) : bool :=
  Sql.null_leb String.leb
    (option_map (Driver.stored drv) (c_last_message_time b))
    (option_map (Driver.stored drv) (c_last_message_time a)).

(** The scan loop of [GetChats]: a NULL column makes [Scan] fail, and the
    function then returns no chat at all. *)
Fixpoint scanChats (rows : list chat_row) : option (list models.Chat) :=
  match rows with
  | [] => Some []
  | c :: rest =>
      match c_name c, c_last_message_time c with
      | Some n, Some t =>
          match scanChats rest with
          | Some chats =>
              Some ({| models.JID := c_jid c; models.Name := n;
                       models.LastMessageTime := t;
                       models.LastMessage := ""; models.LastSender := "";
                       models.LastIsFromMe := false; models.Messages := [] |}
                    :: chats)
          | None => None
          end
      | _, _ => None
      end
  end.

(** The chat scanned from a row; only rows without NULL are scanned
    with success. *)
Definition chat_of_row (c : chat_row) : models.Chat :=
  {| models.JID := c_jid c;
     models.Name := match c_name c with Some n => n | None => "" end;
     models.LastMessageTime :=
       match c_last_message_time c with Some t => t | None => Go.zeroTime end;
     models.LastMessage := ""; models.LastSender := "";
     models.LastIsFromMe := false; models.Messages := [] |}.

(** [GetChats]. *)
Definition GetChats (d : t) : list models.Chat * option Go.error :=
  if closed d then ([], Some errClosed)
  else
    match scanChats (Sql.order_by chat_time_desc (chats (store d))) with
    | Some chats => (chats, None)
    | None => ([], Some errScanNull)
    end.

End Reads.

End db.

(* ================================================================== *)
(** ** package services: the ingestion loop *)
(* ================================================================== *)

Module services.

(** The part of the [db.DB] interface the ingestion step calls, over any
    implementation with state [S]. *)
Record DB (S : Type) : Type := {
  StoreChat : S -> models.Chat -> S * option Go.error;
  StoreMessage : S -> models.Message -> S * option Go.error
}.
Arguments StoreChat {S}.
Arguments StoreMessage {S}.

(** The SQLite implementation of package [db]. *)
Definition sqlite : DB db.t :=
  {| StoreChat := db.StoreChat; StoreMessage := db.StoreMessage |}.

Section Service.
Context {S : Type}.
Variable impl : DB S.

(** The [for _, msg := range chat.Messages] loop of
    [storeChatAndMessage]. *)
Fixpoint storeMessages (s : S) (msgs : list models.Message)
  : S * option Go.error :=
  match msgs with
  | [] => (s, None)
  | msg :: rest =>
      match StoreMessage impl s msg with
      | (s', Some err) => (s', Some (Go.Errorf "error storing message: " err))
      | (s', None) => storeMessages s' rest
      end
  end.

Definition storeChatAndMessage (s : S) (chat : models.Chat)
  : S * option Go.error :=
  match StoreChat impl s chat with
  | (s', Some err) => (s', Some (Go.Errorf "error storing chat: " err))
  | (s', None) => storeMessages s' (models.Messages chat)
  end.

(** The consumer goroutine of [NewService] over the events received on
    [ChatChan]; [out] is what it has printed so far. *)
Fixpoint consume (s : S) (out : list Go.error) (events : list models.Chat)
  : S * list Go.error :=
  match events with
  | [] => (s, out)
  | chat :: rest =>
      match storeChatAndMessage s chat with
      | (s', Some err) => consume s' (out ++ [err]) rest
      | (s', None) => consume s' out rest
      end
  end.

(** The ingestion step as the specification words it: the chat, then
    every message in turn, a failed message being logged and skipped. *)
Fixpoint storeMessages_spec (s : S) (out : list Go.error)
    (msgs : list models.Message) : S * list Go.error :=
  match msgs with
  | [] => (s, out)
  | msg :: rest =>
      match StoreMessage impl s msg with
      | (s', Some err) =>
          storeMessages_spec s'
            (out ++ [Go.Errorf "error storing message: " err]) rest
      | (s', None) => storeMessages_spec s' out rest
      end
  end.

Definition storeChatAndMessage_spec (s : S) (out : list Go.error)
    (chat : models.Chat) : S * list Go.error :=
  match StoreChat impl s chat with
  | (s', Some err) => (s', out ++ [Go.Errorf "error storing chat: " err])
  | (s', None) => storeMessages_spec s' out (models.Messages chat)
  end.

End Service.

End services.

(* ================================================================== *)
(** ** package whatsapp: decoding a history-sync payload *)
(* ================================================================== *)

Module whatsapp.

(** The protobuf messages of the protocol client, with the fields the
    decoder reads.  An unset field or a nil message is [None]; the [Get*]
    functions are the generated nil-safe getters. *)
Record MessageKey : Type := {
  key_id : option string;
  key_participant : option string;
  key_from_me : option bool
}.

Record ExtendedTextMessage : Type := { ext_text : option string }.

Record Message : Type := {
  msg_conversation : option string;
  msg_extended_text : option ExtendedTextMessage
}.

Record WebMessageInfo : Type := {
  info_key : option MessageKey;
  info_message : option Message;
  info_timestamp : option N
}.

Record HistorySyncMsg : Type := { hsm_message : option WebMessageInfo }.

Record Conversation : Type := {
  conv_id : option string;
  conv_name : option string;
  conv_messages : list HistorySyncMsg
}.

Record HistorySync : Type := { Conversations : list Conversation }.

Definition str_or_empty (o : option string) : string :=
  match o with Some s => s | None => "" end.

Definition GetId (c : Conversation) : string := str_or_empty (conv_id c).
Definition GetName (c : Conversation) : string := str_or_empty (conv_name c).

(** [w.GetMessage().GetExtendedTextMessage().GetText()]. *)
Definition GetText (w : WebMessageInfo) : string :=
  match info_message w with
  | Some m =>
      match msg_extended_text m with
      | Some e => str_or_empty (ext_text e)
      | None => ""
      end
  | None => ""
  end.

Definition GetMessageTimestamp (w : WebMessageInfo) : N :=
  match info_timestamp w with Some t => t | None => 0%N end.

Definition GetKeyId (w : WebMessageInfo) : string :=
  match info_key w with Some k => str_or_empty (key_id k) | None => "" end.

Definition GetKeyParticipant (w : WebMessageInfo) : string :=
  match info_key w with
  | Some k => str_or_empty (key_participant k)
  | None => ""
  end.

Definition GetKeyFromMe (w : WebMessageInfo) : bool :=
  match info_key w with
  | Some k => match key_from_me k with Some b => b | None => false end
  | None => false
  end.

(** [time.Unix(int64(msg.GetMessage().GetMessageTimestamp()), 0)]. *)
Definition timestamp_of (w : WebMessageInfo) : Go.Time :=
  Go.Unix (Go.int64_of_uint64 (GetMessageTimestamp w)).

(** The [models.Message] literal built for one entry. *)
Definition message_of (chatJID : string) (w : WebMessageInfo) : models.Message :=
  {| models.ID := GetKeyId w;
     models.ChatJID := chatJID;
     models.Sender := GetKeyParticipant w;
     models.Content := GetText w;
     models.Timestamp := timestamp_of w;
     models.IsFromMe := GetKeyFromMe w;
     models.ChatName := "" |}.

(** One iteration of the inner loop on the pair
    [(chat.Messages, lastMessageTime)]. *)
Definition step (chatJID : string)
    (acc : list models.Message * Go.Time) (msg : HistorySyncMsg)
  : list models.Message * Go.Time :=
  match hsm_message msg with
  | None => acc
  | Some w =>
      if String.eqb (GetText w) "" then acc
      else
        let timestamp := timestamp_of w in
        let lastMessageTime :=
          if Go.After timestamp (snd acc) then timestamp else snd acc in
        (fst acc ++ [message_of chatJID w], lastMessageTime)
  end.

Definition chat_of_conversation (conv : Conversation) : models.Chat :=
  let chatJID := GetId conv in
  let r := fold_left (step chatJID) (conv_messages conv) ([], Go.zeroTime) in
  {| models.JID := chatJID;
     models.Name := GetName conv;
     models.LastMessageTime := snd r;
     models.LastMessage := "";
     models.LastSender := "";
     models.LastIsFromMe := false;
     models.Messages := fst r |}.

(** The outer loop: a conversation without id is skipped, the first other
    one is returned. *)
Fixpoint handleConversations (convs : list Conversation)
  : models.Chat * option Go.error :=
  match convs with
  | [] => (models.zeroChat, None)
  | conv :: rest =>
      if String.eqb (GetId conv) "" then handleConversations rest
      else (chat_of_conversation conv, None)
  end.

Definition handleHistorySync (historySync : HistorySync)
  : models.Chat * option Go.error :=
  handleConversations (Conversations historySync).

(** An entry is recovered when its message is present and carries a
    non-empty extended text. *)
Definition recoverable (msg : HistorySyncMsg) : bool :=
  match hsm_message msg with
  | None => false
  | Some w => negb (String.eqb (GetText w) "")
  end.

(** The recovered entries of a conversation, in payload order. *)
Fixpoint recovered (msgs : list HistorySyncMsg) : list WebMessageInfo :=
  match msgs with
  | [] => []
  | msg :: rest =>
      match hsm_message msg with
      | Some w =>
          if String.eqb (GetText w) "" then recovered rest
          else w :: recovered rest
      | None => recovered rest
      end
  end.

(** The recovered entries of a whole payload. *)
Definition recovered_of_payload (historySync : HistorySync) : list WebMessageInfo :=
  flat_map (fun conv => recovered (conv_messages conv))
           (Conversations historySync).

(** [events.Message]: the message info, with the chat and sender JIDs
    already rendered by [String()], and the protobuf message, which the
    handler dereferences without a test. *)
Record MessageInfo : Type := {
  mi_id : string;
  mi_chat : string;
  mi_sender : string;
  mi_timestamp : Go.Time;
  mi_is_from_me : bool
}.

Record LiveMessage : Type := {
  ev_info : MessageInfo;
  ev_message : Message
}.

(** [handleMessage]: only the plain conversation text is read. *)
Definition handleMessage (msg : LiveMessage) : Errors.t + models.Message :=
  match msg_conversation (ev_message msg) with
  | None => inl (Errors.New "message content is empty")
  | Some content =>
      inr {| models.ID := mi_id (ev_info msg);
             models.ChatJID := mi_chat (ev_info msg);
             models.Sender := mi_sender (ev_info msg);
             models.Content := content;
             models.Timestamp := mi_timestamp (ev_info msg);
             models.IsFromMe := mi_is_from_me (ev_info msg);
             models.ChatName := "" |}
  end.

(** The events the handler of [NewWhatsapp] switches on. *)
Inductive event : Type :=
| EvMessage (v : LiveMessage)
| EvHistorySync (v : HistorySync)
| EvConnected
| EvLoggedOut
| EvOther.

(** The chat literal sent for a live message. *)
Definition liveChat (msg : models.Message) : models.Chat :=
  {| models.JID := models.ChatJID msg;
     models.Name := models.Sender msg;
     models.LastMessageTime := models.Timestamp msg;
     models.LastMessage := "";
     models.LastSender := "";
     models.LastIsFromMe := false;
     models.Messages := [msg] |}.

(** The event handler, as what it sends on [ChatChan]. *)
Definition eventHandler (evt : event) : list models.Chat :=
  match evt with
  | EvMessage v =>
      match handleMessage v with
      | inl _ => []
      | inr msg => [liveChat msg]
      end
  | EvHistorySync v =>
      match handleHistorySync v with
      | (_, Some _) => []
      | (chat, None) => [chat]
      end
  | EvConnected | EvLoggedOut | EvOther => []
  end.

(** [types.JID], with the two fields [NewJID] sets. *)
Record JID : Type := { User : string; Server : string }.

Definition DefaultUserServer : string := "s.whatsapp.net".

Definition NewJID (user server : string) : JID :=
  {| User := user; Server := server |}.

(** What a call does: a run-time panic, or a returned value. *)
Inductive outcome (A : Type) : Type :=
| Panic
| Returns (a : A).
Arguments Panic {A}.
Arguments Returns {A}.

(** The recipient once its leading [+] is removed. *)
Definition withoutPlus (recipient : string) : string :=
  match recipient with
  | String c rest => if Ascii.eqb c "+"%char then rest else recipient
  | EmptyString => recipient
  end.

Section Send.
(** [types.ParseJID] and the [SendMessage] call of the protocol client. *)
Variable ParseJID : string -> JID * option Go.error.
Variable clientSend : JID -> string -> option Go.error.

(** The recipient of [SendMessage]: [recipient[0]] and
    [recipient[len(recipient)-5:]] panic out of range. *)
Definition recipientJID (recipient : string) : outcome (JID * option Go.error) :=
  match Str.chars recipient with
  | [] => Panic
  | c :: rest =>
      let recipient := if Ascii.eqb c "+"%char then rest else c :: rest in
      if (List.length recipient <? 5)%nat then Panic
      else if String.eqb
                (string_of_list_ascii
                   (skipn (List.length recipient - 5) recipient))
                "@s.whatsapp.net"
      then Returns (ParseJID (string_of_list_ascii recipient))
      else Returns (NewJID (string_of_list_ascii recipient) DefaultUserServer,
                    None)
  end.

Definition SendMessage (recipient message : string) : outcome (option Go.error) :=
  match recipientJID recipient with
  | Panic => Panic
  | Returns (_, Some err) => Returns (Some (Go.Errorf "invalid recipient: " err))
  | Returns (jid, None) =>
      match clientSend jid message with
      | Some err => Returns (Some (Go.Errorf "failed to send message: " err))
      | None => Returns None
      end
  end.
End Send.

End whatsapp.

(* ================================================================== *)
(** ** package mcp: the query layer *)
(* ================================================================== *)

Module mcp.
Import Schema.

Record Message : Type := {
  Timestamp : Go.Time;
  Sender : string;
  Content : string;
  IsFromMe : bool;
  ChatJID : string;
  ID : string;
  ChatName : string
}.

Record Chat : Type := {
  JID : string;
  Name : string;
  LastMessageTime : Go.Time;
  LastMessage : string;
  LastSender : string;
  LastIsFromMe : bool
}.

(** [Contact]; its [Name] and [JID] fields carry the struct name here, the
    plain names being those of [Chat]. *)
Record Contact : Type := {
  PhoneNumber : string;
  ContactName : string;
  ContactJID : string
}.

(** [MessageContext]; its [Message] field is [Target] here. *)
Record MessageContext : Type := {
  Target : Message;
  Before : list Message;
  After : list Message
}.

(** What [GetDB] hands to one call: [sql.Open] does not touch the file, so
    the handle is either a connection on which the statements of the call
    run against the store, or one on which they all fail. *)
Inductive handle : Type :=
| Unavailable (e : Go.error)
| Conn (st : Store).

(** [messages JOIN chats ON messages.chat_jid = chats.jid]. *)
Definition joined (st : Store) : list (message_row * chat_row) :=
  flat_map
    (fun m =>
       map (pair m)
           (filter (fun c => String.eqb (m_chat_jid m) (c_jid c)) (chats st)))
    (messages st).

(** Scanning one joined row: the chat name is nullable. *)
Definition scanMessage (r : message_row * chat_row) : Message :=
  let (m, c) := r in
  {| Timestamp := m_timestamp m;
     Sender := m_sender m;
     Content := m_content m;
     IsFromMe := m_is_from_me m;
     ChatJID := c_jid c;
     ID := m_id m;
     ChatName := match c_name c with Some n => n | None => "Unknown Chat" end |}.

Definition row_time (r : message_row * chat_row) : Go.Time := m_timestamp (fst r).

Definition normLimit (limit : Z) : Z := if limit <=? 0 then 20 else limit.
Definition normPage (page : Z) : Z := if page <? 0 then 0 else page.

(** [WHERE messages.id = ?]: SQLite searches the index of the primary key
    [(id, chat_jid)], so the rows with the id come by [chat_jid]. *)
Definition byChat (a b : message_row * chat_row) : bool :=
  String.leb (m_chat_jid (fst a)) (m_chat_jid (fst b)).

Definition withID (st : Store) (messageID : string) : list (message_row * chat_row) :=
  Sql.order_by byChat
    (filter (fun r => String.eqb (m_id (fst r)) messageID) (joined st)).

Section Queries.
Variable drv : Driver.codec.

(** The text of the [timestamp] cell of a joined row. *)
Definition row_text (r : message_row * chat_row) : string :=
  Driver.stored drv (row_time r).

(** [ORDER BY messages.timestamp DESC] and [ASC]: the order of the stored
    texts. *)
Definition time_desc (a b : message_row * chat_row) : bool :=
  String.leb (row_text b) (row_text a).
Definition time_asc (a b : message_row * chat_row) : bool :=
  String.leb (row_text a) (row_text b).

(** *** GetMessageContext *)

(** [messages.chat_jid = ? AND messages.timestamp < ?] and [> ?]: the
    second parameter is [timestampStr], the text scanned from the target
    row, and the cell is compared with it as text. *)
Definition earlier (chatJID timestampStr : string) (r : message_row * chat_row) : bool :=
  String.eqb (m_chat_jid (fst r)) chatJID && String.ltb (row_text r) timestampStr.

Definition later (chatJID timestampStr : string) (r : message_row * chat_row) : bool :=
  String.eqb (m_chat_jid (fst r)) chatJID && String.ltb timestampStr (row_text r).

Definition GetMessageContext (h : handle) (messageID : string) (before after : Z)
  : Go.error + MessageContext :=
  let notFound e :=
    Go.Errorf ("message with ID " ++ messageID ++ " not found: ") e in
  match h with
  | Unavailable e => inl (notFound e)
  | Conn st =>
      match withID st messageID with
      | [] => inl (notFound Go.ErrNoRows)
      | target :: _ =>
          let chatJID := m_chat_jid (fst target) in
          let timestampStr := Driver.scanned drv (row_time target) in
          let beforeMessages :=
            map scanMessage
                (Sql.limit before
                   (Sql.order_by time_desc
                      (filter (earlier chatJID timestampStr) (joined st)))) in
          let afterMessages :=
            map scanMessage
                (Sql.limit after
                   (Sql.order_by time_asc
                      (filter (later chatJID timestampStr) (joined st)))) in
          inr {| Target := scanMessage target;
                 Before := beforeMessages;
                 After := afterMessages |}
      end
  end.

(** *** ListMessages *)

(** The WHERE clause assembled from the optional criteria; the bounds of
    the range are passed as [Format(time.RFC3339)] texts. *)
Definition messageWhere (dateRange : list Go.Time)
    (senderPhoneNumber chatJID query : string)
    (r : message_row * chat_row) : bool :=
  let m := fst r in
  (match dateRange with
   | [lo; hi] =>
       Sql.between (row_text r) (Driver.formatted drv lo) (Driver.formatted drv hi)
   | _ => true
   end)
  && (if String.eqb senderPhoneNumber "" then true
      else String.eqb (m_sender m) senderPhoneNumber)
  && (if String.eqb chatJID "" then true
      else String.eqb (m_chat_jid m) chatJID)
  && (if String.eqb query "" then true
      else Str.LIKE (Str.LOWER (m_content m))
                    (Str.LOWER (Str.contains_pattern query))).

(** Every row matching the criteria, [ORDER BY messages.timestamp DESC]. *)
Definition matchingMessages (st : Store) (dateRange : list Go.Time)
    (senderPhoneNumber chatJID query : string) : list (message_row * chat_row) :=
  Sql.order_by time_desc
    (filter (messageWhere dateRange senderPhoneNumber chatJID query) (joined st)).

(** The context loop: the call for the [i]-th match opens handle
    [hs (k + i)]; a failed lookup is skipped. *)
Fixpoint withContext (hs : nat -> handle) (k : nat) (messages : list Message)
    (contextBefore contextAfter : Z) : list Message :=
  match messages with
  | [] => []
  | msg :: rest =>
      match GetMessageContext (hs k) (ID msg) contextBefore contextAfter with
      | inl _ => withContext hs (S k) rest contextBefore contextAfter
      | inr context =>
          Before context ++ [Target context] ++ After context
          ++ withContext hs (S k) rest contextBefore contextAfter
      end
  end.

(** [hs n] is the handle returned by the [n]-th [GetDB] of the call. *)
Definition ListMessages (hs : nat -> handle) (dateRange : list Go.Time)
    (senderPhoneNumber chatJID query : string) (limit page : Z)
    (includeContext : bool) (contextBefore contextAfter : Z)
  : Go.error + list Message :=
  let limit := normLimit limit in
  let page := normPage page in
  match hs 0%nat with
  | Unavailable e => inl (Go.Errorf "error executing query: " e)
  | Conn st =>
      let offset := Go.mul page limit in
      let messages :=
        map scanMessage
            (Sql.limit_offset limit offset
               (matchingMessages st dateRange senderPhoneNumber chatJID query)) in
      if includeContext && negb (Nat.eqb (List.length messages) 0) then
        inr (withContext hs 1 messages contextBefore contextAfter)
      else inr messages
  end.

(** *** ListChats *)

(** [chats LEFT JOIN messages ON chats.jid = messages.chat_jid AND
    chats.last_message_time = messages.timestamp]: one row per matching
    message, one row with NULL message columns when there is none. *)
Definition isLastMessage (c : chat_row) (m : message_row) : bool :=
  String.eqb (c_jid c) (m_chat_jid m)
  && Sql.null_eq_time (c_last_message_time c) (m_timestamp m).

Definition lastMessageJoin (st : Store) : list (chat_row * option message_row) :=
  flat_map
    (fun c =>
       match filter (isLastMessage c) (messages st) with
       | [] => [(c, None)]
       | ms => map (fun m => (c, Some m)) ms
       end)
    (chats st).

(** [(LOWER(chats.name) LIKE LOWER(?) OR chats.jid LIKE ?)], both
    parameters being ["%" + query + "%"]. *)
Definition chatWhere (query : string) (r : chat_row * option message_row) : bool :=
  let c := fst r in
  if String.eqb query "" then true
  else
    (match c_name c with
     | Some n => Str.LIKE (Str.LOWER n) (Str.LOWER (Str.contains_pattern query))
     | None => false
     end)
    || Str.LIKE (c_jid c) (Str.contains_pattern query).

(** The text of the [last_message_time] cell, NULL or not. *)
Definition chat_text (c : chat_row) : option string :=
  option_map (Driver.stored drv) (c_last_message_time c).

(** [ORDER BY chats.name] or [ORDER BY chats.last_message_time DESC], the
    latter in the order of the stored texts. *)
Definition chatOrder (sortBy : string) (a b : chat_row * option message_row) : bool :=
  if String.eqb sortBy "name" then
    Sql.null_leb String.leb (c_name (fst a)) (c_name (fst b))
  else
    Sql.null_leb String.leb (chat_text (fst b)) (chat_text (fst a)).

(** Scanning one row into a [Chat]: a NULL column leaves the zero value. *)
Definition scanChat (r : chat_row * option message_row) : Chat :=
  let (c, last) := r in
  {| JID := c_jid c;
     Name := match c_name c with Some n => n | None => "" end;
     LastMessageTime :=
       match c_last_message_time c with Some t => t | None => Go.zeroTime end;
     LastMessage := match last with Some m => m_content m | None => "" end;
     LastSender := match last with Some m => m_sender m | None => "" end;
     LastIsFromMe :=
       match last with Some m => m_is_from_me m | None => false end |}.

Definition errNoMessagesColumn : Go.error :=
  Go.ErrDriver "no such column: messages.content".

(** Every chat row matching the query, enriched and ordered. *)
Definition matchingChats (st : Store) (query sortBy : string)
  : list (chat_row * option message_row) :=
  Sql.order_by (chatOrder sortBy) (filter (chatWhere query) (lastMessageJoin st)).

(** The select list names [messages] columns whether or not the join is
    added, so the statement only compiles with [includeLastMessage]. *)
Definition ListChats (h : handle) (query : string) (limit page : Z)
    (includeLastMessage : bool) (sortBy : string) : Go.error + list Chat :=
  let limit := normLimit limit in
  let page := normPage page in
  match h with
  | Unavailable e => inl (Go.Errorf "error executing query: " e)
  | Conn st =>
      if includeLastMessage then
        let offset := Go.mul page limit in
        inr (map scanChat
               (Sql.limit_offset limit offset (matchingChats st query sortBy)))
      else inl (Go.Errorf "error executing query: " errNoMessagesColumn)
  end.

(** *** SearchContacts *)








Definition scanContact (r : string * option string) : Contact :=
  {| PhoneNumber := Str.split_at_0 (fst r);
     ContactName := match snd r with Some n => n | None => "" end;
     ContactJID := fst r |}.


(** *** GetContactChats *)

(** [(chats.jid = ? OR m.sender = ? OR m.sender LIKE ?)]. *)
Definition contactChatWhere (jid phoneNumber : string)
    (c : chat_row) (m : message_row) : bool :=
  String.eqb (c_jid c) jid
  || String.eqb (m_sender m) phoneNumber
  || Str.LIKE (m_sender m) (Str.contains_pattern phoneNumber).

(** The last-message join, joined again with every message [m] of the
    chat and filtered. *)
Definition contactChatJoin (st : Store) (jid phoneNumber : string)
  : list (chat_row * option message_row) :=
  flat_map
    (fun r =>
       map (fun _ => r)
           (filter
              (fun m =>
                 String.eqb (c_jid (fst r)) (m_chat_jid m)
                 && contactChatWhere jid phoneNumber (fst r) m)
              (messages st)))
    (lastMessageJoin st).

(** [GROUP BY chats.jid]: one row per jid; the columns outside the key
    are read from one row of the group, here the first. *)
Fixpoint groupByJid (rows : list (chat_row * option message_row))
  : list (chat_row * option message_row) :=
  match rows with
  | [] => []
  | r :: rest =>
      r :: filter
             (fun r' => negb (String.eqb (c_jid (fst r')) (c_jid (fst r))))
             (groupByJid rest)
  end.

Definition matchingContactChats (st : Store) (jid : string)
  : list (chat_row * option message_row) :=
  let phoneNumber := if Str.contains_at jid then Str.split_at_0 jid else jid in
  Sql.order_by (chatOrder "last_active")
    (groupByJid (contactChatJoin st jid phoneNumber)).

Definition GetContactChats (h : handle) (jid : string) (limit page : Z)
  : Go.error + list Chat :=
  let limit := normLimit limit in
  let page := normPage page in
  match h with
  | Unavailable e => inl (Go.Errorf "error executing query: " e)
  | Conn st =>
      let offset := Go.mul page limit in
      inr (map scanChat
             (Sql.limit_offset limit offset (matchingContactChats st jid)))
  end.

(** *** IsGroup, GetChat, GetDirectChatByContact *)

Definition IsGroup (c : Chat) : bool := Str.HasSuffix (JID c) "@g.us".

(** [GetChat]: the first row for the jid, with or without the
    last-message join; no row is an error here. *)
Definition GetChat (h : handle) (chatJID : string) (includeLastMessage : bool)
  : Errors.t + Chat :=
  match h with
  | Unavailable e => inl (Errors.Of (Go.Errorf "error reading data: " e))
  | Conn st =>
      let rows :=
        if includeLastMessage then lastMessageJoin st
        else map (fun c => (c, None)) (chats st) in
      match filter (fun r => String.eqb (c_jid (fst r)) chatJID) rows with
      | [] => inl (Errors.New ("chat with JID " ++ chatJID ++ " not found"))
      | r :: _ => inr (scanChat (fst r, if includeLastMessage then snd r else None))
      end
  end.

Definition GetDirectChatByContact (h : handle) (phoneNumber : string)
  : Errors.t + Chat :=
  let jid :=
    if Str.contains_at phoneNumber then phoneNumber
    else (phoneNumber ++ "@s.whatsapp.net")%string in
  GetChat h jid true.

(** *** GetLastInteraction *)

(** The local part of a jid, as [GetContactChats] and
    [GetLastInteraction] compute it. *)
Definition phoneOf (jid : string) : string :=
  if Str.contains_at jid then Str.split_at_0 jid else jid.

(** [(messages.chat_jid = ? OR messages.sender = ? OR messages.sender
    LIKE ?)]. *)
Definition interactionWhere (jid : string) (r : message_row * chat_row) : bool :=
  String.eqb (m_chat_jid (fst r)) jid
  || String.eqb (m_sender (fst r)) (phoneOf jid)
  || Str.LIKE (m_sender (fst r)) (Str.contains_pattern (phoneOf jid)).

Definition GetLastInteraction (h : handle) (jid : string) : Errors.t + Message :=
  match h with
  | Unavailable e => inl (Errors.Of (Go.Errorf "error reading data: " e))
  | Conn st =>
      match Sql.limit 1
              (Sql.order_by time_desc (filter (interactionWhere jid) (joined st)))
      with
      | [] =>
          inl (Errors.New ("no message found for contact with JID " ++ jid))
      | r :: _ => inr (scanMessage r)
      end
  end.

(** The text of the cell a scanned message or chat came from, and the
    order of these texts, in which the queries sort. *)
Definition stamp (m : Message) : string := Driver.stored drv (Timestamp m).

Definition stamp_le (a b : Message) : Prop :=
  String.leb (stamp a) (stamp b) = true.

End Queries.

End mcp.

(* ================================================================== *)
(** ** Concrete stores, events and payloads *)
(* ================================================================== *)

Module Ex.
Import Schema.

(** An open connection on empty tables, as [NewDB] leaves it. *)
Definition newDB : db.t := {| db.store := Schema.empty; db.closed := false |}.

Definition message (id chatJID content : string) (t : Go.Time) : models.Message :=
  {| models.ID := id; models.ChatJID := chatJID; models.Sender := "33611@s.whatsapp.net";
     models.Content := content; models.Timestamp := t;
     models.IsFromMe := false; models.ChatName := "" |}.

Definition chat (jid : string) (t : Go.Time) (msgs : list models.Message) : models.Chat :=
  {| models.JID := jid; models.Name := "Ada"; models.LastMessageTime := t;
     models.LastMessage := ""; models.LastSender := "";
     models.LastIsFromMe := false; models.Messages := msgs |}.

(** An event whose first message names a chat that has no row. *)
Definition strayMessage : models.Message := message "A1" "999@s.whatsapp.net" "hi" 10.
Definition goodMessage : models.Message := message "A2" "123@s.whatsapp.net" "hello" 20.
Definition emptyMessage : models.Message := message "A3" "123@s.whatsapp.net" "" 30.

Definition mixedEvent : models.Chat :=
  chat "123@s.whatsapp.net" 20 [strayMessage; goodMessage].

Definition nextEvent : models.Chat :=
  chat "123@s.whatsapp.net" 20 [goodMessage].

(** History-sync entries: with an extended text, with a plain
    conversation text only, and without message. *)
Definition textEntry (id text : string) (t : N) : whatsapp.HistorySyncMsg :=
  {| whatsapp.hsm_message :=
       Some {| whatsapp.info_key :=
                 Some {| whatsapp.key_id := Some id;
                         whatsapp.key_participant := None;
                         whatsapp.key_from_me := Some false |};
               whatsapp.info_message :=
                 Some {| whatsapp.msg_conversation := None;
                         whatsapp.msg_extended_text :=
                           Some {| whatsapp.ext_text := Some text |} |};
               whatsapp.info_timestamp := Some t |} |}.

Definition plainEntry (id text : string) (t : N) : whatsapp.HistorySyncMsg :=
  {| whatsapp.hsm_message :=
       Some {| whatsapp.info_key :=
                 Some {| whatsapp.key_id := Some id;
                         whatsapp.key_participant := None;
                         whatsapp.key_from_me := Some false |};
               whatsapp.info_message :=
                 Some {| whatsapp.msg_conversation := Some text;
                         whatsapp.msg_extended_text := None |};
               whatsapp.info_timestamp := Some t |} |}.

Definition nilEntry : whatsapp.HistorySyncMsg := {| whatsapp.hsm_message := None |}.

Definition anonymous : whatsapp.Conversation :=
  {| whatsapp.conv_id := None; whatsapp.conv_name := None;
     whatsapp.conv_messages := [textEntry "H0" "zero" 5] |}.

Definition first : whatsapp.Conversation :=
  {| whatsapp.conv_id := Some "123@s.whatsapp.net";
     whatsapp.conv_name := Some "Ada";
     whatsapp.conv_messages :=
       [textEntry "H1" "one" 1; nilEntry; plainEntry "H2" "two" 2;
        textEntry "H3" "three" 3] |}.

Definition second : whatsapp.Conversation :=
  {| whatsapp.conv_id := Some "456@s.whatsapp.net";
     whatsapp.conv_name := Some "Bob";
     whatsapp.conv_messages := [textEntry "H4" "four" 4] |}.

Definition payload : whatsapp.HistorySync :=
  {| whatsapp.Conversations := [anonymous; first; second] |}.

Definition twoConversations : whatsapp.HistorySync :=
  {| whatsapp.Conversations := [first; second] |}.

(** The chat of the specification's example: messages at 10, 20, 30, 40
    and 50, stored out of order. *)
Definition row (id : string) (t : Go.Time) : message_row :=
  {| m_id := id; m_chat_jid := "123@s.whatsapp.net";
     m_sender := "33611@s.whatsapp.net"; m_content := "text";
     m_timestamp := t; m_is_from_me := false |}.

Definition fiveMessages : Store :=
  {| chats := [ {| c_jid := "123@s.whatsapp.net"; c_name := Some "Ada";
                   c_last_message_time := Some 50 |} ];
     messages := [row "M10" 10; row "M30" 30; row "M20" 20;
                  row "M50" 50; row "M40" 40] |}.

(** The same chat with its messages on five different days, stored out
    of order. *)
Definition day (n : Z) : Go.Time := 86400 * n.

Definition fiveDays : Store :=
  {| chats := [ {| c_jid := "123@s.whatsapp.net"; c_name := Some "Ada";
                   c_last_message_time := Some (day 50) |} ];
     messages := [row "M10" (day 10); row "M30" (day 30); row "M20" (day 20);
                  row "M50" (day 50); row "M40" (day 40)] |}.

(** A chat whose watermark is later than every stored message of it, next
    to a chat whose watermark is the time of its last message. *)
Definition watermarks : Store :=
  {| chats := [ {| c_jid := "123@s.whatsapp.net"; c_name := Some "Ada";
                   c_last_message_time := Some 60 |};
                {| c_jid := "456@s.whatsapp.net"; c_name := Some "Bob";
                   c_last_message_time := Some 7 |} ];
     messages := [row "M10" 10; row "M50" 50;
                  {| m_id := "N7"; m_chat_jid := "456@s.whatsapp.net";
                     m_sender := "456@s.whatsapp.net"; m_content := "seven";
                     m_timestamp := 7; m_is_from_me := true |}] |}.

(** Two contacts and a group. *)
Definition addressBook : Store :=
  {| chats := [ {| c_jid := "456@s.whatsapp.net"; c_name := Some "Bob";
                   c_last_message_time := Some 7 |};
                {| c_jid := "123@s.whatsapp.net"; c_name := Some "Ada";
                   c_last_message_time := Some 60 |};
                {| c_jid := "789@g.us"; c_name := Some "Ada and Bob";
                   c_last_message_time := None |} ];
     messages := [] |}.

(** A zone that falls back from two hours east of UTC to one hour on
    October 29, 2023 at 01:00 UTC, and a chat with two messages of that
    night, written at 00:30 and at 01:10 UTC. *)
Definition fallBack (t : Go.Time) : Z :=
  if t <? Go.Unix 1698541200 then 7200 else 3600.

Definition thatNight : Store :=
  {| chats := [ {| c_jid := "123@s.whatsapp.net"; c_name := Some "Ada";
                   c_last_message_time := Some (Go.Unix 1698541800) |} ];
     messages := [row "N0030" (Go.Unix 1698539400);
                  row "N0110" (Go.Unix 1698541800)] |}.

Definition busy : Go.error := Go.ErrDriver "database is locked".

(** The handles of a call during which the second connection fails. *)
Definition secondFails (n : nat) : mcp.handle :=
  if Nat.eqb n 1 then mcp.Unavailable busy else mcp.Conn fiveMessages.

(** A live text message and a live message without plain text. *)
Definition liveInfo : whatsapp.MessageInfo :=
  {| whatsapp.mi_id := "L1"; whatsapp.mi_chat := "123@s.whatsapp.net";
     whatsapp.mi_sender := "33611@s.whatsapp.net";
     whatsapp.mi_timestamp := 4; whatsapp.mi_is_from_me := false |}.

Definition liveText : whatsapp.LiveMessage :=
  {| whatsapp.ev_info := liveInfo;
     whatsapp.ev_message :=
       {| whatsapp.msg_conversation := Some "hi";
          whatsapp.msg_extended_text := None |} |}.

(** A protocol client whose parser and transport always succeed. *)
Definition parseAny (s : string) : whatsapp.JID * option Go.error :=
  (whatsapp.NewJID s "", None).

Definition sendOk (jid : whatsapp.JID) (message : string) : option Go.error :=
  None.

End Ex.

(* ================================================================== *)
(** ** Facts about the SQL fragment *)
(* ================================================================== *)

Module SqlFacts.

Lemma take_firstn {A : Type} (l : list A) :
  forall n, 0 <= n -> Sql.take n l = firstn (Z.to_nat n) l.
Proof.
  induction l as [|x l IH]; intros n Hn; simpl.
  - now rewrite firstn_nil.
  - destruct (Z.leb_spec n 0) as [Hle|Hgt].
    + replace n with 0 by lia. reflexivity.
    + replace (Z.to_nat n) with (S (Z.to_nat (n - 1))) by lia.
      simpl. f_equal. apply IH. lia.
Qed.

Lemma drop_skipn {A : Type} (l : list A) :
  forall n, 0 <= n -> Sql.drop n l = skipn (Z.to_nat n) l.
Proof.
  induction l as [|x l IH]; intros n Hn; simpl.
  - now rewrite skipn_nil.
  - destruct (Z.leb_spec n 0) as [Hle|Hgt].
    + replace n with 0 by lia. reflexivity.
    + replace (Z.to_nat n) with (S (Z.to_nat (n - 1))) by lia.
      simpl. apply IH. lia.
Qed.

Lemma take_drop {A : Type} (l : list A) :
  forall n, Sql.take n l ++ Sql.drop n l = l.
Proof.
  induction l as [|x l IH]; intros n; simpl; [reflexivity|].
  destruct (n <=? 0); simpl; [reflexivity|]. now rewrite IH.
Qed.

Lemma limit_neg {A : Type} (n : Z) (l : list A) : n < 0 -> Sql.limit n l = l.
Proof.
  intros H. unfold Sql.limit. destruct (Z.ltb_spec n 0); [reflexivity|lia].
Qed.

Lemma limit_firstn {A : Type} (n : Z) (l : list A) :
  0 <= n -> Sql.limit n l = firstn (Z.to_nat n) l.
Proof.
  intros H. unfold Sql.limit. destruct (Z.ltb_spec n 0); [lia|].
  now apply take_firstn.
Qed.

Lemma offset_skipn {A : Type} (n : Z) (l : list A) :
  0 <= n -> Sql.offset n l = skipn (Z.to_nat n) l.
Proof.
  intros H. unfold Sql.offset. destruct (Z.ltb_spec n 0); [lia|].
  now apply drop_skipn.
Qed.

Lemma limit_beyond {A : Type} (n : Z) (l : list A) :
  Sql.limit n l ++ Sql.beyond n l = l.
Proof.
  unfold Sql.limit, Sql.beyond. destruct (n <? 0).
  - apply app_nil_r.
  - apply take_drop.
Qed.

Lemma limit_length {A : Type} (n : Z) (l : list A) :
  0 <= n -> List.length (Sql.limit n l) = Nat.min (Z.to_nat n) (List.length l).
Proof.
  intros H. rewrite limit_firstn by assumption. apply length_firstn.
Qed.

Lemma limit_In {A : Type} (n : Z) (l : list A) (x : A) :
  In x (Sql.limit n l) -> In x l.
Proof.
  intros H. rewrite <- (limit_beyond n l). apply in_or_app. now left.
Qed.

Lemma offset_In {A : Type} (n : Z) (l : list A) (x : A) :
  In x (Sql.offset n l) -> In x l.
Proof.
  unfold Sql.offset. destruct (n <? 0); [trivial|].
  intros H. rewrite <- (take_drop l n). apply in_or_app. now right.
Qed.

Lemma limit_offset_In {A : Type} (n o : Z) (l : list A) (x : A) :
  In x (Sql.limit_offset n o l) -> In x l.
Proof.
  unfold Sql.limit_offset. intros H.
  now apply offset_In with o, limit_In with n.
Qed.

Section OrderBy.
Context {A : Type}.
Variable leb : A -> A -> bool.

Lemma insert_perm (x : A) (l : list A) :
  Permutation (x :: l) (Sql.insert leb x l).
Proof.
  induction l as [|y l IH]; simpl; [reflexivity|].
  destruct (leb x y); [reflexivity|].
  rewrite perm_swap. now constructor.
Qed.

Lemma order_by_perm (l : list A) : Permutation l (Sql.order_by leb l).
Proof.
  induction l as [|x l IH]; simpl; [reflexivity|].
  rewrite <- insert_perm. now constructor.
Qed.

Lemma order_by_In (l : list A) (x : A) :
  In x (Sql.order_by leb l) <-> In x l.
Proof.
  split; intros H.
  - eapply Permutation_in; [symmetry; apply order_by_perm | exact H].
  - eapply Permutation_in; [apply order_by_perm | exact H].
Qed.

Lemma order_by_length (l : list A) :
  List.length (Sql.order_by leb l) = List.length l.
Proof. symmetry. apply Permutation_length, order_by_perm. Qed.

Hypothesis leb_total : forall a b, leb a b = true \/ leb b a = true.
Hypothesis leb_trans :
  forall a b c, leb a b = true -> leb b c = true -> leb a c = true.

Lemma insert_sorted (x : A) (l : list A) :
  StronglySorted (Sql.le leb) l -> StronglySorted (Sql.le leb) (Sql.insert leb x l).
Proof.
  induction 1 as [|y l Hs IH Hy]; simpl.
  - repeat constructor.
  - destruct (leb x y) eqn:E.
    + constructor; [now constructor|].
      constructor; [exact E|].
      eapply Forall_impl; [|exact Hy]. intros z Hz. now apply leb_trans with y.
    + constructor; [exact IH|].
      assert (Hyx : Sql.le leb y x) by (destruct (leb_total x y); [congruence|assumption]).
      eapply Permutation_Forall; [apply insert_perm|].
      now constructor.
Qed.

Lemma order_by_sorted (l : list A) : StronglySorted (Sql.le leb) (Sql.order_by leb l).
Proof.
  induction l as [|x l IH]; simpl; [constructor|]. now apply insert_sorted.
Qed.
End OrderBy.

Lemma sorted_app_l {A : Type} (R : A -> A -> Prop) (l1 l2 : list A) :
  StronglySorted R (l1 ++ l2) -> StronglySorted R l1.
Proof.
  induction l1 as [|x l1 IH]; simpl; intros H; [constructor|].
  inversion H as [|? ? Hs Hx]; subst. constructor; [now apply IH|].
  apply Forall_app in Hx. tauto.
Qed.

Lemma sorted_app_cross {A : Type} (R : A -> A -> Prop) (l1 l2 : list A) :
  StronglySorted R (l1 ++ l2) ->
  forall a b, In a l1 -> In b l2 -> R a b.
Proof.
  induction l1 as [|x l1 IH]; simpl; intros H a b Ha Hb; [contradiction|].
  inversion H as [|? ? Hs Hx]; subst.
  destruct Ha as [->|Ha].
  - rewrite Forall_forall in Hx. apply Hx, in_or_app. now right.
  - now apply IH.
Qed.

Lemma sorted_limit {A : Type} (R : A -> A -> Prop) (n : Z) (l : list A) :
  StronglySorted R l -> StronglySorted R (Sql.limit n l).
Proof.
  intros H. rewrite <- (limit_beyond n l) in H. now apply sorted_app_l in H.
Qed.

Lemma sorted_map {A B : Type} (f : A -> B) (R : A -> A -> Prop)
    (Q : B -> B -> Prop) (l : list A) :
  (forall a b, R a b -> Q (f a) (f b)) ->
  StronglySorted R l -> StronglySorted Q (map f l).
Proof.
  intros HRQ. induction 1 as [|x l Hs IH Hx]; simpl; constructor; [exact IH|].
  apply Forall_map. eapply Forall_impl; [|exact Hx]. intros; now apply HRQ.
Qed.

Lemma null_leb_total {A : Type} (leb : A -> A -> bool) :
  (forall a b, leb a b = true \/ leb b a = true) ->
  forall x y, Sql.null_leb leb x y = true \/ Sql.null_leb leb y x = true.
Proof. intros H [a|] [b|]; simpl; auto. Qed.

Lemma null_leb_trans {A : Type} (leb : A -> A -> bool) :
  (forall a b c, leb a b = true -> leb b c = true -> leb a c = true) ->
  forall x y z, Sql.null_leb leb x y = true -> Sql.null_leb leb y z = true ->
                Sql.null_leb leb x z = true.
Proof.
  intros H [a|] [b|] [c|]; simpl; auto; try discriminate. apply H.
Qed.

End SqlFacts.

(* ================================================================== *)
(** ** The store of the bridge *)
(* ================================================================== *)

Module StoreFacts.
Import Schema.

Lemma has_chat_replace_chat (r : chat_row) (st : Store) (jid : string) :
  has_chat (replace_chat r st) jid
  = has_chat st jid || String.eqb (c_jid r) jid.
Proof.
  unfold has_chat, replace_chat; simpl.
  rewrite existsb_app; simpl. rewrite orb_false_r.
  destruct (String.eqb_spec (c_jid r) jid) as [->|Hne].
  - now rewrite !orb_true_r.
  - rewrite !orb_false_r.
    induction (chats st) as [|c l IH]; simpl; [reflexivity|].
    destruct (String.eqb_spec (c_jid c) (c_jid r)) as [E|E]; simpl.
    + rewrite IH. rewrite E.
      destruct (String.eqb_spec (c_jid r) jid); [contradiction|reflexivity].
    + now rewrite IH.
Qed.

Lemma has_chat_replace_message (r : message_row) (st : Store) (jid : string) :
  has_chat (replace_message r st) jid = has_chat st jid.
Proof. reflexivity. Qed.

Lemma integrity_replace_chat (r : chat_row) (st : Store) :
  referential_integrity st -> referential_integrity (replace_chat r st).
Proof.
  intros H m Hm. rewrite has_chat_replace_chat.
  apply orb_true_iff. left. now apply H.
Qed.

Lemma integrity_replace_message (r : message_row) (st : Store) :
  has_chat st (m_chat_jid r) = true ->
  referential_integrity st -> referential_integrity (replace_message r st).
Proof.
  intros Hr H m Hm. rewrite has_chat_replace_message.
  unfold replace_message in Hm; simpl in Hm.
  apply in_app_or in Hm. destruct Hm as [Hm|[<-|[]]].
  - apply filter_In in Hm. now apply H.
  - exact Hr.
Qed.

Lemma has_message_replace_message (r : message_row) (st : Store) (id jid : string) :
  has_message st id jid \/ (m_id r = id /\ m_chat_jid r = jid) ->
  has_message (replace_message r st) id jid.
Proof.
  intros H.
  destruct (same_message_key r {| m_id := id; m_chat_jid := jid; m_sender := "";
                                   m_content := ""; m_timestamp := 0;
                                   m_is_from_me := false |}) eqn:E.
  - unfold same_message_key in E; simpl in E. apply andb_true_iff in E.
    destruct E as [E1 E2]. apply String.eqb_eq in E1, E2.
    exists r. split; [|tauto]. simpl. apply in_or_app. right. now left.
  - destruct H as [(m & Hm & Hid & Hjid)|[H1 H2]].
    + exists m. split; [|tauto]. simpl. apply in_or_app. left.
      apply filter_In. split; [exact Hm|].
      unfold same_message_key in *; simpl in *. rewrite Hid, Hjid.
      rewrite (String.eqb_sym id), (String.eqb_sym jid). now rewrite E.
    + unfold same_message_key in E; simpl in E.
      rewrite H1, H2, !String.eqb_refl in E. discriminate.
Qed.

Lemma StoreChat_integrity (d : db.t) (chat : models.Chat) :
  referential_integrity (db.store d) ->
  referential_integrity (db.store (fst (db.StoreChat d chat))).
Proof.
  intros H. unfold db.StoreChat. destruct (db.closed d); simpl; [exact H|].
  now apply integrity_replace_chat.
Qed.

Lemma StoreMessage_integrity (d : db.t) (msg : models.Message) :
  referential_integrity (db.store d) ->
  referential_integrity (db.store (fst (db.StoreMessage d msg))).
Proof.
  intros H. unfold db.StoreMessage.
  destruct (String.eqb (models.Content msg) ""); [exact H|].
  destruct (db.closed d); [exact H|].
  destruct (has_chat (db.store d) (models.ChatJID msg)) eqn:E; [|exact H].
  simpl. now apply integrity_replace_message.
Qed.

Lemma storeMessages_integrity (msgs : list models.Message) :
  forall d, referential_integrity (db.store d) ->
  referential_integrity
    (db.store (fst (services.storeMessages services.sqlite d msgs))).
Proof.
  induction msgs as [|msg rest IH]; intros d H; simpl; [exact H|].
  pose proof (StoreMessage_integrity d msg H) as H'.
  destruct (db.StoreMessage d msg) as [d' [err|]]; simpl in *; [exact H'|].
  now apply IH.
Qed.

Lemma storeChatAndMessage_integrity (d : db.t) (chat : models.Chat) :
  referential_integrity (db.store d) ->
  referential_integrity
    (db.store (fst (services.storeChatAndMessage services.sqlite d chat))).
Proof.
  intros H. unfold services.storeChatAndMessage. simpl.
  pose proof (StoreChat_integrity d chat H) as H'.
  destruct (db.StoreChat d chat) as [d' [err|]]; simpl in *; [exact H'|].
  now apply storeMessages_integrity.
Qed.

Lemma consume_integrity (events : list models.Chat) :
  forall d out, referential_integrity (db.store d) ->
  referential_integrity
    (db.store (fst (services.consume services.sqlite d out events))).
Proof.
  induction events as [|chat rest IH]; intros d out H; simpl; [exact H|].
  pose proof (storeChatAndMessage_integrity d chat H) as H'.
  destruct (services.storeChatAndMessage services.sqlite d chat)
    as [d' [err|]]; simpl in *; now apply IH.
Qed.

(** Once the chat row is there, the messages of that chat all go in. *)
Lemma storeMessages_own_chat (jid : string) (msgs : list models.Message) :
  forall d,
  db.closed d = false ->
  has_chat (db.store d) jid = true ->
  (forall m, In m msgs -> models.ChatJID m = jid) ->
  let r := services.storeMessages services.sqlite d msgs in
  snd r = None
  /\ db.closed (fst r) = false
  /\ has_chat (db.store (fst r)) jid = true
  /\ (forall id c, has_message (db.store d) id c ->
                   has_message (db.store (fst r)) id c)
  /\ (forall m, In m msgs -> models.Content m <> "" ->
                has_message (db.store (fst r)) (models.ID m) jid).
Proof.
  induction msgs as [|msg rest IH]; intros d Hopen Hchat Hown; simpl.
  - repeat split; auto. intros m [].
  - assert (Hmsg : models.ChatJID msg = jid) by (apply Hown; now left).
    unfold db.StoreMessage at 1 2 3 4 5.
    destruct (String.eqb_spec (models.Content msg) "") as [Hc|Hc].
    + destruct (IH d Hopen Hchat) as (E1 & E2 & E3 & E4 & E5).
      { intros m Hm. apply Hown. now right. }
      repeat split; auto.
      intros m [<-|Hm] Hne; [contradiction|]. now apply E5.
    + rewrite Hopen, Hmsg, Hchat.
      set (d' := db.with_store d _).
      destruct (IH d') as (E1 & E2 & E3 & E4 & E5); auto.
      { intros m Hm. apply Hown. now right. }
      repeat split; auto.
      * intros id c H. apply E4. apply has_message_replace_message. now left.
      * intros m [<-|Hm] Hne; [|now apply E5].
        apply E4. apply has_message_replace_message. right.
        simpl. split; [reflexivity|exact Hmsg].
Qed.

End StoreFacts.

(* ================================================================== *)
(** ** Properties of the store and of the ingestion step *)
(* ================================================================== *)

(** C3. [StoreMessage] on a message with empty content reports success
    and leaves the store, hence its message rows, as it was. *)
Theorem StoreMessage_empty_content_noop (d : db.t) (msg : models.Message) :
  models.Content msg = "" ->
  db.StoreMessage d msg = (d, None).
Proof.
  intros H. unfold db.StoreMessage. now rewrite H.
Qed.

Lemma StoreMessage_empty_content_noop_witness :
  db.StoreMessage Ex.newDB Ex.emptyMessage = (Ex.newDB, None).
Proof.
  apply (StoreMessage_empty_content_noop Ex.newDB Ex.emptyMessage).
  reflexivity.
Defined.

(** C7. For a jid with no row in [chats], [GetChat] on a working
    connection returns no chat and no error, while a failing query
    returns an error: the two outcomes differ. *)
Theorem GetChat_absent_is_not_an_error (d : db.t) (jid : string) :
  Schema.has_chat (db.store d) jid = false ->
  (db.closed d = false -> db.GetChat d jid = (None, None))
  /\ (db.closed d = true ->
      exists e, db.GetChat d jid = (None, Some e))
  /\ (forall d', db.closed d' = true -> db.GetChat d' jid <> (None, None)).
Proof.
  intros Habs. repeat split.
  - intros Hopen. unfold db.GetChat. rewrite Hopen.
    replace (filter _ _) with (@nil Schema.chat_row); [reflexivity|].
    symmetry. unfold Schema.has_chat in Habs.
    induction (Schema.chats (db.store d)) as [|c l IH]; simpl in *; [reflexivity|].
    apply orb_false_iff in Habs. destruct Habs as [E1 E2].
    rewrite E1. now apply IH.
  - intros Hclosed. exists db.errClosed. unfold db.GetChat. now rewrite Hclosed.
  - intros d' Hclosed. unfold db.GetChat. rewrite Hclosed. discriminate.
Qed.

Lemma GetChat_absent_is_not_an_error_witness :
  db.GetChat Ex.newDB "unknown@x" = (None, None).
Proof.
  apply (GetChat_absent_is_not_an_error Ex.newDB "unknown@x"); reflexivity.
Defined.

(** C4. Referential integrity is an invariant of the ingestion loop:
    whatever events are consumed, every stored message still names a
    stored chat.  Since the chat row of an event is written first, the
    messages of that chat are accepted right away, even on empty tables. *)
Theorem ingestion_keeps_referential_integrity
    (d : db.t) (out : list Go.error) (events : list models.Chat) :
  Schema.referential_integrity (db.store d) ->
  Schema.referential_integrity
    (db.store (fst (services.consume services.sqlite d out events)))
  /\ (forall chat,
        db.closed d = false ->
        (forall m, In m (models.Messages chat) ->
                   models.ChatJID m = models.JID chat) ->
        let r := services.storeChatAndMessage services.sqlite d chat in
        snd r = None
        /\ Schema.has_chat (db.store (fst r)) (models.JID chat) = true
        /\ (forall m, In m (models.Messages chat) ->
                      models.Content m <> "" ->
                      Schema.has_message (db.store (fst r))
                        (models.ID m) (models.JID chat))).
Proof.
  intros H. split; [now apply StoreFacts.consume_integrity|].
  intros chat Hopen Hown. unfold services.storeChatAndMessage. simpl.
  unfold db.StoreChat. rewrite Hopen.
  set (d' := db.with_store d _).
  destruct (StoreFacts.storeMessages_own_chat (models.JID chat)
              (models.Messages chat) d') as (E1 & E2 & E3 & E4 & E5); auto.
  subst d'. simpl. rewrite StoreFacts.has_chat_replace_chat. simpl.
  rewrite String.eqb_refl. apply orb_true_r.
Qed.

Lemma ingestion_keeps_referential_integrity_witness :
  Schema.referential_integrity
    (db.store (fst (services.consume services.sqlite Ex.newDB []
                      [Ex.mixedEvent; Ex.nextEvent]))).
Proof.
  apply (ingestion_keeps_referential_integrity Ex.newDB []
           [Ex.mixedEvent; Ex.nextEvent]).
  intros m Hm. simpl in Hm. contradiction.
Defined.

(** C1, as the code has it.  When the store rejects a message of an
    event, the step returns at once with that error: the messages before
    it stay written, the messages after it are not attempted, the consumer
    prints the error and goes on with the next event. *)
Theorem storeChatAndMessage_stops_at_first_failure
    {S : Type} (impl : services.DB S) (s s0 s1 s2 : S) (chat : models.Chat)
    (pre post : list models.Message) (msg : models.Message) (err : Go.error) :
  services.StoreChat impl s chat = (s0, None) ->
  models.Messages chat = pre ++ msg :: post ->
  services.storeMessages impl s0 pre = (s1, None) ->
  services.StoreMessage impl s1 msg = (s2, Some err) ->
  services.storeChatAndMessage impl s chat
  = (s2, Some (Go.Errorf "error storing message: " err))
  /\ forall out rest,
      services.consume impl s out (chat :: rest)
      = services.consume impl s2
          (out ++ [Go.Errorf "error storing message: " err]) rest.
Proof.
  intros Hchat Hmsgs Hpre Hfail.
  assert (Hloop : forall l s', services.storeMessages impl s' l = (s1, None) ->
            services.storeMessages impl s' (l ++ msg :: post)
            = (s2, Some (Go.Errorf "error storing message: " err))).
  { induction l as [|m l IH]; intros s' Hl; simpl in *.
    - inversion Hl; subst. now rewrite Hfail.
    - destruct (services.StoreMessage impl s' m) as [s'' [e|]];
        [discriminate|now apply IH]. }
  assert (Hstep : services.storeChatAndMessage impl s chat
                  = (s2, Some (Go.Errorf "error storing message: " err))).
  { unfold services.storeChatAndMessage. rewrite Hchat, Hmsgs. now apply Hloop. }
  split; [exact Hstep|].
  intros out rest. simpl. now rewrite Hstep.
Qed.

Lemma storeChatAndMessage_stops_at_first_failure_witness :
  services.storeChatAndMessage services.sqlite Ex.newDB Ex.mixedEvent
  = (fst (db.StoreChat Ex.newDB Ex.mixedEvent),
     Some (Go.Errorf "error storing message: " db.errForeignKey)).
Proof.
  apply (storeChatAndMessage_stops_at_first_failure services.sqlite
           Ex.newDB (fst (db.StoreChat Ex.newDB Ex.mixedEvent))
           (fst (db.StoreChat Ex.newDB Ex.mixedEvent))
           (fst (db.StoreChat Ex.newDB Ex.mixedEvent))
           Ex.mixedEvent [] [Ex.goodMessage] Ex.strayMessage
           db.errForeignKey); reflexivity.
Defined.

(** C1, as stated, fails: after the rejected first message the second
    message of the same event is never written, although the store takes
    it when the step is the one the specification describes. *)
Lemma storeChatAndMessage_skips_rest_of_event :
  Schema.messages
    (db.store (fst (services.consume services.sqlite Ex.newDB [] [Ex.mixedEvent])))
  = []
  /\ Schema.messages
       (db.store (fst (services.storeChatAndMessage_spec services.sqlite
                         Ex.newDB [] Ex.mixedEvent)))
     = [db.message_row_of Ex.goodMessage].
Proof. split; reflexivity. Qed.

(* ================================================================== *)
(** ** Properties of the history-sync decoder *)
(* ================================================================== *)

Module WhatsappFacts.
Import whatsapp.

Lemma fold_step (chatJID : string) (msgs : list HistorySyncMsg) :
  forall (acc : list models.Message) (last : Go.Time),
  fold_left (step chatJID) msgs (acc, last)
  = (acc ++ map (message_of chatJID) (recovered msgs),
     fold_left Z.max (map timestamp_of (recovered msgs)) last).
Proof.
  induction msgs as [|msg rest IH]; intros acc last; simpl.
  - now rewrite app_nil_r.
  - unfold step at 2. destruct (hsm_message msg) as [w|]; [|apply IH].
    destruct (String.eqb (GetText w) ""); [apply IH|].
    simpl. rewrite IH. rewrite <- app_assoc. simpl. f_equal.
    f_equal. unfold Go.After. destruct (Z.ltb_spec last (timestamp_of w)); lia.
Qed.

Lemma fold_max_ge_init (l : list Z) : forall a, a <= fold_left Z.max l a.
Proof.
  induction l as [|x l IH]; intros a; simpl; [lia|].
  specialize (IH (Z.max a x)). lia.
Qed.

Lemma fold_max_upper (l : list Z) :
  forall a x, In x l -> x <= fold_left Z.max l a.
Proof.
  induction l as [|y l IH]; intros a x; simpl; [contradiction|].
  intros [->|Hx]; [|now apply IH].
  pose proof (fold_max_ge_init l (Z.max a x)). lia.
Qed.

Lemma fold_max_attained (l : list Z) :
  forall a, fold_left Z.max l a = a \/ In (fold_left Z.max l a) l.
Proof.
  induction l as [|y l IH]; intros a; simpl; [now left|].
  destruct (IH (Z.max a y)) as [E|E]; [|now right; right].
  rewrite E. destruct (Z.max_spec a y) as [[_ ->]|[_ ->]]; [right|]; now left.
Qed.

Lemma recovered_spec (msgs : list HistorySyncMsg) (w : WebMessageInfo) :
  In w (recovered msgs)
  <-> exists msg, In msg msgs /\ hsm_message msg = Some w /\ GetText w <> "".
Proof.
  induction msgs as [|msg rest IH]; simpl.
  - split; [contradiction|]. intros (m & [] & _).
  - destruct (hsm_message msg) as [w'|] eqn:E.
    + destruct (String.eqb_spec (GetText w') "") as [Ht|Ht]; simpl; rewrite IH.
      * split.
        -- intros (m & Hm & H). exists m. tauto.
        -- intros (m & [<-|Hm] & H1 & H2).
           ++ rewrite E in H1. inversion H1; subst. contradiction.
           ++ exists m. tauto.
      * split.
        -- intros [<-|(m & Hm & H)]; [exists msg; tauto|exists m; tauto].
        -- intros (m & [<-|Hm] & H1 & H2).
           ++ rewrite E in H1. inversion H1. now left.
           ++ right. exists m. tauto.
    + rewrite IH. split.
      * intros (m & Hm & H). exists m. tauto.
      * intros (m & [<-|Hm] & H1 & H2); [congruence|exists m; tauto].
Qed.

Lemma skip_anonymous (skipped rest : list Conversation) (conv : Conversation) :
  Forall (fun c => GetId c = "") skipped ->
  GetId conv <> "" ->
  handleConversations (skipped ++ conv :: rest) = (chat_of_conversation conv, None).
Proof.
  intros Hs Hc. induction Hs as [|c l Hc0 Hl IH]; simpl.
  - destruct (String.eqb_spec (GetId conv) ""); [contradiction|reflexivity].
  - rewrite Hc0. simpl. exact IH.
Qed.

End WhatsappFacts.

(** C5, as the code has it.  The event is reconstructed from one
    conversation of the payload, the first with an id.  Its messages are
    that conversation's entries whose message is present and whose
    extended text is not empty, in order, every other entry being skipped;
    its last message time bounds every timestamp of these messages and is
    one of them, or the zero time when none is after the zero time. *)
Theorem handleHistorySync_reconstructs_conversation
    (historySync : whatsapp.HistorySync)
    (skipped rest : list whatsapp.Conversation) (conv : whatsapp.Conversation) :
  whatsapp.Conversations historySync = skipped ++ conv :: rest ->
  Forall (fun c => whatsapp.GetId c = "") skipped ->
  whatsapp.GetId conv <> "" ->
  exists chat,
    whatsapp.handleHistorySync historySync = (chat, None)
    /\ models.JID chat = whatsapp.GetId conv
    /\ models.Name chat = whatsapp.GetName conv
    /\ models.Messages chat
       = map (whatsapp.message_of (whatsapp.GetId conv))
             (whatsapp.recovered (whatsapp.conv_messages conv))
    /\ (forall w, In w (whatsapp.recovered (whatsapp.conv_messages conv))
         <-> exists msg, In msg (whatsapp.conv_messages conv)
                         /\ whatsapp.hsm_message msg = Some w
                         /\ whatsapp.GetText w <> "")
    /\ (forall m, In m (models.Messages chat) ->
                  models.Timestamp m <= models.LastMessageTime chat)
    /\ (models.LastMessageTime chat = Go.zeroTime
        \/ exists m, In m (models.Messages chat)
                     /\ models.Timestamp m = models.LastMessageTime chat)
    /\ ((exists m, In m (models.Messages chat)
                   /\ Go.zeroTime < models.Timestamp m) ->
        exists m, In m (models.Messages chat)
                  /\ models.Timestamp m = models.LastMessageTime chat).
Proof.
  intros Hconvs Hskipped Hid.
  exists (whatsapp.chat_of_conversation conv).
  unfold whatsapp.handleHistorySync. rewrite Hconvs.
  rewrite WhatsappFacts.skip_anonymous by assumption.
  unfold whatsapp.chat_of_conversation.
  rewrite WhatsappFacts.fold_step. simpl.
  set (ws := whatsapp.recovered (whatsapp.conv_messages conv)).
  assert (Hts : forall m, In m (map (whatsapp.message_of (whatsapp.GetId conv)) ws) ->
                In (models.Timestamp m) (map whatsapp.timestamp_of ws)).
  { intros m Hm. apply in_map_iff in Hm. destruct Hm as (w & <- & Hw).
    simpl. now apply in_map. }
  assert (Hatt : Go.zeroTime <> fold_left Z.max (map whatsapp.timestamp_of ws) Go.zeroTime ->
                 exists m, In m (map (whatsapp.message_of (whatsapp.GetId conv)) ws)
                   /\ models.Timestamp m
                      = fold_left Z.max (map whatsapp.timestamp_of ws) Go.zeroTime).
  { intros Hne.
    destruct (WhatsappFacts.fold_max_attained (map whatsapp.timestamp_of ws) Go.zeroTime)
      as [E|E]; [congruence|].
    apply in_map_iff in E. destruct E as (w & Ew & Hw).
    exists (whatsapp.message_of (whatsapp.GetId conv) w). split; [now apply in_map|].
    exact Ew. }
  repeat split.
  - apply WhatsappFacts.recovered_spec.
  - apply WhatsappFacts.recovered_spec.
  - intros m Hm. apply WhatsappFacts.fold_max_upper. now apply Hts.
  - destruct (Z.eq_dec Go.zeroTime
                (fold_left Z.max (map whatsapp.timestamp_of ws) Go.zeroTime))
      as [E|E]; [left; now symmetry|right; now apply Hatt].
  - intros (m & Hm & Hpos). apply Hatt.
    pose proof (WhatsappFacts.fold_max_upper _ Go.zeroTime _ (Hts m Hm)). lia.
Qed.

Lemma handleHistorySync_reconstructs_conversation_witness :
  exists chat,
    whatsapp.handleHistorySync Ex.payload = (chat, None)
    /\ models.JID chat = "123@s.whatsapp.net"
    /\ map models.ID (models.Messages chat) = ["H1"; "H3"]
    /\ models.LastMessageTime chat = Go.Unix 3.
Proof.
  destruct (handleHistorySync_reconstructs_conversation Ex.payload
              [Ex.anonymous] [Ex.second] Ex.first)
    as (chat & E & Hjid & _ & Hmsgs & _).
  - reflexivity.
  - repeat constructor.
  - discriminate.
  - exists chat. inversion E; subst chat. repeat split.
Defined.

(** C5, as stated, fails: the second conversation of the payload has a
    recovered entry that the event does not carry. *)
Lemma handleHistorySync_drops_later_conversations :
  map models.ID
      (models.Messages (fst (whatsapp.handleHistorySync Ex.twoConversations)))
  = ["H1"; "H3"]
  /\ map whatsapp.GetKeyId (whatsapp.recovered_of_payload Ex.twoConversations)
     = ["H1"; "H3"; "H4"].
Proof. split; reflexivity. Qed.

(* ================================================================== *)
(** ** Facts about LIKE and the string order *)
(* ================================================================== *)

Module StrFacts.
Import Str.

Lemma chars_append (a b : string) : chars (a ++ b)%string = chars a ++ chars b.
Proof.
  unfold chars. induction a as [|c a IH]; simpl; [reflexivity|]. now rewrite IH.
Qed.

Lemma chars_LOWER (s : string) : chars (LOWER s) = lower_chars (chars s).
Proof. unfold LOWER, chars. apply list_ascii_of_string_of_list_ascii. Qed.

Lemma chars_contains_pattern (q : string) :
  chars (contains_pattern q) = percent :: chars q ++ [percent].
Proof. unfold contains_pattern. now rewrite !chars_append. Qed.

Lemma lower_idem (c : ascii) : lower_ascii (lower_ascii c) = lower_ascii c.
Proof. destruct c as [[] [] [] [] [] [] [] []]; reflexivity. Qed.

Lemma lower_chars_idem (l : list ascii) : lower_chars (lower_chars l) = lower_chars l.
Proof.
  unfold lower_chars. rewrite map_map. apply map_ext. intros; apply lower_idem.
Qed.

Lemma lower_keeps_literal (c : ascii) :
  c <> percent /\ c <> underscore ->
  lower_ascii c <> percent /\ lower_ascii c <> underscore.
Proof.
  destruct c as [[] [] [] [] [] [] [] []]; vm_compute; intros [H1 H2];
    split; try discriminate; assumption.
Qed.

Lemma like_percent (p s : list ascii) :
  like_chars (percent :: p) s
  = like_chars p s
    || match s with [] => false | _ :: s' => like_chars (percent :: p) s' end.
Proof. destruct s; reflexivity. Qed.

Lemma like_literal_head (c : ascii) (p s : list ascii) :
  c <> percent /\ c <> underscore ->
  like_chars (c :: p) s
  = match s with
    | [] => false
    | d :: s' => Ascii.eqb (lower_ascii c) (lower_ascii d) && like_chars p s'
    end.
Proof.
  intros [H1 H2]. simpl.
  destruct (Ascii.eqb_spec c percent) as [E|_]; [contradiction|].
  destruct (Ascii.eqb_spec c underscore) as [E|_]; [contradiction|].
  reflexivity.
Qed.

(** A leading [%] lets the rest of the pattern start anywhere. *)
Lemma like_percent_elim (p : list ascii) (s : list ascii) :
  like_chars (percent :: p) s = true ->
  exists pre rest, s = pre ++ rest /\ like_chars p rest = true.
Proof.
  induction s as [|d s IH]; rewrite like_percent; intros H.
  - rewrite orb_false_r in H. now exists [], [].
  - apply orb_true_iff in H. destruct H as [H|H].
    + now exists [], (d :: s).
    + destruct (IH H) as (pre & rest & -> & Hrest). now exists (d :: pre), rest.
Qed.


(** A run of literal characters matches a run of the same length that is
    equal to it up to case. *)
Lemma like_literal_elim (lit p : list ascii) :
  Forall (fun c => c <> percent /\ c <> underscore) lit ->
  forall s, like_chars (lit ++ p) s = true ->
  exists mid rest,
    s = mid ++ rest /\ lower_chars mid = lower_chars lit
    /\ like_chars p rest = true.
Proof.
  induction 1 as [|c lit Hc Hlit IH]; intros s H; simpl app in H.
  - now exists [], s.
  - rewrite like_literal_head in H by assumption.
    destruct s as [|d s]; [discriminate|].
    apply andb_true_iff in H. destruct H as [Hcd H].
    apply Ascii.eqb_eq in Hcd.
    destruct (IH s H) as (mid & rest & -> & Hmid & Hrest).
    exists (d :: mid), rest. simpl. rewrite Hmid, Hcd. tauto.
Qed.

Lemma like_contains (lit s : list ascii) :
  Forall (fun c => c <> percent /\ c <> underscore) lit ->
  like_chars (percent :: lit ++ [percent]) s = true ->
  contains_ci_chars s lit.
Proof.
  intros Hlit H.
  apply like_percent_elim in H. destruct H as (pre & rest & -> & H).
  apply like_literal_elim in H; [|exact Hlit].
  destruct H as (mid & post & -> & Hmid & _).
  now exists pre, mid, post.
Qed.

(** What the callers of [LOWER(x) LIKE LOWER('%' || q || '%')] get when
    the query has no wildcard. *)
Lemma LIKE_contains (x q : string) :
  no_wildcard q ->
  LIKE (LOWER x) (LOWER (contains_pattern q)) = true ->
  contains_ci x q.
Proof.
  unfold LIKE, no_wildcard, contains_ci. intros Hq H.
  rewrite !chars_LOWER, chars_contains_pattern in H.
  change (lower_chars (percent :: chars q ++ [percent]))
    with (percent :: lower_chars (chars q ++ [percent])) in H.
  unfold lower_chars in H at 1. rewrite map_app in H. simpl map in H.
  change (lower_ascii percent) with percent in H.
  apply like_contains in H.
  - destruct H as (pre & mid & post & E & Hmid).
    apply map_eq_app in E. destruct E as (pre' & tl & -> & <- & E).
    apply map_eq_app in E. destruct E as (mid' & post' & -> & <- & <-).
    exists pre', mid', post'. split; [reflexivity|].
    fold (lower_chars mid') in Hmid. fold (lower_chars (chars q)) in Hmid.
    now rewrite !lower_chars_idem in Hmid.
  - apply Forall_map. eapply Forall_impl; [|exact Hq].
    intros c Hc. now apply lower_keeps_literal.
Qed.



(** *** The byte order on strings *)

Lemma ascii_compare_refl (a : ascii) : Ascii.compare a a = Eq.
Proof. unfold Ascii.compare. apply N.compare_refl. Qed.

Lemma ascii_compare_lt_trans (a b c : ascii) :
  Ascii.compare a b = Lt -> Ascii.compare b c = Lt -> Ascii.compare a c = Lt.
Proof.
  unfold Ascii.compare. rewrite !N.compare_lt_iff. apply N.lt_trans.
Qed.

Lemma compare_refl (s : string) : String.compare s s = Eq.
Proof.
  induction s as [|c s IH]; simpl; [reflexivity|].
  now rewrite ascii_compare_refl.
Qed.

Lemma compare_eq (s1 s2 : string) : String.compare s1 s2 = Eq -> s1 = s2.
Proof. apply String.compare_eq_iff. Qed.

Lemma compare_lt_trans (s1 : string) :
  forall s2 s3,
  String.compare s1 s2 = Lt -> String.compare s2 s3 = Lt ->
  String.compare s1 s3 = Lt.
Proof.
  induction s1 as [|a s1 IH]; intros [|b s2] [|c s3]; simpl;
    try discriminate; try reflexivity.
  destruct (Ascii.compare a b) eqn:Eab; try discriminate;
    destruct (Ascii.compare b c) eqn:Ebc; try discriminate; intros H1 H2.
  - apply Ascii.compare_eq_iff in Eab, Ebc. subst.
    rewrite ascii_compare_refl. now apply IH with s2.
  - apply Ascii.compare_eq_iff in Eab. subst. now rewrite Ebc.
  - apply Ascii.compare_eq_iff in Ebc. subst. now rewrite Eab.
  - now rewrite (ascii_compare_lt_trans a b c).
Qed.

Lemma leb_compare (s1 s2 : string) :
  String.leb s1 s2 = true <-> String.compare s1 s2 <> Gt.
Proof.
  unfold String.leb. destruct (String.compare s1 s2); split; congruence.
Qed.

Lemma leb_trans (s1 s2 s3 : string) :
  String.leb s1 s2 = true -> String.leb s2 s3 = true -> String.leb s1 s3 = true.
Proof.
  rewrite !leb_compare. intros H1 H2.
  destruct (String.compare s1 s2) eqn:E1; [| |congruence].
  - apply compare_eq in E1. now subst.
  - destruct (String.compare s2 s3) eqn:E2; [| |congruence].
    + apply compare_eq in E2. subst. now rewrite E1.
    + now rewrite (compare_lt_trans s1 s2 s3).
Qed.

End StrFacts.

(* ================================================================== *)
(** ** Properties of the query layer *)
(* ================================================================== *)

Module McpFacts.
Import Schema.

Lemma joined_In (st : Store) (r : message_row * chat_row) :
  In r (mcp.joined st)
  <-> In (fst r) (messages st) /\ In (snd r) (chats st)
      /\ m_chat_jid (fst r) = c_jid (snd r).
Proof.
  unfold mcp.joined. rewrite in_flat_map. split.
  - intros (m & Hm & Hr). apply in_map_iff in Hr.
    destruct Hr as (c & <- & Hc). apply filter_In in Hc. simpl.
    destruct Hc as [Hc E]. apply String.eqb_eq in E. tauto.
  - destruct r as [m c]; simpl. intros (Hm & Hc & E).
    exists m. split; [exact Hm|]. apply in_map, filter_In.
    split; [exact Hc|]. now apply String.eqb_eq.
Qed.

(** An order read off a text column is total and transitive, in both
    directions. *)
Section TextOrder.
Context {A : Type}.
Variable text : A -> string.

Lemma asc_total (a b : A) :
  String.leb (text a) (text b) = true \/ String.leb (text b) (text a) = true.
Proof. apply String.leb_total. Qed.

Lemma asc_trans (a b c : A) :
  String.leb (text a) (text b) = true -> String.leb (text b) (text c) = true ->
  String.leb (text a) (text c) = true.
Proof. apply StrFacts.leb_trans. Qed.

Lemma desc_total (a b : A) :
  String.leb (text b) (text a) = true \/ String.leb (text a) (text b) = true.
Proof. apply String.leb_total. Qed.

Lemma desc_trans (a b c : A) :
  String.leb (text b) (text a) = true -> String.leb (text c) (text b) = true ->
  String.leb (text c) (text a) = true.
Proof. intros H1 H2. now apply StrFacts.leb_trans with (text b). Qed.
End TextOrder.



Section Window.
Context {A : Type}.
Variable leb : A -> A -> bool.
Hypothesis leb_total : forall a b, leb a b = true \/ leb b a = true.
Hypothesis leb_trans :
  forall a b c, leb a b = true -> leb b c = true -> leb a c = true.
Variable keep : A -> bool.
Variable n : Z.
Variable rows : list A.

(** [SELECT ... WHERE keep ORDER BY leb LIMIT n]: the result is sorted,
    made of qualifying rows, as long as the limit allows, and what it
    leaves out comes after it in the order. *)
Lemma window_spec :
  let w := Sql.limit n (Sql.order_by leb (filter keep rows)) in
  StronglySorted (Sql.le leb) w
  /\ (forall r, In r w -> In r rows /\ keep r = true)
  /\ (exists rest,
        Permutation (filter keep rows) (w ++ rest)
        /\ forall a b, In a w -> In b rest -> leb a b = true)
  /\ (0 <= n ->
      List.length w = Nat.min (Z.to_nat n) (List.length (filter keep rows)))
  /\ (n < 0 -> List.length w = List.length (filter keep rows)).
Proof.
  intros w. subst w.
  pose proof (SqlFacts.order_by_sorted leb leb_total leb_trans (filter keep rows))
    as Hsorted.
  repeat split.
  - now apply SqlFacts.sorted_limit.
  - apply SqlFacts.limit_In, SqlFacts.order_by_In, filter_In in H. tauto.
  - apply SqlFacts.limit_In, SqlFacts.order_by_In, filter_In in H. tauto.
  - exists (Sql.beyond n (Sql.order_by leb (filter keep rows))).
    rewrite SqlFacts.limit_beyond. split; [apply SqlFacts.order_by_perm|].
    intros a b Ha Hb.
    rewrite <- (SqlFacts.limit_beyond n) in Hsorted.
    exact (SqlFacts.sorted_app_cross _ _ _ Hsorted a b Ha Hb).
  - intros Hn. rewrite SqlFacts.limit_length by assumption.
    now rewrite SqlFacts.order_by_length.
  - intros Hn. rewrite SqlFacts.limit_neg by assumption.
    apply SqlFacts.order_by_length.
Qed.
End Window.

End McpFacts.

Module ContextFacts.
Import Schema.

Lemma scan_time (r : message_row * chat_row) :
  mcp.Timestamp (mcp.scanMessage r) = mcp.row_time r.
Proof. now destruct r. Qed.

Lemma scan_stamp (drv : Driver.codec) (r : message_row * chat_row) :
  mcp.stamp drv (mcp.scanMessage r) = mcp.row_text drv r.
Proof. now destruct r. Qed.

Lemma scan_chat (st : Store) (r : message_row * chat_row) :
  In r (mcp.joined st) ->
  mcp.ChatJID (mcp.scanMessage r) = m_chat_jid (fst r).
Proof.
  intros H. apply McpFacts.joined_In in H. destruct r as [m c]; simpl in *.
  symmetry. tauto.
Qed.

Lemma scan_id (r : message_row * chat_row) :
  mcp.ID (mcp.scanMessage r) = m_id (fst r).
Proof. now destruct r. Qed.

(** One side of the context window, on scanned messages. *)
Lemma side_spec (st : Store) (leb : message_row * chat_row -> message_row * chat_row -> bool)
    (keep : message_row * chat_row -> bool) (n : Z)
    (R : mcp.Message -> mcp.Message -> Prop) :
  (forall a b, leb a b = true \/ leb b a = true) ->
  (forall a b c, leb a b = true -> leb b c = true -> leb a c = true) ->
  (forall a b, leb a b = true -> R (mcp.scanMessage a) (mcp.scanMessage b)) ->
  let side :=
    map mcp.scanMessage (Sql.limit n (Sql.order_by leb (filter keep (mcp.joined st)))) in
  let all := map mcp.scanMessage (filter keep (mcp.joined st)) in
  StronglySorted R side
  /\ (forall x, In x side ->
        exists r, x = mcp.scanMessage r /\ In r (mcp.joined st) /\ keep r = true)
  /\ (exists rest,
        Permutation all (side ++ rest)
        /\ forall x y, In x side -> In y rest -> R x y)
  /\ (0 <= n -> List.length side = Nat.min (Z.to_nat n) (List.length all))
  /\ (n < 0 -> List.length side = List.length all).
Proof.
  intros Htotal Htrans HR side all. subst side all.
  destruct (McpFacts.window_spec leb Htotal Htrans keep n (mcp.joined st))
    as (Hs & Hin & (rest & Hperm & Hcross) & Hlen & Hneg).
  repeat split.
  - eapply SqlFacts.sorted_map; [|exact Hs]. exact HR.
  - intros x Hx. apply in_map_iff in Hx. destruct Hx as (r & <- & Hr).
    exists r. split; [reflexivity|]. now apply Hin.
  - exists (map mcp.scanMessage rest). rewrite <- map_app. split.
    + now apply Permutation_map.
    + intros x y Hx Hy. apply in_map_iff in Hx, Hy.
      destruct Hx as (a & <- & Ha), Hy as (b & <- & Hb).
      apply HR. now apply Hcross.
  - intros Hn. rewrite !length_map. now apply Hlen.
  - intros Hn. rewrite !length_map. now apply Hneg.
Qed.


(** The rows with an id, and the one the lookup reads. *)
Lemma withID_In (st : Store) (id : string) (r : message_row * chat_row) :
  In r (mcp.withID st id) <-> In r (mcp.joined st) /\ m_id (fst r) = id.
Proof.
  unfold mcp.withID. rewrite SqlFacts.order_by_In, filter_In.
  now rewrite String.eqb_eq.
Qed.


Lemma withID_none (st : Store) (id : string) :
  (forall m, In m (messages st) -> m_id m <> id) -> mcp.withID st id = [].
Proof.
  intros Hno. destruct (mcp.withID st id) as [|r l] eqn:E; [reflexivity|].
  assert (Hin : In r (mcp.withID st id)) by (rewrite E; now left).
  apply withID_In in Hin. destruct Hin as [Hj Hid].
  apply McpFacts.joined_In in Hj. exfalso. apply (Hno (fst r)); tauto.
Qed.

Lemma withID_some (st : Store) (id : string) (r : message_row * chat_row) :
  In r (mcp.joined st) -> m_id (fst r) = id ->
  exists target others, mcp.withID st id = target :: others.
Proof.
  intros Hr Hid. destruct (mcp.withID st id) as [|t l] eqn:E; [|now exists t, l].
  assert (Hin : In r (mcp.withID st id)) by (apply withID_In; tauto).
  rewrite E in Hin. contradiction.
Qed.

End ContextFacts.

(** The context built around the row the lookup by id reads. *)
Lemma GetMessageContext_of_target
    (drv : Driver.codec) (st : Schema.Store) (messageID : string)
    (before after : Z)
    (target : Schema.message_row * Schema.chat_row)
    (others : list (Schema.message_row * Schema.chat_row)) :
  mcp.withID st messageID = target :: others ->
  let chatJID := Schema.m_chat_jid (fst target) in
  let timestampStr := Driver.scanned drv (mcp.row_time target) in
  let allEarlier :=
    map mcp.scanMessage
      (filter (mcp.earlier drv chatJID timestampStr) (mcp.joined st)) in
  let allLater :=
    map mcp.scanMessage
      (filter (mcp.later drv chatJID timestampStr) (mcp.joined st)) in
  exists ctx,
    mcp.GetMessageContext drv (mcp.Conn st) messageID before after = inr ctx
    /\ mcp.Target ctx = mcp.scanMessage target
    /\ mcp.ID (mcp.Target ctx) = messageID
    /\ StronglySorted (fun a b => mcp.stamp_le drv b a) (mcp.Before ctx)
    /\ StronglySorted (mcp.stamp_le drv) (mcp.After ctx)
    /\ (forall b, In b (mcp.Before ctx) ->
          mcp.ChatJID b = mcp.ChatJID (mcp.Target ctx)
          /\ String.ltb (mcp.stamp drv b)
               (Driver.scanned drv (mcp.Timestamp (mcp.Target ctx))) = true)
    /\ (forall a, In a (mcp.After ctx) ->
          mcp.ChatJID a = mcp.ChatJID (mcp.Target ctx)
          /\ String.ltb (Driver.scanned drv (mcp.Timestamp (mcp.Target ctx)))
               (mcp.stamp drv a) = true)
    /\ (exists lower,
          Permutation allEarlier (mcp.Before ctx ++ lower)
          /\ forall b o, In b (mcp.Before ctx) -> In o lower ->
                         mcp.stamp_le drv o b)
    /\ (exists higher,
          Permutation allLater (mcp.After ctx ++ higher)
          /\ forall a o, In a (mcp.After ctx) -> In o higher ->
                         mcp.stamp_le drv a o)
    /\ (0 <= before ->
        List.length (mcp.Before ctx)
        = Nat.min (Z.to_nat before) (List.length allEarlier))
    /\ (0 <= after ->
        List.length (mcp.After ctx)
        = Nat.min (Z.to_nat after) (List.length allLater))
    /\ (before < 0 -> List.length (mcp.Before ctx) = List.length allEarlier)
    /\ (after < 0 -> List.length (mcp.After ctx) = List.length allLater).
Proof.
  intros Hfound chatJID timestampStr allEarlier allLater.
  assert (Htarget : In target (mcp.joined st)
                    /\ Schema.m_id (fst target) = messageID).
  { apply ContextFacts.withID_In. rewrite Hfound. now left. }
  destruct Htarget as [Hjoined Hid].
  destruct (ContextFacts.side_spec st (mcp.time_desc drv)
              (mcp.earlier drv chatJID timestampStr) before
              (fun a b => mcp.stamp_le drv b a))
    as (Bs & Bin & Bperm & Blen & Bneg).
  { intros a b. apply (McpFacts.desc_total (mcp.row_text drv)). }
  { intros a b c. apply (McpFacts.desc_trans (mcp.row_text drv)). }
  { intros a b H. unfold mcp.stamp_le. now rewrite !ContextFacts.scan_stamp. }
  destruct (ContextFacts.side_spec st (mcp.time_asc drv)
              (mcp.later drv chatJID timestampStr) after (mcp.stamp_le drv))
    as (As & Ain & Aperm & Alen & Aneg).
  { intros a b. apply (McpFacts.asc_total (mcp.row_text drv)). }
  { intros a b c. apply (McpFacts.asc_trans (mcp.row_text drv)). }
  { intros a b H. unfold mcp.stamp_le. now rewrite !ContextFacts.scan_stamp. }
  eexists. unfold mcp.GetMessageContext. rewrite Hfound.
  split; [reflexivity|]. cbn [mcp.Target mcp.Before mcp.After].
  split; [reflexivity|].
  split; [rewrite ContextFacts.scan_id; exact Hid|].
  split; [exact Bs|]. split; [exact As|].
  split.
  { intros b Hb. destruct (Bin b Hb) as (r & -> & Hr & Hkeep).
    unfold mcp.earlier in Hkeep. apply andb_true_iff in Hkeep.
    destruct Hkeep as [Hc Ht]. apply String.eqb_eq in Hc.
    rewrite ContextFacts.scan_stamp, ContextFacts.scan_time,
      (ContextFacts.scan_chat st r Hr),
      (ContextFacts.scan_chat st target Hjoined).
    split; [exact Hc|exact Ht]. }
  split.
  { intros a Ha. destruct (Ain a Ha) as (r & -> & Hr & Hkeep).
    unfold mcp.later in Hkeep. apply andb_true_iff in Hkeep.
    destruct Hkeep as [Hc Ht]. apply String.eqb_eq in Hc.
    rewrite ContextFacts.scan_stamp, ContextFacts.scan_time,
      (ContextFacts.scan_chat st r Hr),
      (ContextFacts.scan_chat st target Hjoined).
    split; [exact Hc|exact Ht]. }
  split; [exact Bperm|]. split; [exact Aperm|].
  split; [exact Blen|]. split; [exact Alen|].
  split; [exact Bneg|exact Aneg].
Qed.





Module ChatFacts.
Import Schema.

Lemma lastMessageJoin_In (st : Store) (c : chat_row) (last : option message_row) :
  In (c, last) (mcp.lastMessageJoin st) ->
  In c (chats st)
  /\ match last with
     | Some m => In m (messages st) /\ mcp.isLastMessage c m = true
     | None => forall m, In m (messages st) -> mcp.isLastMessage c m = false
     end.
Proof.
  unfold mcp.lastMessageJoin. rewrite in_flat_map.
  intros (c' & Hc' & H).
  destruct (filter (mcp.isLastMessage c') (messages st)) as [|m0 ms] eqn:E.
  - destruct H as [H|[]]. inversion H; subst. split; [exact Hc'|].
    intros m Hm. destruct (mcp.isLastMessage c m) eqn:Em; [|reflexivity].
    assert (Hin : In m (filter (mcp.isLastMessage c) (messages st)))
      by (apply filter_In; tauto).
    rewrite E in Hin. contradiction.
  - apply in_map_iff in H. destruct H as (m & H & Hm). inversion H; subst.
    split; [exact Hc'|]. rewrite <- E in Hm. apply filter_In in Hm. exact Hm.
Qed.

Lemma isLastMessage_spec (c : chat_row) (m : message_row) :
  mcp.isLastMessage c m = true
  <-> m_chat_jid m = c_jid c /\ c_last_message_time c = Some (m_timestamp m).
Proof.
  unfold mcp.isLastMessage, Sql.null_eq_time.
  rewrite andb_true_iff, String.eqb_eq.
  destruct (c_last_message_time c) as [t|].
  - rewrite Z.eqb_eq. split; intros [H1 H2]; split; congruence.
  - split; intros [H1 H2]; discriminate.
Qed.

Lemma lastMessageJoin_unmatched (st : Store) (c : chat_row) :
  In c (chats st) ->
  (forall m, In m (messages st) -> m_chat_jid m = c_jid c ->
             c_last_message_time c <> Some (m_timestamp m)) ->
  In (c, None) (mcp.lastMessageJoin st).
Proof.
  intros Hc Hno. unfold mcp.lastMessageJoin. apply in_flat_map.
  exists c. split; [exact Hc|].
  replace (filter (mcp.isLastMessage c) (messages st)) with (@nil message_row);
    [now left|].
  symmetry.
  assert (Hall : Forall (fun m => mcp.isLastMessage c m = false) (messages st)).
  { apply Forall_forall. intros m Hm.
    destruct (mcp.isLastMessage c m) eqn:E; [|reflexivity].
    apply isLastMessage_spec in E. exfalso. apply (Hno m Hm); tauto. }
  clear Hno Hc. induction Hall as [|m l Hm Hl IH]; simpl; [reflexivity|].
  now rewrite Hm.
Qed.

End ChatFacts.

(** C6. With [includeLastMessage], every returned chat comes from a chat
    row and is enriched by a message of that chat whose timestamp equals
    the row's [last_message_time]; when no message of the chat has exactly
    that timestamp the last-message fields are left absent, whatever the
    latest message of the chat is, and the chat stays among the rows the
    page is cut from. *)
Theorem ListChats_last_message_is_equality_join (drv : Driver.codec)
    (st : Schema.Store) (query : string) (limit page : Z) (sortBy : string)
    (result : list mcp.Chat) (chat : mcp.Chat) :
  mcp.ListChats drv (mcp.Conn st) query limit page true sortBy = inr result ->
  In chat result ->
  (exists c,
    In c (Schema.chats st)
    /\ mcp.JID chat = Schema.c_jid c
    /\ ((exists m,
           In m (Schema.messages st)
           /\ Schema.m_chat_jid m = Schema.c_jid c
           /\ Schema.c_last_message_time c = Some (Schema.m_timestamp m)
           /\ mcp.LastMessage chat = Schema.m_content m
           /\ mcp.LastSender chat = Schema.m_sender m
           /\ mcp.LastIsFromMe chat = Schema.m_is_from_me m)
        \/ ((forall m,
               In m (Schema.messages st) ->
               Schema.m_chat_jid m = Schema.c_jid c ->
               Schema.c_last_message_time c <> Some (Schema.m_timestamp m))
            /\ mcp.LastMessage chat = ""
            /\ mcp.LastSender chat = ""
            /\ mcp.LastIsFromMe chat = false)))
  /\ (forall c,
        In c (Schema.chats st) ->
        (forall m,
           In m (Schema.messages st) ->
           Schema.m_chat_jid m = Schema.c_jid c ->
           Schema.c_last_message_time c <> Some (Schema.m_timestamp m)) ->
        mcp.chatWhere query (c, None) = true ->
        In (c, None) (mcp.matchingChats drv st query sortBy)).
Proof.
  unfold mcp.ListChats. intros Hres Hin. inversion Hres; subst result; clear Hres.
  split.
  2:{ intros c Hc Hno Hq. unfold mcp.matchingChats.
      apply SqlFacts.order_by_In, filter_In. split; [|exact Hq].
      now apply ChatFacts.lastMessageJoin_unmatched. }
  apply in_map_iff in Hin. destruct Hin as ([c last] & <- & Hr).
  apply SqlFacts.limit_offset_In in Hr. unfold mcp.matchingChats in Hr.
  apply SqlFacts.order_by_In, filter_In in Hr. destruct Hr as [Hr _].
  apply ChatFacts.lastMessageJoin_In in Hr. destruct Hr as [Hc Hlast].
  exists c. split; [exact Hc|]. split; [reflexivity|].
  destruct last as [m|]; simpl.
  - left. destruct Hlast as [Hm Hjoin].
    apply ChatFacts.isLastMessage_spec in Hjoin. exists m. tauto.
  - right. split; [|tauto]. intros m Hm Hjid Htime.
    specialize (Hlast m Hm).
    assert (mcp.isLastMessage c m = true)
      by (apply ChatFacts.isLastMessage_spec; tauto).
    congruence.
Qed.

Lemma ListChats_last_message_is_equality_join_witness :
  exists c,
    In c (Schema.chats Ex.watermarks)
    /\ "123@s.whatsapp.net" = Schema.c_jid c
    /\ ((exists m,
           In m (Schema.messages Ex.watermarks)
           /\ Schema.m_chat_jid m = Schema.c_jid c
           /\ Schema.c_last_message_time c = Some (Schema.m_timestamp m)
           /\ "" = Schema.m_content m
           /\ "" = Schema.m_sender m
           /\ false = Schema.m_is_from_me m)
        \/ ((forall m,
               In m (Schema.messages Ex.watermarks) ->
               Schema.m_chat_jid m = Schema.c_jid c ->
               Schema.c_last_message_time c <> Some (Schema.m_timestamp m))
            /\ "" = ""
            /\ "" = ""
            /\ false = false)).
Proof.
  apply (ListChats_last_message_is_equality_join Driver.utc Ex.watermarks "" 0 0 "name"
           [ {| mcp.JID := "123@s.whatsapp.net"; mcp.Name := "Ada";
                mcp.LastMessageTime := 60; mcp.LastMessage := "";
                mcp.LastSender := ""; mcp.LastIsFromMe := false |};
             {| mcp.JID := "456@s.whatsapp.net"; mcp.Name := "Bob";
                mcp.LastMessageTime := 7; mcp.LastMessage := "seven";
                mcp.LastSender := "456@s.whatsapp.net";
                mcp.LastIsFromMe := true |} ]
           {| mcp.JID := "123@s.whatsapp.net"; mcp.Name := "Ada";
              mcp.LastMessageTime := 60; mcp.LastMessage := "";
              mcp.LastSender := ""; mcp.LastIsFromMe := false |}).
  - reflexivity.
  - now left.
Defined.

Module PageFacts.

Lemma wrap64_small (z : Z) : Go.is_int z -> Go.wrap64 z = z.
Proof.
  unfold Go.is_int, Go.min_int, Go.max_int, Go.wrap64. intros H.
  rewrite Z.mod_small; lia.
Qed.

Lemma normLimit_pos (limit : Z) : 0 < mcp.normLimit limit.
Proof. unfold mcp.normLimit. destruct (Z.leb_spec limit 0); lia. Qed.

Lemma normPage_nonneg (page : Z) : 0 <= mcp.normPage page.
Proof. unfold mcp.normPage. destruct (Z.ltb_spec page 0); lia. Qed.

(** Without overflow, [LIMIT ? OFFSET ?] is the usual page. *)
Lemma page_window {A : Type} (limit page : Z) (rows : list A) :
  mcp.normPage page * mcp.normLimit limit <= Go.max_int ->
  Sql.limit_offset (mcp.normLimit limit)
    (Go.mul (mcp.normPage page) (mcp.normLimit limit)) rows
  = firstn (Z.to_nat (mcp.normLimit limit))
      (skipn (Z.to_nat (mcp.normPage page * mcp.normLimit limit)) rows).
Proof.
  intros Hfit.
  pose proof (normLimit_pos limit) as HL.
  pose proof (normPage_nonneg page) as HP.
  unfold Go.mul. rewrite wrap64_small.
  - unfold Sql.limit_offset.
    rewrite SqlFacts.limit_firstn, SqlFacts.offset_skipn by nia. reflexivity.
  - unfold Go.is_int, Go.min_int. split; [|exact Hfit]. nia.
Qed.

Lemma withContext_app (drv : Driver.codec) (hs : nat -> mcp.handle) (cb ca : Z) (l1 l2 : list mcp.Message) :
  forall k,
  mcp.withContext drv hs k (l1 ++ l2) cb ca
  = mcp.withContext drv hs k l1 cb ca
    ++ mcp.withContext drv hs (k + List.length l1) l2 cb ca.
Proof.
  induction l1 as [|m l1 IH]; intros k; simpl.
  - now rewrite Nat.add_0_r.
  - rewrite IH. replace (S k + List.length l1)%nat with (k + S (List.length l1))%nat by lia.
    destruct (mcp.GetMessageContext drv (hs k) (mcp.ID m) cb ca) as [e|ctx];
      [reflexivity|].
    rewrite <- app_assoc. simpl. now rewrite <- app_assoc.
Qed.

End PageFacts.

(** C8, as the code has it.  A limit that is not positive becomes 20 and
    a negative page becomes 0; as long as the product of the normalized
    page and limit fits Go's [int] and SQLite accepts the LIKE pattern,
    the window of each list operation is made of the rows of its ordered
    result from rank [page * limit] on, [limit] of them at most.
    [ListChats] and [GetContactChats] return the window; so does
    [ListMessages] without context or on an empty window, and with context
    it returns the expansions of the rows of the window. *)
Theorem list_operations_pagination (drv : Driver.codec) (limit page : Z) :
  mcp.normPage page * mcp.normLimit limit <= Go.max_int ->
  let L := mcp.normLimit limit in
  let P := mcp.normPage page in
  (limit <= 0 -> L = 20) /\ (0 < limit -> L = limit)
  /\ (page < 0 -> P = 0) /\ (0 <= page -> P = page)
  /\ (forall hs st dateRange senderPhoneNumber chatJID query includeContext
             cb ca,
        hs 0%nat = mcp.Conn st ->
        Str.within_like_limit (Str.contains_pattern query) = true ->
        let window :=
          map mcp.scanMessage
            (firstn (Z.to_nat L)
               (skipn (Z.to_nat (P * L))
                  (mcp.matchingMessages drv st dateRange senderPhoneNumber
                     chatJID query))) in
        (List.length window <= Z.to_nat L)%nat
        /\ mcp.ListMessages drv hs dateRange senderPhoneNumber chatJID query
             limit page includeContext cb ca
           = inr (if includeContext && negb (Nat.eqb (List.length window) 0)
                  then mcp.withContext drv hs 1 window cb ca
                  else window))
  /\ (forall st query sortBy,
        Str.within_like_limit (Str.contains_pattern query) = true ->
        let window :=
          map mcp.scanChat
            (firstn (Z.to_nat L)
               (skipn (Z.to_nat (P * L))
                  (mcp.matchingChats drv st query sortBy))) in
        (List.length window <= Z.to_nat L)%nat
        /\ mcp.ListChats drv (mcp.Conn st) query limit page true sortBy
           = inr window)
  /\ (forall st jid,
        Str.within_like_limit (Str.contains_pattern (mcp.phoneOf jid)) = true ->
        let window :=
          map mcp.scanChat
            (firstn (Z.to_nat L)
               (skipn (Z.to_nat (P * L))
                  (mcp.matchingContactChats drv st jid))) in
        (List.length window <= Z.to_nat L)%nat
        /\ mcp.GetContactChats drv (mcp.Conn st) jid limit page = inr window).
Proof.
  intros Hfit L P. subst L P.
  split; [unfold mcp.normLimit; destruct (Z.leb_spec limit 0); lia|].
  split; [unfold mcp.normLimit; destruct (Z.leb_spec limit 0); lia|].
  split; [unfold mcp.normPage; destruct (Z.ltb_spec page 0); lia|].
  split; [unfold mcp.normPage; destruct (Z.ltb_spec page 0); lia|].
  split; [|split].
  - intros hs st dateRange sender chatJID query includeContext cb ca Hconn _
      window.
    split; [subst window; rewrite length_map; apply firstn_le_length|].
    unfold mcp.ListMessages. rewrite Hconn. cbv zeta.
    rewrite PageFacts.page_window by exact Hfit. fold window.
    now destruct (includeContext && negb (Nat.eqb (List.length window) 0)).
  - intros st query sortBy _ window.
    split; [subst window; rewrite length_map; apply firstn_le_length|].
    unfold mcp.ListChats. now rewrite PageFacts.page_window.
  - intros st jid _ window.
    split; [subst window; rewrite length_map; apply firstn_le_length|].
    unfold mcp.GetContactChats. now rewrite PageFacts.page_window.
Qed.

Lemma list_operations_pagination_witness :
  option_map (map mcp.ID)
    (match mcp.ListMessages Driver.utc (fun _ => mcp.Conn Ex.fiveDays) [] "" "" ""
             2 1 true 1 1 with
     | inr l => Some l
     | inl _ => None
     end)
  = Some ["M30"; "M30"; "M40"; "M20"; "M20"; "M30"].
Proof.
  destruct (list_operations_pagination Driver.utc 2 1) as (_ & _ & _ & _ & H & _).
  - vm_compute. discriminate.
  - destruct (H (fun _ => mcp.Conn Ex.fiveDays) Ex.fiveDays [] "" "" "" true
                1 1 eq_refl eq_refl) as [_ E].
    rewrite E. reflexivity.
Defined.

(** C8, as stated, fails when the product overflows: page 2^62 with limit
    2 gives the offset -2^63, which skips nothing, so the two latest of
    five messages come back although page * limit exceeds the five rows. *)
Lemma ListMessages_offset_overflow :
  option_map (map mcp.ID)
    (match mcp.ListMessages Driver.utc (fun _ => mcp.Conn Ex.fiveMessages) [] "" "" ""
             2 (2 ^ 62) false 0 0 with
     | inr l => Some l
     | inl _ => None
     end)
  = Some ["M50"; "M40"]
  /\ Z.of_nat (List.length (mcp.matchingMessages Driver.utc Ex.fiveMessages [] "" "" ""))
     < mcp.normPage (2 ^ 62) * mcp.normLimit 2.
Proof. split; vm_compute; reflexivity. Qed.

(** C10. With [includeContext], a match whose context lookup fails adds
    nothing to the result and raises no error: the call returns the
    expansions of the matches before it followed by the expansions of the
    matches after it. *)
Theorem ListMessages_skips_failed_context (drv : Driver.codec)
    (hs : nat -> mcp.handle) (st : Schema.Store) (dateRange : list Go.Time)
    (senderPhoneNumber chatJID query : string) (limit page cb ca : Z)
    (pre post : list mcp.Message) (msg : mcp.Message) (e : Go.error) :
  hs 0%nat = mcp.Conn st ->
  map mcp.scanMessage
    (Sql.limit_offset (mcp.normLimit limit)
       (Go.mul (mcp.normPage page) (mcp.normLimit limit))
       (mcp.matchingMessages drv st dateRange senderPhoneNumber chatJID query))
  = pre ++ msg :: post ->
  mcp.GetMessageContext drv (hs (S (List.length pre))) (mcp.ID msg) cb ca = inl e ->
  mcp.ListMessages drv hs dateRange senderPhoneNumber chatJID query limit page
    true cb ca
  = inr (mcp.withContext drv hs 1 pre cb ca
         ++ mcp.withContext drv hs (S (S (List.length pre))) post cb ca).
Proof.
  intros Hconn Hmatches Hfail.
  unfold mcp.ListMessages. rewrite Hconn, Hmatches.
  rewrite length_app. simpl.
  replace (Nat.eqb (List.length pre + S (List.length post)) 0) with false
    by (symmetry; apply Nat.eqb_neq; lia).
  simpl. rewrite PageFacts.withContext_app. simpl. now rewrite Hfail.
Qed.

Lemma ListMessages_skips_failed_context_witness :
  option_map (map mcp.ID)
    (match mcp.ListMessages Driver.utc Ex.secondFails [] "" "" "" 2 1 true 1 1 with
     | inr l => Some l
     | inl _ => None
     end)
  = Some ["M50"; "M20"].
Proof.
  rewrite (ListMessages_skips_failed_context Driver.utc Ex.secondFails Ex.fiveMessages
             [] "" "" "" 2 1 1 1 []
             [mcp.scanMessage (Ex.row "M20" 20,
                               {| Schema.c_jid := "123@s.whatsapp.net";
                                  Schema.c_name := Some "Ada";
                                  Schema.c_last_message_time := Some 50 |})]
             (mcp.scanMessage (Ex.row "M30" 30,
                               {| Schema.c_jid := "123@s.whatsapp.net";
                                  Schema.c_name := Some "Ada";
                                  Schema.c_last_message_time := Some 50 |}))
             (Go.Errorf "message with ID M30 not found: " Ex.busy)).
  - reflexivity.
  - reflexivity.
  - reflexivity.
  - reflexivity.
Defined.



Module ContactFacts.
Import Schema.










End ContactFacts.





(* ================================================================== *)
(** ** Further properties of the store *)
(* ================================================================== *)

Module UpsertFacts.
Import Schema.

Section Upsert.
Context {A K : Type}.
Variable key : A -> K.
Variable same : A -> A -> bool.
Hypothesis same_key : forall x y, same x y = true <-> key x = key y.
Variable r : A.

Local Abbreviation others := (Sql.others same r).

Lemma others_In (l : list A) (x : A) :
  In x (others l) <-> In x l /\ key x <> key r.
Proof.
  unfold Sql.others. rewrite filter_In, negb_true_iff.
  split; intros [H1 H2]; split; auto.
  - intros E. apply same_key in E. congruence.
  - destruct (same x r) eqn:E; [|reflexivity]. apply same_key in E. contradiction.
Qed.

Lemma others_idem (l : list A) : others (others l) = others l.
Proof.
  unfold Sql.others. induction l as [|x l IH]; simpl; [reflexivity|].
  destruct (same x r) eqn:E; simpl; [exact IH|]. now rewrite E, IH.
Qed.

Lemma others_self : others [r] = [].
Proof.
  unfold Sql.others. simpl.
  assert (E : same r r = true) by now apply same_key. now rewrite E.
Qed.

(** Writing the same row twice is writing it once. *)
Lemma upsert_idem (l : list A) :
  others (others l ++ [r]) ++ [r] = others l ++ [r].
Proof.
  unfold Sql.others at 1. rewrite filter_app. fold (others (others l)).
  fold (others [r]). now rewrite others_idem, others_self, app_nil_r.
Qed.

Lemma NoDup_map_others (l : list A) :
  NoDup (map key l) -> NoDup (map key (others l)).
Proof.
  unfold Sql.others. induction l as [|x l IH]; simpl; intros H; [constructor|].
  inversion H as [|? ? Hx Hl]; subst.
  destruct (same x r); simpl; [now apply IH|].
  constructor; [|now apply IH].
  intros Hin. apply Hx. apply in_map_iff in Hin. destruct Hin as (y & E & Hy).
  apply filter_In in Hy. apply in_map_iff. exists y. tauto.
Qed.

(** An upsert keeps the keys distinct. *)
Lemma upsert_NoDup (l : list A) :
  NoDup (map key l) -> NoDup (map key (others l ++ [r])).
Proof.
  intros H. rewrite map_app. apply NoDup_app.
  - now apply NoDup_map_others.
  - simpl. constructor; [intros []|constructor].
  - intros k Hk [<-|[]]. apply in_map_iff in Hk. destruct Hk as (x & E & Hx).
    apply others_In in Hx. tauto.
Qed.

(** After an upsert the key selects the new row alone. *)
Lemma upsert_lookup (l : list A) :
  filter (fun x => same x r) (others l ++ [r]) = [r].
Proof.
  rewrite filter_app. simpl.
  assert (E : same r r = true) by now apply same_key. rewrite E.
  replace (filter (fun x => same x r) (others l)) with (@nil A); [reflexivity|].
  symmetry. unfold Sql.others. induction l as [|x l IH]; simpl; [reflexivity|].
  destruct (same x r) eqn:Ex; simpl; [exact IH|]. now rewrite Ex.
Qed.
End Upsert.

Lemma same_chat_key (x y : chat_row) :
  String.eqb (c_jid x) (c_jid y) = true <-> c_jid x = c_jid y.
Proof. apply String.eqb_eq. Qed.

Lemma same_message_key_spec (x y : message_row) :
  same_message_key x y = true <-> message_key x = message_key y.
Proof.
  unfold same_message_key, message_key.
  rewrite andb_true_iff, !String.eqb_eq. split.
  - intros [-> ->]. reflexivity.
  - intros H. inversion H. tauto.
Qed.

Lemma replace_message_idem (r : message_row) (st : Store) :
  replace_message r (replace_message r st) = replace_message r st.
Proof.
  unfold replace_message. simpl. f_equal.
  apply (upsert_idem message_key same_message_key same_message_key_spec).
Qed.

Lemma replace_chat_idem (r : chat_row) (st : Store) :
  replace_chat r (replace_chat r st) = replace_chat r st.
Proof.
  unfold replace_chat. simpl. f_equal.
  apply (upsert_idem c_jid (fun x y => String.eqb (c_jid x) (c_jid y)) same_chat_key).
Qed.

Lemma StoreChat_keys (d : db.t) (chat : models.Chat) :
  primary_keys (db.store d) ->
  primary_keys (db.store (fst (db.StoreChat d chat))).
Proof.
  intros [H1 H2]. unfold db.StoreChat.
  destruct (db.closed d); simpl; split; auto.
  apply (upsert_NoDup c_jid (fun x y => String.eqb (c_jid x) (c_jid y)) same_chat_key).
  exact H1.
Qed.

Lemma StoreMessage_keys (d : db.t) (msg : models.Message) :
  primary_keys (db.store d) ->
  primary_keys (db.store (fst (db.StoreMessage d msg))).
Proof.
  intros [H1 H2]. unfold db.StoreMessage.
  destruct (String.eqb (models.Content msg) ""); [now split|].
  destruct (db.closed d); [now split|].
  destruct (has_chat (db.store d) (models.ChatJID msg)); [|now split].
  simpl. split; [exact H1|].
  apply (upsert_NoDup message_key same_message_key same_message_key_spec).
  exact H2.
Qed.

Lemma StoreMessage_content (d : db.t) (msg : models.Message) :
  no_empty_content (db.store d) ->
  no_empty_content (db.store (fst (db.StoreMessage d msg))).
Proof.
  intros H. unfold db.StoreMessage.
  destruct (String.eqb_spec (models.Content msg) "") as [E|E]; [exact H|].
  destruct (db.closed d); [exact H|].
  destruct (has_chat (db.store d) (models.ChatJID msg)); [|exact H].
  simpl. intros m Hm. apply in_app_or in Hm. destruct Hm as [Hm|[<-|[]]].
  - apply filter_In in Hm. now apply H.
  - exact E.
Qed.

Lemma StoreChat_nulls (d : db.t) (chat : models.Chat) :
  no_null_chats (db.store d) ->
  no_null_chats (db.store (fst (db.StoreChat d chat))).
Proof.
  intros H. unfold db.StoreChat. destruct (db.closed d); simpl; [exact H|].
  intros c Hc. apply in_app_or in Hc. destruct Hc as [Hc|[<-|[]]].
  - apply filter_In in Hc. now apply H.
  - simpl. split; discriminate.
Qed.

End UpsertFacts.

(** X1. Upserts are idempotent: storing the same chat, or the same
    message, a second time gives the result and the store of the first
    time, whether the write succeeds, is dropped or fails. *)
Theorem upserts_are_idempotent (d : db.t) (chat : models.Chat) (msg : models.Message) :
  db.StoreChat (fst (db.StoreChat d chat)) chat = db.StoreChat d chat
  /\ db.StoreMessage (fst (db.StoreMessage d msg)) msg = db.StoreMessage d msg.
Proof.
  split.
  - unfold db.StoreChat. destruct (db.closed d) eqn:E; simpl; rewrite E;
      [reflexivity|].
    unfold db.with_store. simpl. now rewrite UpsertFacts.replace_chat_idem.
  - unfold db.StoreMessage.
    destruct (String.eqb (models.Content msg) "") eqn:Ec; simpl; rewrite ?Ec;
      [reflexivity|].
    destruct (db.closed d) eqn:E; simpl; rewrite ?Ec, ?E; [reflexivity|].
    destruct (Schema.has_chat (db.store d) (models.ChatJID msg)) eqn:Eh; simpl;
      rewrite ?Ec, ?E, ?Eh; [|reflexivity].
    unfold db.with_store. simpl.
    rewrite StoreFacts.has_chat_replace_message, Eh.
    now rewrite UpsertFacts.replace_message_idem.
Qed.

(** X2. The ingestion loop keeps the shape of the tables: from tables
    with distinct primary keys, no message of empty content and no NULL in
    a chat row, any sequence of events leads to such tables. *)
Theorem ingestion_keeps_table_shape
    (d : db.t) (out : list Go.error) (events : list models.Chat) :
  Schema.kept (db.store d) ->
  Schema.kept (db.store (fst (services.consume services.sqlite d out events))).
Proof.
  assert (Hchat : forall d chat, Schema.kept (db.store d) ->
            Schema.kept (db.store (fst (db.StoreChat d chat)))).
  { intros d0 chat (H1 & H2 & H3). split; [now apply UpsertFacts.StoreChat_keys|].
    split; [|now apply UpsertFacts.StoreChat_nulls].
    unfold db.StoreChat. destruct (db.closed d0); exact H2. }
  assert (Hmsg : forall d msg, Schema.kept (db.store d) ->
            Schema.kept (db.store (fst (db.StoreMessage d msg)))).
  { intros d0 msg (H1 & H2 & H3). split; [now apply UpsertFacts.StoreMessage_keys|].
    split; [now apply UpsertFacts.StoreMessage_content|].
    unfold db.StoreMessage.
    destruct (String.eqb (models.Content msg) ""); [exact H3|].
    destruct (db.closed d0); [exact H3|].
    destruct (Schema.has_chat (db.store d0) (models.ChatJID msg)); exact H3. }
  assert (Hmsgs : forall msgs d, Schema.kept (db.store d) ->
            Schema.kept (db.store (fst (services.storeMessages services.sqlite d msgs)))).
  { induction msgs as [|msg rest IH]; intros d0 H; simpl; [exact H|].
    pose proof (Hmsg d0 msg H) as H'.
    destruct (db.StoreMessage d0 msg) as [d' [e|]]; simpl in *; [exact H'|].
    now apply IH. }
  revert d out. induction events as [|chat rest IH]; intros d out H; simpl;
    [exact H|].
  assert (Hstep : Schema.kept
            (db.store (fst (services.storeChatAndMessage services.sqlite d chat)))).
  { unfold services.storeChatAndMessage. simpl.
    pose proof (Hchat d chat H) as H'.
    destruct (db.StoreChat d chat) as [d' [e|]]; simpl in *; [exact H'|].
    now apply Hmsgs. }
  destruct (services.storeChatAndMessage services.sqlite d chat) as [d' [e|]];
    simpl in *; now apply IH.
Qed.

Lemma ingestion_keeps_table_shape_witness :
  Schema.kept
    (db.store (fst (services.consume services.sqlite Ex.newDB []
                      [Ex.mixedEvent; Ex.nextEvent; Ex.nextEvent]))).
Proof.
  apply (ingestion_keeps_table_shape Ex.newDB []
           [Ex.mixedEvent; Ex.nextEvent; Ex.nextEvent]).
  split; [split; constructor|]. split; intros x H; destruct H.
Defined.

(** X3. A successful [StoreMessage] of a message with content leaves
    exactly one row under its key [(id, chat_jid)], the new one, and every
    row with another key, the same id in another chat included, stays as
    it was; the chat rows are not touched. *)
Theorem StoreMessage_replaces_only_its_key
    (d d' : db.t) (msg : models.Message) :
  models.Content msg <> "" ->
  db.StoreMessage d msg = (d', None) ->
  In (db.message_row_of msg) (Schema.messages (db.store d'))
  /\ (forall m, In m (Schema.messages (db.store d')) ->
                Schema.message_key m = (models.ID msg, models.ChatJID msg) ->
                m = db.message_row_of msg)
  /\ (forall m, Schema.message_key m <> (models.ID msg, models.ChatJID msg) ->
                (In m (Schema.messages (db.store d'))
                 <-> In m (Schema.messages (db.store d))))
  /\ Schema.chats (db.store d') = Schema.chats (db.store d).
Proof.
  intros Hc. unfold db.StoreMessage.
  destruct (String.eqb_spec (models.Content msg) "") as [E|_]; [contradiction|].
  destruct (db.closed d); [discriminate|].
  destruct (Schema.has_chat (db.store d) (models.ChatJID msg)); [|discriminate].
  intros H. inversion H; subst d'; clear H. simpl.
  pose proof (UpsertFacts.others_In Schema.message_key Schema.same_message_key
                UpsertFacts.same_message_key_spec (db.message_row_of msg)
                (Schema.messages (db.store d))) as Hothers.
  unfold Sql.others in Hothers.
  repeat split.
  - apply in_or_app. right. now left.
  - intros m Hm Hk. apply in_app_or in Hm. destruct Hm as [Hm|[<-|[]]];
      [|reflexivity].
    apply Hothers in Hm. destruct Hm as [_ Hne]. contradiction.
  - intros Hm. apply in_app_or in Hm. destruct Hm as [Hm|[<-|[]]].
    + now apply Hothers in Hm.
    + contradiction.
  - intros Hm. apply in_or_app. left. apply Hothers. tauto.
Qed.

Lemma StoreMessage_replaces_only_its_key_witness :
  In (db.message_row_of Ex.goodMessage)
     (Schema.messages
        (db.store (fst (db.StoreMessage (fst (db.StoreChat Ex.newDB Ex.nextEvent))
                          Ex.goodMessage)))).
Proof.
  refine (proj1 (StoreMessage_replaces_only_its_key
                   (fst (db.StoreChat Ex.newDB Ex.nextEvent))
                   (fst (db.StoreMessage (fst (db.StoreChat Ex.newDB Ex.nextEvent))
                           Ex.goodMessage))
                   Ex.goodMessage _ _)).
  - discriminate.
  - reflexivity.
Defined.

(** X4. Insert then lookup: on an open connection, the chat read back by
    [GetChat] right after [StoreChat] carries the jid, name and last
    message time just written, whatever row was there before. *)
Theorem StoreChat_then_GetChat (d : db.t) (chat : models.Chat) :
  db.closed d = false ->
  db.GetChat (fst (db.StoreChat d chat)) (models.JID chat)
  = (Some {| models.JID := models.JID chat;
             models.Name := models.Name chat;
             models.LastMessageTime := models.LastMessageTime chat;
             models.LastMessage := ""; models.LastSender := "";
             models.LastIsFromMe := false; models.Messages := [] |},
     None).
Proof.
  intros Hopen. unfold db.StoreChat, db.GetChat. rewrite Hopen. simpl.
  rewrite Hopen.
  pose proof (UpsertFacts.upsert_lookup Schema.c_jid
                (fun x y => String.eqb (Schema.c_jid x) (Schema.c_jid y))
                UpsertFacts.same_chat_key (db.chat_row_of chat)
                (Schema.chats (db.store d))) as H.
  unfold Sql.others in H. simpl in H. rewrite H. reflexivity.
Qed.

Lemma StoreChat_then_GetChat_witness :
  exists c, db.GetChat (fst (db.StoreChat Ex.newDB Ex.nextEvent))
                       "123@s.whatsapp.net" = (Some c, None)
            /\ models.LastMessageTime c = 20.
Proof.
  eexists. split.
  - apply (StoreChat_then_GetChat Ex.newDB Ex.nextEvent). reflexivity.
  - reflexivity.
Defined.

(** X5. Once the connection is closed nothing is written any more: the
    consumer prints one chat error per event and the store stays as it
    was. *)
Theorem closed_store_rejects_every_event
    (d : db.t) (out : list Go.error) (events : list models.Chat) :
  db.closed d = true ->
  services.consume services.sqlite d out events
  = (d, out ++ map (fun _ => Go.Errorf "error storing chat: " db.errClosed)
                   events).
Proof.
  intros Hclosed. revert out.
  induction events as [|chat rest IH]; intros out; simpl.
  - now rewrite app_nil_r.
  - unfold services.storeChatAndMessage. simpl. unfold db.StoreChat.
    rewrite Hclosed. rewrite IH, <- app_assoc. reflexivity.
Qed.

Lemma closed_store_rejects_every_event_witness :
  fst (services.consume services.sqlite (db.Close Ex.newDB) []
         [Ex.mixedEvent; Ex.nextEvent])
  = db.Close Ex.newDB.
Proof.
  rewrite (closed_store_rejects_every_event (db.Close Ex.newDB) []
             [Ex.mixedEvent; Ex.nextEvent]); reflexivity.
Defined.

Module ReadFacts.
Import Schema.

Lemma limit_all {A : Type} (n : Z) (l : list A) :
  Z.of_nat (List.length l) <= n -> Sql.limit n l = l.
Proof.
  intros H. rewrite SqlFacts.limit_firstn by lia. apply firstn_all2. lia.
Qed.

Lemma message_time_desc_total (drv : Driver.codec) (a b : message_row) :
  db.message_time_desc drv a b = true \/ db.message_time_desc drv b a = true.
Proof. apply String.leb_total. Qed.

Lemma message_time_desc_trans (drv : Driver.codec) (a b c : message_row) :
  db.message_time_desc drv a b = true -> db.message_time_desc drv b c = true ->
  db.message_time_desc drv a c = true.
Proof.
  unfold db.message_time_desc. intros H1 H2.
  now apply StrFacts.leb_trans with (Driver.stored drv (m_timestamp b)).
Qed.

Lemma chat_time_desc_total (drv : Driver.codec) (a b : chat_row) :
  db.chat_time_desc drv a b = true \/ db.chat_time_desc drv b a = true.
Proof.
  unfold db.chat_time_desc.
  destruct (SqlFacts.null_leb_total String.leb String.leb_total
              (option_map (Driver.stored drv) (c_last_message_time a))
              (option_map (Driver.stored drv) (c_last_message_time b))); auto.
Qed.

Lemma chat_time_desc_trans (drv : Driver.codec) (a b c : chat_row) :
  db.chat_time_desc drv a b = true -> db.chat_time_desc drv b c = true ->
  db.chat_time_desc drv a c = true.
Proof.
  unfold db.chat_time_desc. intros H1 H2.
  exact (SqlFacts.null_leb_trans String.leb StrFacts.leb_trans _ _ _ H2 H1).
Qed.

Lemma sorted_map_on {A B : Type} (f : A -> B) (R : A -> A -> Prop)
    (Q : B -> B -> Prop) (l : list A) :
  (forall a b, In a l -> In b l -> R a b -> Q (f a) (f b)) ->
  StronglySorted R l -> StronglySorted Q (map f l).
Proof.
  intros HRQ H. induction H as [|x l Hs IH Hx]; simpl; constructor.
  - apply IH. intros a b Ha Hb. apply HRQ; now right.
  - apply Forall_map. rewrite Forall_forall in *. intros y Hy.
    apply HRQ; [now left|now right|now apply Hx].
Qed.

Lemma scanChats_no_null (rows : list chat_row) :
  (forall c, In c rows -> c_name c <> None /\ c_last_message_time c <> None) ->
  db.scanChats rows = Some (map db.chat_of_row rows).
Proof.
  induction rows as [|c rows IH]; intros H; simpl; [reflexivity|].
  destruct (H c (or_introl eq_refl)) as [Hn Ht].
  rewrite IH by (intros c' Hc'; apply H; now right).
  unfold db.chat_of_row.
  destruct (c_name c); [|contradiction].
  destruct (c_last_message_time c); [|contradiction]. reflexivity.
Qed.

Lemma scanChats_null (rows : list chat_row) (c : chat_row) :
  In c rows -> c_name c = None \/ c_last_message_time c = None ->
  db.scanChats rows = None.
Proof.
  induction rows as [|x rows IH]; intros Hc Hnull; simpl; [contradiction|].
  destruct Hc as [->|Hc].
  - destruct Hnull as [-> | ->]; [reflexivity|]. now destruct (c_name c).
  - rewrite (IH Hc Hnull). now destruct (c_name x), (c_last_message_time x).
Qed.

End ReadFacts.

(** X6. On an open connection [GetMessages] returns messages of the
    requested chat only, in descending order of the stored timestamp
    texts, no more than a non-negative limit, and the ones it leaves out
    are not above the ones it returns in that order.  The messages come
    newest first whenever the texts of the rows of the chat are ordered
    as their instants are. *)
Theorem GetMessages_in_stored_text_order
    (drv : Driver.codec) (d : db.t) (chatJID : string) (limit : Z) :
  db.closed d = false ->
  let text (m : models.Message) := Driver.stored drv (models.Timestamp m) in
  let ofChat :=
    filter (fun m => String.eqb (Schema.m_chat_jid m) chatJID)
           (Schema.messages (db.store d)) in
  exists ms,
    db.GetMessages drv d chatJID limit = (ms, None)
    /\ StronglySorted (fun a b => String.leb (text b) (text a) = true) ms
    /\ (forall m, In m ms ->
          models.ChatJID m = chatJID
          /\ exists row, In row (Schema.messages (db.store d))
                         /\ m = db.message_of_row row)
    /\ (0 <= limit -> (List.length ms <= Z.to_nat limit)%nat)
    /\ (exists rest,
          Permutation (map db.message_of_row ofChat) (ms ++ rest)
          /\ forall m o, In m ms -> In o rest ->
                         String.leb (text o) (text m) = true)
    /\ ((forall a b, In a ofChat -> In b ofChat ->
           String.leb (Driver.stored drv (Schema.m_timestamp a))
                      (Driver.stored drv (Schema.m_timestamp b)) = true ->
           Schema.m_timestamp a <= Schema.m_timestamp b) ->
        StronglySorted
          (fun a b => models.Timestamp b <= models.Timestamp a) ms).
Proof.
  intros Hopen text ofChat. unfold db.GetMessages. rewrite Hopen.
  destruct (McpFacts.window_spec (db.message_time_desc drv)
              (ReadFacts.message_time_desc_total drv)
              (ReadFacts.message_time_desc_trans drv)
              (fun m => String.eqb (Schema.m_chat_jid m) chatJID) limit
              (Schema.messages (db.store d)))
    as (Hs & Hin & (rest & Hperm & Hcross) & Hlen & _).
  fold ofChat in Hs, Hin, Hperm, Hlen |- *.
  eexists. split; [reflexivity|].
  split.
  { eapply SqlFacts.sorted_map; [|exact Hs].
    intros a b H. exact H. }
  split.
  { intros m Hm. apply in_map_iff in Hm. destruct Hm as (row & <- & Hrow).
    apply Hin in Hrow. destruct Hrow as [Hrow E]. apply String.eqb_eq in E.
    split; [exact E|]. now exists row. }
  split.
  { intros H. rewrite length_map, (Hlen H). apply Nat.le_min_l. }
  split.
  { exists (map db.message_of_row rest). rewrite <- map_app.
    split; [now apply Permutation_map|].
    intros m o Hm Ho. apply in_map_iff in Hm, Ho.
    destruct Hm as (a & <- & Ha), Ho as (b & <- & Hb).
    exact (Hcross a b Ha Hb). }
  intros Hmono.
  apply ReadFacts.sorted_map_on with (R := Sql.le (db.message_time_desc drv));
    [|exact Hs].
  intros a b Ha Hb Hab. simpl.
  apply Hmono; [| |exact Hab].
  - apply filter_In. apply Hin in Hb. split; tauto.
  - apply filter_In. apply Hin in Ha. split; tauto.
Qed.

Lemma GetMessages_in_stored_text_order_witness :
  exists ms,
    db.GetMessages Driver.utc {| db.store := Ex.fiveMessages; db.closed := false |}
      "123@s.whatsapp.net" 2 = (ms, None)
    /\ map models.ID ms = ["M50"; "M40"].
Proof.
  destruct (GetMessages_in_stored_text_order Driver.utc
              {| db.store := Ex.fiveMessages; db.closed := false |}
              "123@s.whatsapp.net" 2 eq_refl) as (ms & E & _).
  exists ms. split; [exact E|]. vm_compute in E. inversion E. reflexivity.
Defined.

(** X7. Insert then list: on an open connection, a message with content
    whose chat has a row is returned by [GetMessages] for its chat right
    after [StoreMessage], as it was written and with an empty chat name,
    provided the limit exceeds the number of rows stored before. *)
Theorem StoreMessage_then_GetMessages (drv : Driver.codec)
    (d : db.t) (msg : models.Message) (limit : Z) :
  db.closed d = false ->
  models.Content msg <> "" ->
  Schema.has_chat (db.store d) (models.ChatJID msg) = true ->
  Z.of_nat (List.length (Schema.messages (db.store d))) < limit ->
  exists ms,
    db.GetMessages drv (fst (db.StoreMessage d msg)) (models.ChatJID msg) limit
    = (ms, None)
    /\ In {| models.ID := models.ID msg;
             models.ChatJID := models.ChatJID msg;
             models.Sender := models.Sender msg;
             models.Content := models.Content msg;
             models.Timestamp := models.Timestamp msg;
             models.IsFromMe := models.IsFromMe msg;
             models.ChatName := "" |} ms.
Proof.
  intros Hopen Hc Hchat Hlimit.
  unfold db.StoreMessage.
  destruct (String.eqb_spec (models.Content msg) "") as [E|_]; [contradiction|].
  rewrite Hopen, Hchat. unfold db.GetMessages. simpl. rewrite Hopen.
  eexists. split; [reflexivity|].
  set (rows := filter _ (filter _ _ ++ _)).
  assert (Hrow : In (db.message_row_of msg) rows).
  { subst rows. apply filter_In. split.
    - apply in_or_app. right. now left.
    - simpl. apply String.eqb_refl. }
  assert (Hlen : (List.length rows <= S (List.length (Schema.messages (db.store d))))%nat).
  { subst rows.
    etransitivity; [apply filter_length_le|].
    rewrite length_app. simpl.
    pose proof (filter_length_le
      (fun m => negb (Schema.same_message_key m (db.message_row_of msg)))
      (Schema.messages (db.store d))). lia. }
  rewrite ReadFacts.limit_all.
  - apply in_map_iff. exists (db.message_row_of msg). split; [reflexivity|].
    now apply SqlFacts.order_by_In.
  - rewrite SqlFacts.order_by_length. lia.
Qed.

Lemma StoreMessage_then_GetMessages_witness :
  exists ms,
    db.GetMessages Driver.utc
      (fst (db.StoreMessage (fst (db.StoreChat Ex.newDB Ex.nextEvent))
              Ex.goodMessage))
      "123@s.whatsapp.net" 50 = (ms, None)
    /\ map models.Content ms = ["hello"].
Proof.
  destruct (StoreMessage_then_GetMessages Driver.utc
              (fst (db.StoreChat Ex.newDB Ex.nextEvent)) Ex.goodMessage 50)
    as (ms & E & _).
  - reflexivity.
  - discriminate.
  - reflexivity.
  - reflexivity.
  - exists ms. split; [exact E|]. vm_compute in E. inversion E. reflexivity.
Defined.

(** X8. [GetChats] is all or nothing.  On an open connection, when no
    chat row has a NULL column it returns every chat once, in descending
    order of the stored texts of the last message times; when some row
    has a NULL name or time it returns the scan error and no chat. *)
Theorem GetChats_all_or_nothing (drv : Driver.codec) (d : db.t) :
  db.closed d = false ->
  (Schema.no_null_chats (db.store d) ->
   exists rows,
     Permutation (Schema.chats (db.store d)) rows
     /\ db.GetChats drv d = (map db.chat_of_row rows, None)
     /\ StronglySorted
          (fun a b =>
             String.leb (Driver.stored drv (models.LastMessageTime b))
                        (Driver.stored drv (models.LastMessageTime a)) = true)
          (map db.chat_of_row rows))
  /\ (forall c, In c (Schema.chats (db.store d)) ->
                Schema.c_name c = None \/ Schema.c_last_message_time c = None ->
                db.GetChats drv d = ([], Some db.errScanNull)).
Proof.
  intros Hopen. unfold db.GetChats. rewrite Hopen. split.
  - intros Hnn.
    set (rows := Sql.order_by (db.chat_time_desc drv) (Schema.chats (db.store d))).
    assert (Hrows : forall c, In c rows ->
              Schema.c_name c <> None /\ Schema.c_last_message_time c <> None).
    { intros c Hc. apply Hnn. now apply SqlFacts.order_by_In in Hc. }
    exists rows. split; [apply SqlFacts.order_by_perm|].
    rewrite (ReadFacts.scanChats_no_null rows Hrows). split; [reflexivity|].
    apply ReadFacts.sorted_map_on with (R := Sql.le (db.chat_time_desc drv)).
    + intros a b Ha Hb H. unfold Sql.le, db.chat_time_desc, Sql.null_leb in H.
      destruct (Hrows a Ha) as [_ Hta], (Hrows b Hb) as [_ Htb].
      unfold db.chat_of_row. simpl.
      destruct (Schema.c_last_message_time a); [|contradiction].
      destruct (Schema.c_last_message_time b); [|contradiction]. exact H.
    + apply SqlFacts.order_by_sorted.
      * apply ReadFacts.chat_time_desc_total.
      * apply ReadFacts.chat_time_desc_trans.
  - intros c Hc Hnull.
    rewrite (ReadFacts.scanChats_null _ c); [reflexivity| |exact Hnull].
    now apply SqlFacts.order_by_In.
Qed.

Lemma GetChats_all_or_nothing_witness :
  exists rows,
    db.GetChats Driver.utc {| db.store := Ex.watermarks; db.closed := false |}
    = (map db.chat_of_row rows, None)
    /\ List.length rows = 2%nat.
Proof.
  destruct (GetChats_all_or_nothing Driver.utc
              {| db.store := Ex.watermarks; db.closed := false |} eq_refl)
    as [H _].
  destruct H as (rows & Hperm & E & _).
  - intros c Hc. simpl in Hc.
    destruct Hc as [<-|[<-|[]]]; split; discriminate.
  - exists rows. split; [exact E|].
    apply Permutation_length in Hperm. now rewrite <- Hperm.
Defined.


(* ================================================================== *)
(** ** Properties of the event handler and of the send path *)
(* ================================================================== *)

Module EventFacts.
Import whatsapp.

Lemma history_chat_messages (convs : list Conversation) (m : models.Message) :
  In m (models.Messages (fst (handleConversations convs))) ->
  models.ChatJID m = models.JID (fst (handleConversations convs))
  /\ models.Content m <> "".
Proof.
  induction convs as [|conv rest IH]; simpl; [contradiction|].
  destruct (String.eqb (GetId conv) ""); [exact IH|].
  simpl. rewrite WhatsappFacts.fold_step. simpl. intros Hm.
  apply in_map_iff in Hm. destruct Hm as (w & <- & Hw). simpl.
  split; [reflexivity|].
  apply WhatsappFacts.recovered_spec in Hw. destruct Hw as (_ & _ & _ & H).
  exact H.
Qed.

Lemma handleConversations_no_error (convs : list Conversation) :
  snd (handleConversations convs) = None.
Proof.
  induction convs as [|conv rest IH]; simpl; [reflexivity|].
  now destruct (String.eqb (GetId conv) "").
Qed.

Lemma emitted_own_messages (evt : event) (chat : models.Chat) :
  In chat (eventHandler evt) ->
  forall m, In m (models.Messages chat) -> models.ChatJID m = models.JID chat.
Proof.
  destruct evt as [v|v| | |]; simpl; try contradiction.
  - destruct (handleMessage v) as [e|msg]; simpl; [contradiction|].
    intros [<-|[]] m [<-|[]]. reflexivity.
  - unfold handleHistorySync.
    pose proof (history_chat_messages (Conversations v)) as H.
    destruct (handleConversations (Conversations v)) as [c [e|]]; simpl in *;
      [contradiction|].
    intros [<-|[]] m Hm. now apply H.
Qed.

Lemma StoreMessage_keeps_chats (d : db.t) (msg : models.Message) :
  Schema.chats (db.store (fst (db.StoreMessage d msg))) = Schema.chats (db.store d)
  /\ db.closed (fst (db.StoreMessage d msg)) = db.closed d.
Proof.
  unfold db.StoreMessage.
  destruct (String.eqb (models.Content msg) ""); [now split|].
  destruct (db.closed d) eqn:E; [simpl; now split|].
  destruct (Schema.has_chat (db.store d) (models.ChatJID msg)); simpl;
    now split.
Qed.

Lemma GetChat_reads_chats (d d' : db.t) (jid : string) :
  Schema.chats (db.store d') = Schema.chats (db.store d) ->
  db.closed d' = db.closed d ->
  db.GetChat d' jid = db.GetChat d jid.
Proof. intros H1 H2. unfold db.GetChat. now rewrite H1, H2. Qed.

Lemma short_is_not_user_server (s : string) :
  String.length s = 5%nat -> String.eqb s "@s.whatsapp.net" = false.
Proof.
  intros H. destruct (String.eqb_spec s "@s.whatsapp.net") as [->|_];
    [discriminate|reflexivity].
Qed.

Lemma length_string_of_list (l : list ascii) :
  String.length (string_of_list_ascii l) = List.length l.
Proof. induction l as [|c l IH]; simpl; [reflexivity|]. now rewrite IH. Qed.

Lemma length_chars (s : string) : List.length (Str.chars s) = String.length s.
Proof.
  unfold Str.chars. induction s as [|c s IH]; simpl; [reflexivity|]. now rewrite IH.
Qed.

End EventFacts.

(** X9. Every event the handler sends, live or history, carries only
    messages of its own chat; hence on an open connection its ingestion
    reports no error, writes the chat row and stores each of its messages
    that has content. *)
Theorem emitted_events_are_stored
    (evt : whatsapp.event) (chat : models.Chat) (d : db.t) :
  In chat (whatsapp.eventHandler evt) ->
  db.closed d = false ->
  let r := services.storeChatAndMessage services.sqlite d chat in
  snd r = None
  /\ Schema.has_chat (db.store (fst r)) (models.JID chat) = true
  /\ (forall m, In m (models.Messages chat) ->
                models.ChatJID m = models.JID chat
                /\ (models.Content m <> "" ->
                    Schema.has_message (db.store (fst r))
                      (models.ID m) (models.JID chat))).
Proof.
  intros Hin Hopen r. subst r.
  pose proof (EventFacts.emitted_own_messages evt chat Hin) as Hown.
  unfold services.storeChatAndMessage. simpl.
  unfold db.StoreChat. rewrite Hopen.
  set (d' := db.with_store d _).
  assert (Hchat : Schema.has_chat (db.store d') (models.JID chat) = true).
  { subst d'. simpl. rewrite StoreFacts.has_chat_replace_chat. simpl.
    rewrite String.eqb_refl. apply orb_true_r. }
  destruct (StoreFacts.storeMessages_own_chat (models.JID chat)
              (models.Messages chat) d' Hopen Hchat Hown)
    as (E1 & E2 & E3 & E4 & E5).
  split; [exact E1|]. split; [exact E3|].
  intros m Hm. split; [now apply Hown|now apply E5].
Qed.

Lemma emitted_events_are_stored_witness :
  snd (services.storeChatAndMessage services.sqlite Ex.newDB
         (fst (whatsapp.handleHistorySync Ex.payload))) = None.
Proof.
  apply (emitted_events_are_stored (whatsapp.EvHistorySync Ex.payload)
           (fst (whatsapp.handleHistorySync Ex.payload)) Ex.newDB).
  - now left.
  - reflexivity.
Defined.

(** X10. After a live text message is ingested on an open connection,
    the row of its chat has the sender as name and the time of the message
    as last message time, whatever the row held before. *)
Theorem live_message_overwrites_chat
    (v : whatsapp.LiveMessage) (content : string) (chat : models.Chat) (d : db.t) :
  whatsapp.msg_conversation (whatsapp.ev_message v) = Some content ->
  In chat (whatsapp.eventHandler (whatsapp.EvMessage v)) ->
  db.closed d = false ->
  models.Messages chat
  = [ {| models.ID := whatsapp.mi_id (whatsapp.ev_info v);
         models.ChatJID := whatsapp.mi_chat (whatsapp.ev_info v);
         models.Sender := whatsapp.mi_sender (whatsapp.ev_info v);
         models.Content := content;
         models.Timestamp := whatsapp.mi_timestamp (whatsapp.ev_info v);
         models.IsFromMe := whatsapp.mi_is_from_me (whatsapp.ev_info v);
         models.ChatName := "" |} ]
  /\ db.GetChat (fst (services.storeChatAndMessage services.sqlite d chat))
       (whatsapp.mi_chat (whatsapp.ev_info v))
     = (Some {| models.JID := whatsapp.mi_chat (whatsapp.ev_info v);
                models.Name := whatsapp.mi_sender (whatsapp.ev_info v);
                models.LastMessageTime :=
                  whatsapp.mi_timestamp (whatsapp.ev_info v);
                models.LastMessage := ""; models.LastSender := "";
                models.LastIsFromMe := false; models.Messages := [] |},
        None).
Proof.
  intros Hconv Hin Hopen. simpl in Hin. unfold whatsapp.handleMessage in Hin.
  rewrite Hconv in Hin. destruct Hin as [<-|[]]. split; [reflexivity|].
  unfold services.storeChatAndMessage. simpl.
  unfold db.StoreChat. rewrite Hopen.
  set (d' := db.with_store d _).
  set (msg := {| models.ID := _ |}).
  destruct (EventFacts.StoreMessage_keeps_chats d' msg) as [Hchats Hclosed].
  assert (Hget : db.GetChat (fst (db.StoreMessage d' msg))
                   (whatsapp.mi_chat (whatsapp.ev_info v))
                 = db.GetChat d' (whatsapp.mi_chat (whatsapp.ev_info v)))
    by now apply EventFacts.GetChat_reads_chats.
  destruct (db.StoreMessage d' msg) as [d'' [e|]]; simpl in *; rewrite Hget;
    clear Hget Hchats Hclosed.
  all: subst d' msg; unfold db.GetChat; simpl; rewrite Hopen;
    unfold db.chat_row_of, whatsapp.liveChat; simpl.
  all: pose proof (UpsertFacts.upsert_lookup Schema.c_jid
                (fun x y => String.eqb (Schema.c_jid x) (Schema.c_jid y))
                UpsertFacts.same_chat_key
                {| Schema.c_jid := whatsapp.mi_chat (whatsapp.ev_info v);
                   Schema.c_name := Some (whatsapp.mi_sender (whatsapp.ev_info v));
                   Schema.c_last_message_time :=
                     Some (whatsapp.mi_timestamp (whatsapp.ev_info v)) |}
                (Schema.chats (db.store d))) as H;
    unfold Sql.others in H; simpl in H; rewrite H; reflexivity.
Qed.

Lemma live_message_overwrites_chat_witness :
  exists c,
    db.GetChat
      (fst (services.storeChatAndMessage services.sqlite
              (fst (db.StoreChat Ex.newDB Ex.nextEvent))
              (whatsapp.liveChat
                 {| models.ID := "L1"; models.ChatJID := "123@s.whatsapp.net";
                    models.Sender := "33611@s.whatsapp.net";
                    models.Content := "hi"; models.Timestamp := 4;
                    models.IsFromMe := false; models.ChatName := "" |})))
      "123@s.whatsapp.net" = (Some c, None)
    /\ models.Name c = "33611@s.whatsapp.net"
    /\ models.LastMessageTime c = 4.
Proof.
  eexists. split.
  - refine (proj2 (live_message_overwrites_chat Ex.liveText "hi" _
                     (fst (db.StoreChat Ex.newDB Ex.nextEvent)) _ _ _)).
    + reflexivity.
    + now left.
    + reflexivity.
  - split; reflexivity.
Defined.

(** X11. A history-sync payload in which no conversation has an id still
    produces an event, the empty chat; its ingestion on an open connection
    writes a chat row with the empty jid and no message. *)
Theorem anonymous_payload_stores_empty_chat
    (historySync : whatsapp.HistorySync) (d : db.t) :
  Forall (fun c => whatsapp.GetId c = "") (whatsapp.Conversations historySync) ->
  db.closed d = false ->
  whatsapp.eventHandler (whatsapp.EvHistorySync historySync) = [models.zeroChat]
  /\ services.storeChatAndMessage services.sqlite d models.zeroChat
     = (db.with_store d
          (Schema.replace_chat
             {| Schema.c_jid := ""; Schema.c_name := Some "";
                Schema.c_last_message_time := Some Go.zeroTime |}
             (db.store d)),
        None).
Proof.
  intros Hanon Hopen. split.
  - simpl. unfold whatsapp.handleHistorySync.
    induction Hanon as [|c l Hc Hl IH]; simpl; [reflexivity|].
    rewrite Hc. simpl. exact IH.
  - unfold services.storeChatAndMessage. simpl. unfold db.StoreChat.
    now rewrite Hopen.
Qed.

Lemma anonymous_payload_stores_empty_chat_witness :
  Schema.has_chat
    (db.store (fst (services.storeChatAndMessage services.sqlite Ex.newDB
                      models.zeroChat))) "" = true.
Proof.
  destruct (anonymous_payload_stores_empty_chat
              {| whatsapp.Conversations := [Ex.anonymous] |} Ex.newDB)
    as [_ H].
  - repeat constructor.
  - reflexivity.
  - rewrite H. reflexivity.
Defined.

(** X12. [SendMessage] never parses its recipient as a JID: the five
    bytes it compares cannot equal the user server suffix.  It panics on
    an empty recipient and on one shorter than five bytes once a leading
    [+] is removed; otherwise it sends to the whole recipient taken as a
    user of the default server, a recipient that is already a full JID
    included. *)
Theorem SendMessage_never_parses_the_recipient
    (ParseJID : string -> whatsapp.JID * option Go.error)
    (clientSend : whatsapp.JID -> string -> option Go.error)
    (recipient message : string) :
  ((recipient = ""
    \/ (String.length (whatsapp.withoutPlus recipient) < 5)%nat) ->
   whatsapp.SendMessage ParseJID clientSend recipient message = whatsapp.Panic)
  /\ (recipient <> "" ->
      (5 <= String.length (whatsapp.withoutPlus recipient))%nat ->
      whatsapp.SendMessage ParseJID clientSend recipient message
      = whatsapp.Returns
          (match clientSend
                   (whatsapp.NewJID (whatsapp.withoutPlus recipient)
                      whatsapp.DefaultUserServer) message with
           | Some err => Some (Go.Errorf "failed to send message: " err)
           | None => None
           end)).
Proof.
  unfold whatsapp.SendMessage, whatsapp.recipientJID, whatsapp.withoutPlus.
  destruct recipient as [|c rest]; simpl.
  - split; [reflexivity|]. intros H. contradiction.
  - fold (Str.chars rest).
    assert (Hlen : List.length (if Ascii.eqb c "+" then Str.chars rest
                                else c :: Str.chars rest)
                   = String.length (if Ascii.eqb c "+" then rest
                                    else String c rest)).
    { destruct (Ascii.eqb c "+"); simpl; now rewrite EventFacts.length_chars. }
    assert (Hstr : string_of_list_ascii (if Ascii.eqb c "+" then Str.chars rest
                                         else c :: Str.chars rest)
                   = (if Ascii.eqb c "+" then rest else String c rest)).
    { destruct (Ascii.eqb c "+"); simpl; unfold Str.chars;
        now rewrite string_of_list_ascii_of_string. }
    set (l := if Ascii.eqb c "+" then Str.chars rest else c :: Str.chars rest) in *.
    set (user := if Ascii.eqb c "+" then rest else String c rest) in *.
    split.
    + intros [H|H]; [discriminate|].
      destruct (Nat.ltb_spec (List.length l) 5); [reflexivity|lia].
    + intros _ H.
      destruct (Nat.ltb_spec (List.length l) 5); [lia|].
      rewrite EventFacts.short_is_not_user_server.
      * rewrite Hstr.
        now destruct (clientSend _ message).
      * rewrite EventFacts.length_string_of_list, length_skipn. lia.
Qed.

Lemma SendMessage_never_parses_the_recipient_witness :
  whatsapp.SendMessage Ex.parseAny Ex.sendOk "123@s.whatsapp.net" "hello"
  = whatsapp.Returns None
  /\ whatsapp.SendMessage Ex.parseAny Ex.sendOk "+123" "hello" = whatsapp.Panic.
Proof.
  split.
  - rewrite (proj2 (SendMessage_never_parses_the_recipient Ex.parseAny Ex.sendOk
                      "123@s.whatsapp.net" "hello")).
    + reflexivity.
    + discriminate.
    + simpl. lia.
  - apply (proj1 (SendMessage_never_parses_the_recipient Ex.parseAny Ex.sendOk
                    "+123" "hello")).
    right. simpl. lia.
Defined.

(* ================================================================== *)
(** ** Further properties of the query layer *)
(* ================================================================== *)

Module LookupFacts.
Import Schema.

Lemma filter_flat_map_nil {A B : Type} (f : A -> list B) (keep : B -> bool)
    (l : list A) :
  (forall x y, In x l -> In y (f x) -> keep y = false) ->
  filter keep (flat_map f l) = [].
Proof.
  induction l as [|x l IH]; intros H; simpl; [reflexivity|].
  rewrite filter_app, IH by (intros a b Ha Hb; apply (H a b); [now right|exact Hb]).
  rewrite app_nil_r.
  assert (Hx : forall y, In y (f x) -> keep y = false)
    by (intros y Hy; apply (H x y); [now left|exact Hy]).
  induction (f x) as [|y ys IHy]; simpl; [reflexivity|].
  rewrite (Hx y (or_introl eq_refl)). apply IHy. intros z Hz. apply Hx. now right.
Qed.

(** The rows the last-message join makes for one chat row. *)
Lemma lastMessageJoin_rows (st : Store) (r : chat_row * option message_row) :
  In r (mcp.lastMessageJoin st) -> In (fst r) (chats st).
Proof.
  destruct r as [c last]. intros H.
  now apply ChatFacts.lastMessageJoin_In in H.
Qed.

Lemma no_chat_no_row (st : Store) (jid : string) (includeLastMessage : bool) :
  has_chat st jid = false ->
  filter (fun r : chat_row * option message_row =>
            String.eqb (c_jid (fst r)) jid)
         (if includeLastMessage then mcp.lastMessageJoin st
          else map (fun c => (c, None)) (chats st))
  = [].
Proof.
  intros Habs.
  assert (Hne : forall c, In c (chats st) -> String.eqb (c_jid c) jid = false).
  { intros c Hc. destruct (String.eqb (c_jid c) jid) eqn:E; [|reflexivity].
    unfold has_chat in Habs.
    assert (existsb (fun c => String.eqb (c_jid c) jid) (chats st) = true)
      by (apply existsb_exists; now exists c).
    congruence. }
  assert (Hall : forall l : list (chat_row * option message_row),
            (forall r, In r l -> In (fst r) (chats st)) ->
            filter (fun r => String.eqb (c_jid (fst r)) jid) l = []).
  { induction l as [|r l IH]; intros H; simpl; [reflexivity|].
    rewrite (Hne (fst r)) by (apply H; now left).
    apply IH. intros r' Hr'. apply H. now right. }
  apply Hall. destruct includeLastMessage.
  - apply lastMessageJoin_rows.
  - intros r Hr. apply in_map_iff in Hr. destruct Hr as (c & <- & Hc). exact Hc.
Qed.

Lemma before_at_no_at (l rest : list ascii) :
  existsb (Ascii.eqb Str.at_sign) l = false ->
  Str.before_at_chars (l ++ Str.at_sign :: rest) = l.
Proof.
  induction l as [|c l IH]; intros H.
  - reflexivity.
  - change (existsb (Ascii.eqb Str.at_sign) (c :: l))
      with (Ascii.eqb Str.at_sign c || existsb (Ascii.eqb Str.at_sign) l) in H.
    apply orb_false_iff in H. destruct H as [Hc Hl].
    change (Str.before_at_chars ((c :: l) ++ Str.at_sign :: rest))
      with (if Ascii.eqb c Str.at_sign then []
            else c :: Str.before_at_chars (l ++ Str.at_sign :: rest)).
    rewrite Ascii.eqb_sym, Hc. now rewrite IH.
Qed.

Lemma split_at_0_local (user server : string) :
  Str.contains_at user = false ->
  Str.split_at_0 (user ++ String Str.at_sign server)%string = user.
Proof.
  unfold Str.contains_at, Str.split_at_0. intros H.
  rewrite StrFacts.chars_append. simpl.
  rewrite before_at_no_at by exact H.
  unfold Str.chars. apply string_of_list_ascii_of_string.
Qed.

End LookupFacts.

(** X13. For a jid without a chat row, [GetChat] of the query layer
    returns the not-found error, with or without the last message, where
    the store of the bridge returns no chat and no error. *)
Theorem mcp_GetChat_unknown_jid_is_an_error
    (st : Schema.Store) (jid : string) (includeLastMessage : bool) :
  Schema.has_chat st jid = false ->
  mcp.GetChat (mcp.Conn st) jid includeLastMessage
  = inl (Errors.New ("chat with JID " ++ jid ++ " not found"))
  /\ db.GetChat {| db.store := st; db.closed := false |} jid = (None, None).
Proof.
  intros Habs. split.
  - unfold mcp.GetChat.
    now rewrite (LookupFacts.no_chat_no_row st jid includeLastMessage Habs).
  - unfold db.GetChat. simpl.
    pose proof (LookupFacts.no_chat_no_row st jid false Habs) as H.
    simpl in H.
    replace (filter (fun c => String.eqb (Schema.c_jid c) jid) (Schema.chats st))
      with (@nil Schema.chat_row); [reflexivity|].
    symmetry. clear H. unfold Schema.has_chat in Habs.
    induction (Schema.chats st) as [|c l IH]; simpl in *; [reflexivity|].
    apply orb_false_iff in Habs. destruct Habs as [E1 E2].
    rewrite E1. now apply IH.
Qed.

Lemma mcp_GetChat_unknown_jid_is_an_error_witness :
  mcp.GetChat (mcp.Conn Ex.watermarks) "unknown@x" true
  = inl (Errors.New "chat with JID unknown@x not found").
Proof.
  apply (mcp_GetChat_unknown_jid_is_an_error Ex.watermarks "unknown@x" true).
  reflexivity.
Defined.

(** X14. A chat written by [StoreChat] is found by [GetChat] of the
    query layer on the resulting tables, with the jid, name and last
    message time just written; without the last message its last-message
    fields are empty. *)
Theorem StoreChat_then_mcp_GetChat
    (d : db.t) (chat : models.Chat) (includeLastMessage : bool) :
  db.closed d = false ->
  exists c,
    mcp.GetChat (mcp.Conn (db.store (fst (db.StoreChat d chat))))
      (models.JID chat) includeLastMessage = inr c
    /\ mcp.JID c = models.JID chat
    /\ mcp.Name c = models.Name chat
    /\ mcp.LastMessageTime c = models.LastMessageTime chat
    /\ (includeLastMessage = false ->
        mcp.LastMessage c = "" /\ mcp.LastSender c = ""
        /\ mcp.LastIsFromMe c = false).
Proof.
  intros Hopen.
  assert (Hst : db.store (fst (db.StoreChat d chat))
                = Schema.replace_chat (db.chat_row_of chat) (db.store d))
    by (unfold db.StoreChat; now rewrite Hopen).
  rewrite Hst. clear Hst.
  unfold mcp.GetChat. cbv zeta.
  set (row := db.chat_row_of chat).
  set (st' := Schema.replace_chat row (db.store d)).
  assert (Hrows : exists last rest,
            filter (fun r : Schema.chat_row * option Schema.message_row =>
                      String.eqb (Schema.c_jid (fst r)) (models.JID chat))
                   (if includeLastMessage then mcp.lastMessageJoin st'
                    else map (fun c => (c, None)) (Schema.chats st'))
            = (row, last) :: rest
            /\ (includeLastMessage = false -> last = None)).
  { assert (Hothers : forall c,
              In c (filter (fun c => negb (String.eqb (Schema.c_jid c)
                                             (Schema.c_jid row)))
                           (Schema.chats (db.store d))) ->
              String.eqb (Schema.c_jid c) (models.JID chat) = false).
    { intros c Hc. apply filter_In in Hc. destruct Hc as [_ Hc].
      now apply negb_true_iff in Hc. }
    destruct includeLastMessage.
    - unfold mcp.lastMessageJoin. subst st'. unfold Schema.replace_chat. simpl.
      rewrite flat_map_app, filter_app. simpl. rewrite app_nil_r.
      rewrite LookupFacts.filter_flat_map_nil.
      + simpl.
        destruct (filter (mcp.isLastMessage row) (Schema.messages (db.store d)))
          as [|m ms]; simpl; rewrite String.eqb_refl.
        * exists None, []. split; [reflexivity|discriminate].
        * eexists (Some m), _. split; [reflexivity|discriminate].
      + intros c r Hc Hr. assert (fst r = c).
        { destruct (filter (mcp.isLastMessage c) (Schema.messages (db.store d)))
            as [|m ms].
          - destruct Hr as [<-|[]]. reflexivity.
          - simpl in Hr. destruct Hr as [<-|Hr]; [reflexivity|].
            apply in_map_iff in Hr. destruct Hr as (x & <- & _). reflexivity. }
        subst c. now apply Hothers.
    - subst st'. unfold Schema.replace_chat. simpl.
      rewrite map_app, filter_app. simpl. rewrite String.eqb_refl.
      replace (filter _ (map _ _)) with (@nil (Schema.chat_row * option Schema.message_row)).
      + exists None, []. split; [reflexivity|reflexivity].
      + symmetry.
        induction (filter _ (Schema.chats (db.store d))) as [|c l IH];
          simpl; [reflexivity|].
        rewrite (Hothers c) by now left.
        apply IH. intros c' Hc'. apply Hothers. now right. }
  destruct Hrows as (last & rest & -> & Hlast).
  eexists. split; [reflexivity|]. simpl.
  split; [reflexivity|]. split; [reflexivity|]. split; [reflexivity|].
  intros ->. repeat split.
Qed.

Lemma StoreChat_then_mcp_GetChat_witness :
  exists c,
    mcp.GetChat (mcp.Conn (db.store (fst (db.StoreChat Ex.newDB Ex.nextEvent))))
      "123@s.whatsapp.net" true = inr c
    /\ mcp.Name c = "Ada".
Proof.
  destruct (StoreChat_then_mcp_GetChat Ex.newDB Ex.nextEvent true eq_refl)
    as (c & E & _ & Hn & _).
  exists c. split; [exact E|exact Hn].
Defined.

(** X15. The phone number that [SearchContacts] shows for a direct chat
    leads back to that chat: for a jid made of a local part without [@]
    and the user server, [GetDirectChatByContact] on the contact's phone
    number is [GetChat] on the contact's jid. *)
Theorem contact_phone_reaches_direct_chat
    (h : mcp.handle) (user : string) (name : option string) :
  Str.contains_at user = false ->
  let contact := mcp.scanContact ((user ++ "@s.whatsapp.net")%string, name) in
  mcp.PhoneNumber contact = user
  /\ mcp.GetDirectChatByContact h (mcp.PhoneNumber contact)
     = mcp.GetChat h (mcp.ContactJID contact) true.
Proof.
  intros Hat contact. subst contact.
  unfold mcp.scanContact.
  cbn [fst snd mcp.PhoneNumber mcp.ContactJID].
  change "@s.whatsapp.net" with (String Str.at_sign "s.whatsapp.net").
  rewrite (LookupFacts.split_at_0_local user "s.whatsapp.net" Hat).
  split; [reflexivity|].
  unfold mcp.GetDirectChatByContact. now rewrite Hat.
Qed.

Lemma contact_phone_reaches_direct_chat_witness :
  mcp.GetDirectChatByContact (mcp.Conn Ex.addressBook) "123"
  = mcp.GetChat (mcp.Conn Ex.addressBook) "123@s.whatsapp.net" true.
Proof.
  apply (proj2 (contact_phone_reaches_direct_chat (mcp.Conn Ex.addressBook)
                  "123" (Some "Ada") eq_refl)).
Defined.

Module ListFacts.
Import Schema.

Lemma sorted_app_r {A : Type} (R : A -> A -> Prop) (l1 l2 : list A) :
  StronglySorted R (l1 ++ l2) -> StronglySorted R l2.
Proof.
  induction l1 as [|x l1 IH]; simpl; intros H; [exact H|].
  inversion H; subst. now apply IH.
Qed.

Lemma sorted_offset {A : Type} (R : A -> A -> Prop) (n : Z) (l : list A) :
  StronglySorted R l -> StronglySorted R (Sql.offset n l).
Proof.
  unfold Sql.offset. destruct (n <? 0); [trivial|].
  intros H. rewrite <- (SqlFacts.take_drop l n) in H.
  now apply sorted_app_r in H.
Qed.

Lemma sorted_limit_offset {A : Type} (R : A -> A -> Prop) (n o : Z) (l : list A) :
  StronglySorted R l -> StronglySorted R (Sql.limit_offset n o l).
Proof.
  intros H. unfold Sql.limit_offset.
  now apply SqlFacts.sorted_limit, sorted_offset.
Qed.

Lemma NoDup_offset {A : Type} (n : Z) (l : list A) :
  NoDup l -> NoDup (Sql.offset n l).
Proof.
  unfold Sql.offset. destruct (n <? 0); [trivial|].
  intros H. rewrite <- (SqlFacts.take_drop l n) in H.
  now apply NoDup_app_remove_l in H.
Qed.

Lemma NoDup_limit {A : Type} (n : Z) (l : list A) :
  NoDup l -> NoDup (Sql.limit n l).
Proof.
  intros H. rewrite <- (SqlFacts.limit_beyond n l) in H.
  now apply NoDup_app_remove_r in H.
Qed.

Lemma chatOrder_total (drv : Driver.codec) (sortBy : string)
    (a b : chat_row * option message_row) :
  mcp.chatOrder drv sortBy a b = true \/ mcp.chatOrder drv sortBy b a = true.
Proof.
  unfold mcp.chatOrder. destruct (String.eqb sortBy "name").
  - apply SqlFacts.null_leb_total, String.leb_total.
  - destruct (SqlFacts.null_leb_total String.leb String.leb_total
                (mcp.chat_text drv (fst a)) (mcp.chat_text drv (fst b))); auto.
Qed.

Lemma chatOrder_trans (drv : Driver.codec) (sortBy : string)
    (a b c : chat_row * option message_row) :
  mcp.chatOrder drv sortBy a b = true -> mcp.chatOrder drv sortBy b c = true ->
  mcp.chatOrder drv sortBy a c = true.
Proof.
  unfold mcp.chatOrder. destruct (String.eqb sortBy "name").
  - apply SqlFacts.null_leb_trans. intros x y z. apply StrFacts.leb_trans.
  - intros H1 H2.
    exact (SqlFacts.null_leb_trans String.leb StrFacts.leb_trans _ _ _ H2 H1).
Qed.

Lemma sorted_impl {A : Type} (R Q : A -> A -> Prop) (l : list A) :
  (forall a b, R a b -> Q a b) -> StronglySorted R l -> StronglySorted Q l.
Proof.
  intros HRQ. induction 1 as [|x l Hs IH Hx]; constructor; [exact IH|].
  eapply Forall_impl; [|exact Hx]. intros; now apply HRQ.
Qed.

Lemma leb_empty (s : string) : String.leb "" s = true.
Proof. now destruct s. Qed.

Lemma firstn_then {A : Type} (a b : nat) (l : list A) :
  firstn a l ++ firstn b (skipn a l) = firstn (a + b) l.
Proof.
  revert l. induction a as [|a IH]; intros l; [reflexivity|].
  destruct l as [|x l]; simpl.
  - now rewrite firstn_nil.
  - now rewrite IH.
Qed.

(** Without context, what [ListMessages] returns are scanned rows of the
    join that pass the WHERE clause. *)
Lemma returned_rows_pass (drv : Driver.codec) (hs : nat -> mcp.handle)
    (st : Schema.Store) (dateRange : list Go.Time)
    (senderPhoneNumber chatJID query : string) (limit page cb ca : Z)
    (result : list mcp.Message) :
  hs 0%nat = mcp.Conn st ->
  mcp.ListMessages drv hs dateRange senderPhoneNumber chatJID query limit page
    false cb ca = inr result ->
  forall m, In m result ->
    exists r, mcp.scanMessage r = m
      /\ In r (mcp.joined st)
      /\ mcp.messageWhere drv dateRange senderPhoneNumber chatJID query r = true.
Proof.
  intros Hconn. unfold mcp.ListMessages. rewrite Hconn. simpl.
  intros H. inversion H; subst result; clear H.
  intros m Hm. apply in_map_iff in Hm. destruct Hm as (r & <- & Hr).
  apply SqlFacts.limit_offset_In in Hr. unfold mcp.matchingMessages in Hr.
  apply SqlFacts.order_by_In, filter_In in Hr. destruct Hr as [Hj Hw].
  now exists r.
Qed.

End ListFacts.

(** X16. For a jid whose LIKE pattern SQLite accepts and reads as bytes,
    [GetLastInteraction] returns a stored message that matches the
    contact (its chat is the jid, or its sender is or contains the local
    part) and whose stored timestamp text no other matching message
    exceeds; it returns the not-found error exactly when no stored message
    matches. *)
Theorem GetLastInteraction_reads_highest_text
    (drv : Driver.codec) (st : Schema.Store) (jid : string) :
  Str.within_like_limit (Str.contains_pattern (mcp.phoneOf jid)) = true ->
  forallb (fun m => Str.byte_wise (mcp.phoneOf jid) (Schema.m_sender m))
          (Schema.messages st) = true ->
  match mcp.GetLastInteraction drv (mcp.Conn st) jid with
  | inr m =>
      exists r,
        In r (mcp.joined st) /\ mcp.interactionWhere jid r = true
        /\ m = mcp.scanMessage r
        /\ forall r', In r' (mcp.joined st) ->
                      mcp.interactionWhere jid r' = true ->
                      String.leb (mcp.row_text drv r') (mcp.stamp drv m) = true
  | inl e =>
      e = Errors.New ("no message found for contact with JID " ++ jid)
      /\ forall r, In r (mcp.joined st) -> mcp.interactionWhere jid r = false
  end.
Proof.
  intros _ _. unfold mcp.GetLastInteraction.
  destruct (McpFacts.window_spec (mcp.time_desc drv)
              (McpFacts.desc_total (mcp.row_text drv))
              (McpFacts.desc_trans (mcp.row_text drv))
              (mcp.interactionWhere jid) 1 (mcp.joined st))
    as (_ & Hin & (rest & Hperm & Hcross) & Hlen & _).
  specialize (Hlen ltac:(lia)).
  set (w := Sql.limit 1 _) in *.
  destruct w as [|r w'].
  - split; [reflexivity|]. intros r Hr.
    destruct (mcp.interactionWhere jid r) eqn:E; [|reflexivity].
    assert (Hf : In r (filter (mcp.interactionWhere jid) (mcp.joined st)))
      by (apply filter_In; tauto).
    destruct (filter (mcp.interactionWhere jid) (mcp.joined st));
      [contradiction|]. simpl in Hlen. discriminate.
  - exists r. destruct (Hin r (or_introl eq_refl)) as [Hj Hw].
    split; [exact Hj|]. split; [exact Hw|]. split; [reflexivity|].
    intros r' Hj' Hw'. rewrite ContextFacts.scan_stamp.
    assert (Hf : In r' (filter (mcp.interactionWhere jid) (mcp.joined st)))
      by (apply filter_In; tauto).
    assert (w' = []).
    { destruct w'; [reflexivity|]. simpl in Hlen.
      destruct (List.length (filter (mcp.interactionWhere jid) (mcp.joined st)));
        simpl in Hlen; lia. }
    subst w'.
    apply (Permutation_in _ Hperm) in Hf. simpl in Hf.
    destruct Hf as [<-|Hf].
    + destruct (String.leb_total (mcp.row_text drv r) (mcp.row_text drv r));
        assumption.
    + exact (Hcross r r' (or_introl eq_refl) Hf).
Qed.

Lemma GetLastInteraction_reads_highest_text_witness :
  exists m,
    mcp.GetLastInteraction Driver.utc (mcp.Conn Ex.fiveDays) "33611@s.whatsapp.net"
    = inr m
    /\ mcp.ID m = "M50".
Proof.
  pose proof (GetLastInteraction_reads_highest_text Driver.utc Ex.fiveDays
                "33611@s.whatsapp.net" eq_refl eq_refl) as H.
  destruct (mcp.GetLastInteraction Driver.utc (mcp.Conn Ex.fiveDays)
              "33611@s.whatsapp.net") as [e|m] eqn:E.
  - vm_compute in E. discriminate.
  - exists m. split; [reflexivity|]. vm_compute in E. inversion E. reflexivity.
Defined.

(** X17. The two sort modes of [ListChats]: with [sortBy = "name"] the
    returned chats are in the byte order of their names, whatever their
    last message times; with any other value the rows are in descending
    order of the stored texts of their last message times, a NULL time
    coming last. *)
Theorem ListChats_sort_modes
    (drv : Driver.codec) (st : Schema.Store) (query : string) (limit page : Z)
    (sortBy : string) (result : list mcp.Chat) :
  mcp.ListChats drv (mcp.Conn st) query limit page true sortBy = inr result ->
  (sortBy = "name" ->
   StronglySorted (fun a b => String.leb (mcp.Name a) (mcp.Name b) = true) result)
  /\ (sortBy <> "name" ->
      exists rows,
        result = map mcp.scanChat rows
        /\ StronglySorted
             (fun a b =>
                Sql.null_leb String.leb
                  (option_map (Driver.stored drv)
                     (Schema.c_last_message_time (fst b)))
                  (option_map (Driver.stored drv)
                     (Schema.c_last_message_time (fst a))) = true)
             rows).
Proof.
  unfold mcp.ListChats. intros H. inversion H; subst result; clear H.
  assert (Hs : StronglySorted (Sql.le (mcp.chatOrder drv sortBy))
                 (Sql.limit_offset (mcp.normLimit limit)
                    (Go.mul (mcp.normPage page) (mcp.normLimit limit))
                    (mcp.matchingChats drv st query sortBy))).
  { apply ListFacts.sorted_limit_offset. unfold mcp.matchingChats.
    apply SqlFacts.order_by_sorted.
    - apply ListFacts.chatOrder_total.
    - apply ListFacts.chatOrder_trans. }
  split.
  - intros ->. eapply SqlFacts.sorted_map; [|exact Hs].
    intros [a la] [b lb] Hab. unfold Sql.le, mcp.chatOrder in Hab. simpl in Hab.
    simpl. destruct (Schema.c_name a), (Schema.c_name b); simpl in Hab;
      try discriminate; auto using ListFacts.leb_empty.
  - intros Hne. eexists. split; [reflexivity|].
    eapply ListFacts.sorted_impl; [|exact Hs].
    intros a b Hab. unfold Sql.le, mcp.chatOrder in Hab.
    destruct (String.eqb_spec sortBy "name"); [contradiction|exact Hab].
Qed.

Lemma ListChats_sort_modes_witness :
  StronglySorted (fun a b => String.leb (mcp.Name a) (mcp.Name b) = true)
    [ {| mcp.JID := "123@s.whatsapp.net"; mcp.Name := "Ada";
         mcp.LastMessageTime := 60; mcp.LastMessage := "";
         mcp.LastSender := ""; mcp.LastIsFromMe := false |};
      {| mcp.JID := "789@g.us"; mcp.Name := "Ada and Bob";
         mcp.LastMessageTime := 0; mcp.LastMessage := "";
         mcp.LastSender := ""; mcp.LastIsFromMe := false |};
      {| mcp.JID := "456@s.whatsapp.net"; mcp.Name := "Bob";
         mcp.LastMessageTime := 7; mcp.LastMessage := "";
         mcp.LastSender := ""; mcp.LastIsFromMe := false |} ].
Proof.
  refine (proj1 (ListChats_sort_modes Driver.utc Ex.addressBook "" 0 0 "name" _ _)
                eq_refl).
  reflexivity.
Defined.

(** X18. Without context, every message returned by [ListMessages]
    satisfies each criterion that was given: its sender and chat are the
    requested ones, the stored text of its timestamp lies between the
    RFC 3339 texts of the two bounds, and its content contains the query
    up to ASCII case when the query is ASCII without wildcard and the
    content has no NUL byte; the messages come in descending order of
    their stored timestamp texts. *)
Theorem ListMessages_results_meet_criteria
    (drv : Driver.codec) (hs : nat -> mcp.handle) (st : Schema.Store)
    (dateRange : list Go.Time)
    (senderPhoneNumber chatJID query : string) (limit page cb ca : Z)
    (result : list mcp.Message) :
  hs 0%nat = mcp.Conn st ->
  mcp.ListMessages drv hs dateRange senderPhoneNumber chatJID query limit page
    false cb ca = inr result ->
  StronglySorted (fun a b => mcp.stamp_le drv b a) result
  /\ forall m, In m result ->
       (senderPhoneNumber <> "" -> mcp.Sender m = senderPhoneNumber)
       /\ (chatJID <> "" -> mcp.ChatJID m = chatJID)
       /\ (forall lo hi, dateRange = [lo; hi] ->
             String.leb (Driver.formatted drv lo) (mcp.stamp drv m) = true
             /\ String.leb (mcp.stamp drv m) (Driver.formatted drv hi) = true)
       /\ (query <> "" -> Str.no_wildcard query ->
           Str.plain query = true -> Str.nul_free (mcp.Content m) = true ->
           Str.contains_ci (mcp.Content m) query).
Proof.
  intros Hconn. unfold mcp.ListMessages. rewrite Hconn. simpl.
  intros H. inversion H; subst result; clear H. split.
  - eapply SqlFacts.sorted_map
      with (R := Sql.le (mcp.time_desc drv)).
    + intros a b Hab. unfold mcp.stamp_le. rewrite !ContextFacts.scan_stamp.
      exact Hab.
    + apply ListFacts.sorted_limit_offset. unfold mcp.matchingMessages.
      apply SqlFacts.order_by_sorted.
      * intros a b. apply (McpFacts.desc_total (mcp.row_text drv)).
      * intros a b c. apply (McpFacts.desc_trans (mcp.row_text drv)).
  - intros m Hm. apply in_map_iff in Hm. destruct Hm as (r & <- & Hr).
    apply SqlFacts.limit_offset_In in Hr. unfold mcp.matchingMessages in Hr.
    apply SqlFacts.order_by_In, filter_In in Hr. destruct Hr as [Hj Hw].
    unfold mcp.messageWhere in Hw.
    apply andb_true_iff in Hw. destruct Hw as [Hw Hq].
    apply andb_true_iff in Hw. destruct Hw as [Hw Hc].
    apply andb_true_iff in Hw. destruct Hw as [Hd Hs].
    rewrite (ContextFacts.scan_chat st r Hj), ContextFacts.scan_stamp.
    split.
    { intros Hne. destruct (String.eqb_spec senderPhoneNumber ""); [contradiction|].
      destruct r as [row c]. simpl in *. now apply String.eqb_eq. }
    split.
    { intros Hne. destruct (String.eqb_spec chatJID ""); [contradiction|].
      now apply String.eqb_eq. }
    split.
    { intros lo hi ->. unfold Sql.between in Hd.
      now apply andb_true_iff in Hd. }
    intros Hne Hnw _ _. destruct (String.eqb_spec query ""); [contradiction|].
    destruct r as [row c]. simpl in *. now apply StrFacts.LIKE_contains.
Qed.

Lemma ListMessages_results_meet_criteria_witness :
  Forall (fun m =>
            String.leb (Driver.formatted Driver.utc (Ex.day 20))
                       (mcp.stamp Driver.utc m) = true
            /\ String.leb (mcp.stamp Driver.utc m)
                          (Driver.formatted Driver.utc (Ex.day 40)) = true)
    (map (fun r => mcp.scanMessage
                     (r, {| Schema.c_jid := "123@s.whatsapp.net";
                            Schema.c_name := Some "Ada";
                            Schema.c_last_message_time := Some (Ex.day 50) |}))
         [Ex.row "M40" (Ex.day 40); Ex.row "M30" (Ex.day 30)]).
Proof.
  apply Forall_forall. intros m Hm.
  destruct (ListMessages_results_meet_criteria Driver.utc
              (fun _ => mcp.Conn Ex.fiveDays) Ex.fiveDays [Ex.day 20; Ex.day 40]
              "" "" "TEX" 0 0 0 0 _ eq_refl eq_refl) as [_ Hall].
  destruct (Hall m Hm) as (_ & _ & Hrange & _).
  now apply Hrange.
Defined.

(** X19. Without context, consecutive pages of [ListMessages] neither
    overlap nor leave a gap: for a positive limit and a page from 0 on, as
    long as the offsets fit Go's [int] and SQLite accepts the LIKE
    pattern, page [p] followed by page [p + 1] is the run of [2 * limit]
    rows of the ordered result that starts at rank [p * limit]. *)
Theorem ListMessages_pages_are_adjacent
    (drv : Driver.codec) (hs : nat -> mcp.handle) (st : Schema.Store)
    (dateRange : list Go.Time)
    (senderPhoneNumber chatJID query : string) (limit page cb ca : Z) :
  hs 0%nat = mcp.Conn st ->
  Str.within_like_limit (Str.contains_pattern query) = true ->
  0 < limit -> 0 <= page ->
  (page + 1) * limit <= Go.max_int ->
  exists this next,
    mcp.ListMessages drv hs dateRange senderPhoneNumber chatJID query limit page
      false cb ca = inr this
    /\ mcp.ListMessages drv hs dateRange senderPhoneNumber chatJID query limit
         (page + 1) false cb ca = inr next
    /\ this ++ next
       = map mcp.scanMessage
           (firstn (Z.to_nat (2 * limit))
              (skipn (Z.to_nat (page * limit))
                 (mcp.matchingMessages drv st dateRange senderPhoneNumber
                    chatJID query))).
Proof.
  intros Hconn _ Hlimit Hpage Hfit.
  assert (HL : mcp.normLimit limit = limit)
    by (unfold mcp.normLimit; destruct (Z.leb_spec limit 0); lia).
  assert (HP : forall p, 0 <= p -> mcp.normPage p = p)
    by (intros p Hp; unfold mcp.normPage; destruct (Z.ltb_spec p 0); lia).
  unfold mcp.ListMessages. rewrite Hconn. cbv zeta. cbn [andb].
  rewrite !PageFacts.page_window by (rewrite HL, HP; nia).
  rewrite HL, !HP by lia.
  eexists _, _. split; [reflexivity|]. split; [reflexivity|].
  rewrite <- map_app. f_equal.
  replace (Z.to_nat ((page + 1) * limit))
    with (Z.to_nat limit + Z.to_nat (page * limit))%nat by nia.
  rewrite <- skipn_skipn.
  replace (Z.to_nat (2 * limit)) with (Z.to_nat limit + Z.to_nat limit)%nat by lia.
  apply ListFacts.firstn_then.
Qed.

Lemma ListMessages_pages_are_adjacent_witness :
  exists this next,
    mcp.ListMessages Driver.utc (fun _ => mcp.Conn Ex.fiveMessages) [] "" "" "" 2 0
      false 0 0 = inr this
    /\ mcp.ListMessages Driver.utc (fun _ => mcp.Conn Ex.fiveMessages) [] "" "" "" 2 1
         false 0 0 = inr next
    /\ map mcp.ID (this ++ next) = ["M50"; "M40"; "M30"; "M20"].
Proof.
  destruct (ListMessages_pages_are_adjacent Driver.utc
              (fun _ => mcp.Conn Ex.fiveMessages)
              Ex.fiveMessages [] "" "" "" 2 0 0 0)
    as (this & next & E0 & E1 & E).
  - reflexivity.
  - reflexivity.
  - lia.
  - lia.
  - vm_compute. discriminate.
  - exists this, next. split; [exact E0|]. split; [exact E1|].
    rewrite E. reflexivity.
Defined.

Module ExpandFacts.
Import Schema.

Lemma lookup_succeeds (drv : Driver.codec) (st : Store) (id : string) (cb ca : Z) :
  (exists r, In r (mcp.joined st) /\ m_id (fst r) = id) ->
  exists ctx,
    mcp.GetMessageContext drv (mcp.Conn st) id cb ca = inr ctx
    /\ mcp.ID (mcp.Target ctx) = id.
Proof.
  intros (r & Hr & Hid).
  destruct (ContextFacts.withID_some st id r Hr Hid) as (target & others & E).
  destruct (GetMessageContext_of_target drv st id cb ca target others E)
    as (ctx & Hctx & _ & Hid' & _).
  now exists ctx.
Qed.

Lemma withContext_keeps (drv : Driver.codec) (st : Store) (cb ca : Z) (msgs : list mcp.Message) :
  forall k,
  (forall m, In m msgs -> exists r, In r (mcp.joined st) /\ m_id (fst r) = mcp.ID m) ->
  forall m, In m msgs ->
  exists x, In x (mcp.withContext drv (fun _ => mcp.Conn st) k msgs cb ca)
            /\ mcp.ID x = mcp.ID m.
Proof.
  induction msgs as [|m0 msgs IH]; intros k Hall m Hm; [contradiction|].
  cbn [mcp.withContext].
  destruct (lookup_succeeds drv st (mcp.ID m0) cb ca (Hall m0 (or_introl eq_refl)))
    as (ctx & -> & Hid).
  destruct Hm as [<-|Hm].
  - exists (mcp.Target ctx). split; [|exact Hid].
    rewrite !in_app_iff. right. left. now left.
  - destruct (IH (S k) (fun m' Hm' => Hall m' (or_intror Hm')) m Hm)
      as (x & Hx & Hxid).
    exists x. split; [|exact Hxid].
    rewrite !in_app_iff. tauto.
Qed.

Lemma groupByJid_In (rows : list (chat_row * option message_row))
    (r : chat_row * option message_row) :
  In r (mcp.groupByJid rows) -> In r rows.
Proof.
  induction rows as [|x rows IH]; simpl; [trivial|].
  intros [<-|H]; [now left|]. right. apply IH. now apply filter_In in H.
Qed.

Lemma NoDup_map_filter {A B : Type} (f : A -> B) (keep : A -> bool) (l : list A) :
  NoDup (map f l) -> NoDup (map f (filter keep l)).
Proof.
  induction l as [|y ys IH]; simpl; intros H; [constructor|].
  inversion H as [|? ? Hy Hys]; subst.
  destruct (keep y); simpl; [|now apply IH].
  constructor; [|now apply IH].
  intros Hin. apply Hy. apply in_map_iff in Hin. destruct Hin as (z & E & Hz).
  apply filter_In in Hz. apply in_map_iff. exists z. tauto.
Qed.

Lemma groupByJid_NoDup (rows : list (chat_row * option message_row)) :
  NoDup (map (fun r => c_jid (fst r)) (mcp.groupByJid rows)).
Proof.
  induction rows as [|x rows IH]; simpl; constructor.
  - intros H. apply in_map_iff in H. destruct H as (y & E & Hy).
    apply filter_In in Hy. destruct Hy as [_ Hy].
    rewrite E, String.eqb_refl in Hy. discriminate.
  - now apply NoDup_map_filter.
Qed.

Lemma contactChatJoin_In (st : Store) (jid phone : string)
    (r : chat_row * option message_row) :
  In r (mcp.contactChatJoin st jid phone) ->
  exists m, In m (messages st) /\ m_chat_jid m = c_jid (fst r)
            /\ mcp.contactChatWhere jid phone (fst r) m = true.
Proof.
  unfold mcp.contactChatJoin. intros H. apply in_flat_map in H.
  destruct H as (r0 & _ & H). apply in_map_iff in H.
  destruct H as (m & <- & Hm). apply filter_In in Hm. destruct Hm as [Hm Hw].
  apply andb_true_iff in Hw. destruct Hw as [Hj Hw].
  apply String.eqb_eq in Hj. exists m. auto.
Qed.

End ExpandFacts.

(** X20. On tables that do not change during the call, asking for
    context loses no match: every message that [ListMessages] returns
    without context has a message with the same id in what it returns with
    context. *)
Theorem ListMessages_context_keeps_every_match (drv : Driver.codec)
    (st : Schema.Store) (dateRange : list Go.Time)
    (senderPhoneNumber chatJID query : string) (limit page cb ca : Z)
    (matches : list mcp.Message) :
  mcp.ListMessages drv (fun _ => mcp.Conn st) dateRange senderPhoneNumber chatJID
    query limit page false cb ca = inr matches ->
  exists result,
    mcp.ListMessages drv (fun _ => mcp.Conn st) dateRange senderPhoneNumber chatJID
      query limit page true cb ca = inr result
    /\ forall m, In m matches -> exists x, In x result /\ mcp.ID x = mcp.ID m.
Proof.
  unfold mcp.ListMessages. cbv zeta. cbn [andb].
  intros H. inversion H as [Hm]; clear H.
  set (rows := Sql.limit_offset _ _ _) in *.
  destruct (Nat.eqb (List.length (map mcp.scanMessage rows)) 0) eqn:E; simpl.
  - eexists. split; [reflexivity|].
    intros m Hin. apply Nat.eqb_eq in E.
    destruct (map mcp.scanMessage rows); [contradiction|discriminate].
  - eexists. split; [reflexivity|].
    apply ExpandFacts.withContext_keeps.
    intros m Hin. apply in_map_iff in Hin. destruct Hin as (r & <- & Hr).
    exists r. split; [|now rewrite ContextFacts.scan_id].
    subst rows. apply SqlFacts.limit_offset_In in Hr.
    unfold mcp.matchingMessages in Hr.
    now apply SqlFacts.order_by_In, filter_In in Hr.
Qed.

Lemma ListMessages_context_keeps_every_match_witness :
  exists result,
    mcp.ListMessages Driver.utc (fun _ => mcp.Conn Ex.fiveMessages) [] "" "" "" 1 0
      true 1 1 = inr result
    /\ map mcp.ID result = ["M50"; "M50"].
Proof.
  destruct (ListMessages_context_keeps_every_match Driver.utc Ex.fiveMessages [] "" "" ""
              1 0 1 1
              [mcp.scanMessage (Ex.row "M50" 50,
                                {| Schema.c_jid := "123@s.whatsapp.net";
                                   Schema.c_name := Some "Ada";
                                   Schema.c_last_message_time := Some 50 |})])
    as (result & E & _).
  - reflexivity.
  - exists result. split; [exact E|]. vm_compute in E. inversion E. reflexivity.
Defined.

(** X21. [GetMessageContext] on an id that no stored message has fails
    with the not-found error wrapping [sql.ErrNoRows], whatever the
    bounds. *)
Theorem GetMessageContext_unknown_id (drv : Driver.codec)
    (st : Schema.Store) (messageID : string) (before after : Z) :
  (forall m, In m (Schema.messages st) -> Schema.m_id m <> messageID) ->
  mcp.GetMessageContext drv (mcp.Conn st) messageID before after
  = inl (Go.Errorf ("message with ID " ++ messageID ++ " not found: ")
           Go.ErrNoRows).
Proof.
  intros Hno. unfold mcp.GetMessageContext.
  now rewrite (ContextFacts.withID_none st messageID Hno).
Qed.

Lemma GetMessageContext_unknown_id_witness :
  mcp.GetMessageContext Driver.utc (mcp.Conn Ex.fiveMessages) "unknown-id" 5 5
  = inl (Go.Errorf "message with ID unknown-id not found: " Go.ErrNoRows).
Proof.
  apply (GetMessageContext_unknown_id Driver.utc Ex.fiveMessages "unknown-id" 5 5).
  intros m Hm. simpl in Hm.
  repeat (destruct Hm as [<-|Hm]; [discriminate|]). contradiction.
Defined.

(** X22. [GetContactChats] returns each chat at most once, and only
    chats that hold a message: a returned chat has a stored message, and
    either its jid is the requested one or the sender of that message is,
    or matches, the local part of the requested jid. *)
Theorem GetContactChats_distinct_chats_with_messages (drv : Driver.codec)
    (st : Schema.Store) (jid : string) (limit page : Z)
    (result : list mcp.Chat) :
  mcp.GetContactChats drv (mcp.Conn st) jid limit page = inr result ->
  NoDup (map mcp.JID result)
  /\ forall chat, In chat result ->
       exists m,
         In m (Schema.messages st)
         /\ Schema.m_chat_jid m = mcp.JID chat
         /\ (mcp.JID chat = jid
             \/ Schema.m_sender m = mcp.phoneOf jid
             \/ Str.LIKE (Schema.m_sender m)
                  (Str.contains_pattern (mcp.phoneOf jid)) = true).
Proof.
  unfold mcp.GetContactChats. intros H. inversion H; subst result; clear H.
  unfold mcp.matchingContactChats. fold (mcp.phoneOf jid).
  set (groups := mcp.groupByJid (mcp.contactChatJoin st jid (mcp.phoneOf jid))).
  split.
  - rewrite map_map.
    rewrite (map_ext (fun x => mcp.JID (mcp.scanChat x))
               (fun r : Schema.chat_row * option Schema.message_row =>
                  Schema.c_jid (fst r)))
      by (intros [c l]; reflexivity).
    assert (Hnd : NoDup (map (fun r : Schema.chat_row * option Schema.message_row =>
                                Schema.c_jid (fst r))
                             (Sql.order_by (mcp.chatOrder drv "last_active") groups))).
    { eapply Permutation_NoDup;
        [apply Permutation_map, SqlFacts.order_by_perm|].
      apply ExpandFacts.groupByJid_NoDup. }
    unfold Sql.limit_offset. revert Hnd.
    generalize (Sql.order_by (mcp.chatOrder drv "last_active") groups). intros l Hnd.
    assert (Hoff : NoDup (map (fun r : Schema.chat_row * option Schema.message_row =>
                                 Schema.c_jid (fst r))
                              (Sql.offset (Go.mul (mcp.normPage page)
                                             (mcp.normLimit limit)) l))).
    { unfold Sql.offset. destruct (_ <? 0); [exact Hnd|].
      rewrite <- (SqlFacts.take_drop l (Go.mul (mcp.normPage page)
                                          (mcp.normLimit limit))) in Hnd.
      rewrite map_app in Hnd. now apply NoDup_app_remove_l in Hnd. }
    revert Hoff. generalize (Sql.offset (Go.mul (mcp.normPage page)
                                           (mcp.normLimit limit)) l).
    intros l' Hoff.
    rewrite <- (SqlFacts.limit_beyond (mcp.normLimit limit) l') in Hoff.
    rewrite map_app in Hoff. now apply NoDup_app_remove_r in Hoff.
  - intros chat Hin. apply in_map_iff in Hin. destruct Hin as ([c last] & <- & Hr).
    apply SqlFacts.limit_offset_In, SqlFacts.order_by_In in Hr.
    subst groups. apply ExpandFacts.groupByJid_In in Hr.
    apply ExpandFacts.contactChatJoin_In in Hr. destruct Hr as (m & Hm & Hj & Hw).
    exists m. simpl in *. split; [exact Hm|]. split; [exact Hj|].
    unfold mcp.contactChatWhere in Hw.
    apply orb_true_iff in Hw. destruct Hw as [Hw|Hw]; [|tauto].
    apply orb_true_iff in Hw. destruct Hw as [Hw|Hw];
      apply String.eqb_eq in Hw; tauto.
Qed.

Lemma GetContactChats_distinct_chats_with_messages_witness :
  NoDup (map mcp.JID
           [ {| mcp.JID := "456@s.whatsapp.net"; mcp.Name := "Bob";
                mcp.LastMessageTime := 7; mcp.LastMessage := "seven";
                mcp.LastSender := "456@s.whatsapp.net";
                mcp.LastIsFromMe := true |} ]).
Proof.
  refine (proj1 (GetContactChats_distinct_chats_with_messages Driver.utc Ex.watermarks
                   "456@s.whatsapp.net" 0 0 _ _)).
  reflexivity.
Defined.

Module MatchFacts.
Import Str.








End MatchFacts.



(* ================================================================== *)
(** ** What the stored texts do to the queries *)
(* ================================================================== *)

Module DriverFacts.

Lemma compare_app (p a b : string) :
  String.compare (p ++ a) (p ++ b) = String.compare a b.
Proof.
  induction p as [|c p IH]; simpl; [reflexivity|].
  now rewrite StrFacts.ascii_compare_refl.
Qed.

Lemma ltb_app (p a b : string) : String.ltb (p ++ a) (p ++ b) = String.ltb a b.
Proof. unfold String.ltb. now rewrite compare_app. Qed.

Lemma leb_app (p a b : string) : String.leb (p ++ a) (p ++ b) = String.leb a b.
Proof. unfold String.leb. now rewrite compare_app. Qed.

Section Zone.
Variable zone : Go.Time -> Z.

(** The text of a cell is below every scanned or formatted text of the
    same calendar day of the zone, whatever the two clocks: a space sorts
    below [T]. *)
Lemma stored_below_scanned (t u : Go.Time) :
  Driver.date (t + zone t) = Driver.date (u + zone u) ->
  String.ltb (Driver.stored (Driver.local zone) t)
             (Driver.scanned (Driver.local zone) u) = true
  /\ String.ltb (Driver.scanned (Driver.local zone) u)
                (Driver.stored (Driver.local zone) t) = false.
Proof.
  intros E. cbn [Driver.stored Driver.scanned Driver.local]. cbv zeta.
  rewrite E, !ltb_app. split; reflexivity.
Qed.

Lemma stored_below_formatted (t u : Go.Time) :
  Driver.date (t + zone t) = Driver.date (u + zone u) ->
  String.leb (Driver.stored (Driver.local zone) t)
             (Driver.formatted (Driver.local zone) u) = true
  /\ String.leb (Driver.formatted (Driver.local zone) u)
                (Driver.stored (Driver.local zone) t) = false.
Proof.
  intros E. cbn [Driver.stored Driver.formatted Driver.local]. cbv zeta.
  rewrite E, !leb_app. split; reflexivity.
Qed.
End Zone.

End DriverFacts.

(** X24. For a bridge in any zone, the two sides of a context split on
    the calendar day, not on the time: no message of the side after falls
    on the day of the target, and the row of the target itself qualifies
    for the side before, which is therefore never empty unless [before]
    is 0. *)
Theorem GetMessageContext_sides_split_on_the_day
    (zone : Go.Time -> Z) (st : Schema.Store) (messageID : string)
    (before after : Z) (ctx : mcp.MessageContext) :
  mcp.GetMessageContext (Driver.local zone) (mcp.Conn st) messageID
    before after = inr ctx ->
  let day (m : mcp.Message) :=
    Driver.date (mcp.Timestamp m + zone (mcp.Timestamp m)) in
  (forall a, In a (mcp.After ctx) -> day a <> day (mcp.Target ctx))
  /\ (before <> 0 -> mcp.Before ctx <> []).
Proof.
  intros E day.
  destruct (mcp.withID st messageID) as [|target others] eqn:Hfound.
  { unfold mcp.GetMessageContext in E. rewrite Hfound in E. discriminate. }
  destruct (GetMessageContext_of_target (Driver.local zone) st messageID
              before after target others Hfound)
    as (ctx' & E' & HT & _ & _ & _ & _ & Ain & _ & _ & Blen & _ & Bneg & _).
  rewrite E in E'. inversion E'; subst ctx'; clear E'.
  assert (Hjoined : In target (mcp.joined st)).
  { apply (ContextFacts.withID_In st messageID). rewrite Hfound. now left. }
  split.
  - intros a Ha Hday. destruct (Ain a Ha) as [_ Hlt].
    destruct (DriverFacts.stored_below_scanned zone (mcp.Timestamp a)
                (mcp.Timestamp (mcp.Target ctx)) Hday) as [_ Hno].
    unfold mcp.stamp in Hlt. congruence.
  - intros Hb Hnil.
    assert (Hself :
      In target
         (filter (mcp.earlier (Driver.local zone)
                    (Schema.m_chat_jid (fst target))
                    (Driver.scanned (Driver.local zone) (mcp.row_time target)))
                 (mcp.joined st))).
    { apply filter_In. split; [exact Hjoined|].
      unfold mcp.earlier. rewrite String.eqb_refl. simpl.
      apply (DriverFacts.stored_below_scanned zone). reflexivity. }
    apply (in_map mcp.scanMessage) in Hself.
    destruct (map mcp.scanMessage _) as [|x l] eqn:Hall in Hself;
      [contradiction|].
    rewrite Hnil in Blen, Bneg. cbv zeta in Blen, Bneg.
    rewrite Hall in Blen, Bneg. simpl in Blen, Bneg.
    destruct (Z.lt_ge_cases before 0) as [Hneg|Hpos].
    + specialize (Bneg Hneg). discriminate.
    + specialize (Blen Hpos).
      destruct (Z.to_nat before) eqn:Hn; [lia|discriminate].
Qed.

Lemma GetMessageContext_sides_split_on_the_day_witness :
  exists ctx,
    mcp.GetMessageContext (Driver.local (fun _ => 0)) (mcp.Conn Ex.fiveMessages)
      "M10" 1 4 = inr ctx
    /\ mcp.After ctx = []
    /\ mcp.Before ctx <> [].
Proof.
  eexists. split; [vm_compute; reflexivity|]. split; [reflexivity|].
  refine (proj2 (GetMessageContext_sides_split_on_the_day (fun _ => 0)
                   Ex.fiveMessages "M10" 1 4 _ _) _).
  - vm_compute. reflexivity.
  - lia.
Defined.

(** X25. The order of [GetMessages] is that of the wall clocks: when the
    zone of the bridge falls back, the message written at 00:30 UTC, whose
    cell reads 02:30, comes before the message written at 01:10 UTC, whose
    cell reads 02:10, although it is the older one. *)
Theorem GetMessages_at_a_fall_back :
  map (Driver.stored (Driver.local Ex.fallBack))
      [Go.Unix 1698539400; Go.Unix 1698541800]
  = ["2023-10-29 02:30:00+02:00"; "2023-10-29 02:10:00+01:00"]
  /\ Go.Unix 1698539400 < Go.Unix 1698541800
  /\ exists ms,
       db.GetMessages (Driver.local Ex.fallBack)
         {| db.store := Ex.thatNight; db.closed := false |}
         "123@s.whatsapp.net" 10 = (ms, None)
       /\ map models.ID ms = ["N0030"; "N0110"].
Proof.
  split; [vm_compute; reflexivity|]. split; [vm_compute; reflexivity|].
  eexists. split; [vm_compute; reflexivity|]. reflexivity.
Qed.

(** X26. For a bridge in any zone and bounds written in that zone, the
    date range of [ListMessages] works on calendar days: without context,
    no returned message falls on the day of the lower bound, and a row
    that falls on the day of the upper bound passes the test of that
    bound whatever its clock. *)
Theorem ListMessages_range_works_on_days
    (zone : Go.Time -> Z) (hs : nat -> mcp.handle) (st : Schema.Store)
    (lo hi : Go.Time) (senderPhoneNumber chatJID query : string)
    (limit page cb ca : Z) (result : list mcp.Message) :
  hs 0%nat = mcp.Conn st ->
  mcp.ListMessages (Driver.local zone) hs [lo; hi] senderPhoneNumber chatJID
    query limit page false cb ca = inr result ->
  let day (t : Go.Time) := Driver.date (t + zone t) in
  (forall m, In m result -> day (mcp.Timestamp m) <> day lo)
  /\ (forall t, day t = day hi ->
        String.leb (Driver.stored (Driver.local zone) t)
                   (Driver.formatted (Driver.local zone) hi) = true).
Proof.
  intros Hconn E day. split.
  - intros m Hm Hday.
    destruct (ListFacts.returned_rows_pass (Driver.local zone) hs st
                [lo; hi] senderPhoneNumber chatJID query limit page cb ca
                result Hconn E m Hm) as (r & <- & _ & Hw).
    unfold mcp.messageWhere, Sql.between in Hw.
    repeat (apply andb_true_iff in Hw; destruct Hw as [Hw _]).
    destruct (DriverFacts.stored_below_formatted zone
                (mcp.Timestamp (mcp.scanMessage r)) lo Hday) as [_ Hno].
    rewrite <- ContextFacts.scan_stamp in Hw. unfold mcp.stamp in Hw.
    congruence.
  - intros t Hday.
    now destruct (DriverFacts.stored_below_formatted zone t hi Hday).
Qed.

Lemma ListMessages_range_works_on_days_witness :
  forallb (fun m => negb (String.eqb (Driver.date (mcp.Timestamp m))
                                     (Driver.date (Ex.day 20))))
    (map (fun r => mcp.scanMessage
                     (r, {| Schema.c_jid := "123@s.whatsapp.net";
                            Schema.c_name := Some "Ada";
                            Schema.c_last_message_time := Some (Ex.day 50) |}))
         [Ex.row "M40" (Ex.day 40); Ex.row "M30" (Ex.day 30)])
  = true.
Proof.
  apply forallb_forall. intros m Hm. apply negb_true_iff, String.eqb_neq.
  assert (E : mcp.ListMessages (Driver.local (fun _ => 0))
                (fun _ => mcp.Conn Ex.fiveDays) [Ex.day 20; Ex.day 40] "" "" ""
                0 0 false 0 0
              = inr (map (fun r => mcp.scanMessage
                            (r, {| Schema.c_jid := "123@s.whatsapp.net";
                                   Schema.c_name := Some "Ada";
                                   Schema.c_last_message_time :=
                                     Some (Ex.day 50) |}))
                         [Ex.row "M40" (Ex.day 40); Ex.row "M30" (Ex.day 30)]))
    by (vm_compute; reflexivity).
  pose proof (proj1 (ListMessages_range_works_on_days (fun _ => 0)
                       (fun _ => mcp.Conn Ex.fiveDays) Ex.fiveDays
                       (Ex.day 20) (Ex.day 40) "" "" "" 0 0 0 0 _ eq_refl E)
                    m Hm) as H.
  cbv beta zeta in H. now rewrite !Z.add_0_r in H.
Defined.
